(** * Wayback snapshot pipeline: a shallow embedding of the analysis code

    The development follows the JavaScript sources of the archive
    adapter: [htmlParser.js] (stop-word scoring), [metricsAnalyzer.js]
    (domain metrics), [topicAnalyzer.js] (topic stability),
    [waybackClient.js] (capture index client) and the adapter's
    [index.js] (per-domain pipelines, risk aggregation, batches).

    Conventions of the embedding.
    - A JavaScript string is a [string] of bytes.  Case conversion and
      white space are the ASCII ones: [toLowerCase] maps [A-Z] to [a-z]
      and leaves every other byte alone, [trim] strips the bytes 9-13
      and 32.  This is the behaviour of the language on ASCII text.
      Where a property depends on what the language does with other
      text, the function is embedded over UTF-16 code units as well
      (module [Unicode]), with the case operations of the runtime as
      inputs.
    - A JavaScript number that is known to be finite is a rational [Q];
      where the code can meet [NaN] the type [num] adds it.  Arithmetic
      on finite numbers is exact (the rounding of IEEE doubles is not
      modelled).
    - Network calls, the HTML library and the random generator are
      inputs of the functions that use them. *)

From Stdlib Require Import ZArith QArith Qround List String Ascii Bool Arith Lia Lqa Permutation.
From Stdlib Require Import Numbers.DecimalString.
Import ListNotations.

Set Implicit Arguments.

(* ================================================================== *)
(** * Part I: definitions *)
(* ================================================================== *)

(** ** JavaScript primitives *)

Module Js.

Local Open Scope string_scope.

(** [String.prototype.toLowerCase], ASCII letters. *)
Definition lowerChar (c : ascii) : ascii :=
  let n := nat_of_ascii c in
  if (65 <=? n)%nat && (n <=? 90)%nat then ascii_of_nat (n + 32) else c.

(** The canonicalisation an [i]-flagged regular expression applies to
    both sides of a character comparison (upper-casing). *)
Definition upperChar (c : ascii) : ascii :=
  let n := nat_of_ascii c in
  if (97 <=? n)%nat && (n <=? 122)%nat then ascii_of_nat (n - 32) else c.

Fixpoint toLowerCase (s : string) : string :=
  match s with
  | EmptyString => EmptyString
  | String c r => String (lowerChar c) (toLowerCase r)
  end.

(** White space in the sense of [trim] and of [\s]. *)
Definition isSpace (c : ascii) : bool :=
  let n := nat_of_ascii c in
  ((9 <=? n)%nat && (n <=? 13)%nat) || (n =? 32)%nat.

Fixpoint trimStart (s : string) : string :=
  match s with
  | EmptyString => EmptyString
  | String c r => if isSpace c then trimStart r else s
  end.

(** [trimEnd] drops a character when it is a space and everything after
    it has been dropped. *)
Fixpoint trimEnd (s : string) : string :=
  match s with
  | EmptyString => EmptyString
  | String c r =>
      match trimEnd r with
      | EmptyString => if isSpace c then EmptyString else String c EmptyString
      | r' => String c r'
      end
  end.

Definition trim (s : string) : string := trimEnd (trimStart s).

(** Truthiness of a string: non-empty. *)
Definition truthy (s : string) : bool :=
  match s with EmptyString => false | _ => true end.

(** [t.startsWith(w)]. *)
Fixpoint startsWith (t w : string) : bool :=
  match w, t with
  | EmptyString, _ => true
  | String a w', String b t' => Ascii.eqb a b && startsWith t' w'
  | String _ _, EmptyString => false
  end.

(** [t.includes(w)]. *)
Fixpoint includes (t w : string) : bool :=
  startsWith t w ||
  match t with
  | EmptyString => false
  | String _ t' => includes t' w
  end.

(** Does the literal pattern [w] match at the head of [t] under the
    [i] flag? *)
Fixpoint matchesHereCI (t w : string) : bool :=
  match w, t with
  | EmptyString, _ => true
  | String a w', String b t' =>
      Ascii.eqb (upperChar a) (upperChar b) && matchesHereCI t' w'
  | String _ _, EmptyString => false
  end.

(** [t.match(new RegExp(escape(w), 'gi'))]: the number of matches of a
    literal, non-empty pattern.  The scan goes left to right; after a
    match it resumes behind the matched text, which [skip] counts
    down. *)
Fixpoint countMatchesFrom (w t : string) (skip : nat) : nat :=
  match t with
  | EmptyString => 0
  | String _ t' =>
      match skip with
      | S k => countMatchesFrom w t' k
      | O =>
          if matchesHereCI t w
          then S (countMatchesFrom w t' (String.length w - 1))
          else countMatchesFrom w t' 0
      end
  end.

Definition countMatches (t w : string) : nat := countMatchesFrom w t 0.

(** The character [c] occurs in [s]. *)
Fixpoint charIn (c : ascii) (s : string) : bool :=
  match s with
  | EmptyString => false
  | String d r => Ascii.eqb c d || charIn c r
  end.

(** No character of [w] occurs in [b]. *)
Fixpoint disjointChars (w b : string) : bool :=
  match w with
  | EmptyString => true
  | String c r => negb (charIn c b) && disjointChars r b
  end.

(** Every character of [s] is one of [allowed]. *)
Fixpoint onlyChars (allowed s : string) : bool :=
  match s with
  | EmptyString => true
  | String c r => charIn c allowed && onlyChars allowed r
  end.

(** The characters of a decimal rendering. *)
Definition decimalChars : string := "-0123456789".

(** Numbers that may be [NaN]. *)
Inductive num : Type :=
| Fin (q : Q)
| NaN.

(** The values a property read by the aggregation code can hold. *)
Inductive value : Type :=
| VUndefined
| VNull
| VNum (n : num).

(** [Math.round] on a finite number: the nearest integer, halves up. *)
Definition round (q : Q) : Z := Qfloor (q + (1 # 2)).

Definition roundNum (n : num) : num :=
  match n with Fin q => Fin (inject_Z (round q)) | NaN => NaN end.

(** [ToNumber]. *)
Definition toNumber (v : value) : num :=
  match v with
  | VUndefined => NaN
  | VNull => Fin 0
  | VNum n => n
  end.

Definition add (a b : num) : num :=
  match a, b with Fin x, Fin y => Fin (x + y) | _, _ => NaN end.

Definition mul (a b : num) : num :=
  match a, b with Fin x, Fin y => Fin (x * y) | _, _ => NaN end.

Definition Qmin (x y : Q) : Q := if Qle_bool x y then x else y.
Definition Qmax (x y : Q) : Q := if Qle_bool x y then y else x.

(** [Math.min] and [Math.max] return [NaN] as soon as an argument is. *)
Definition min (a b : num) : num :=
  match a, b with Fin x, Fin y => Fin (Qmin x y) | _, _ => NaN end.

Definition max (a b : num) : num :=
  match a, b with Fin x, Fin y => Fin (Qmax x y) | _, _ => NaN end.

(** [a < b]: false when either side is [NaN]. *)
Definition lt (a b : num) : bool :=
  match a, b with
  | Fin x, Fin y => negb (Qle_bool y x)
  | _, _ => false
  end.

(** [v !== null]. *)
Definition notNull (v : value) : bool :=
  match v with VNull => false | _ => true end.

(** [typeof v === 'number' && isFinite(v)], giving the number. *)
Definition finiteNumber (v : value) : option Q :=
  match v with VNum (Fin q) => Some q | _ => None end.

Definition isFinite (n : num) : bool :=
  match n with Fin _ => true | NaN => false end.

(** Decimal rendering of an integer inside a template string. *)
Definition showZ (z : Z) : string := NilEmpty.string_of_int (Z.to_int z).

End Js.

(** ** htmlParser.js: stop-word scoring *)

Module HtmlParser.

Import Js.
Local Open Scope string_scope.

(** One entry of [found]: [{ word, count }]. *)
Record Finding : Type := mkFinding { word : string; count : nat }.

(** The result of [checkStopWords]: [{ found, count, score }].  The
    field [count] of the source is [foundCount] here, the name [count]
    being taken by [Finding]. *)
Record StopWordsCheck : Type := mkStopWordsCheck {
  found : list Finding;
  foundCount : nat;
  score : Z
}.

(** [found.find(item => item.word === w)], as a test. *)
Definition hasWord (found : list Finding) (w : string) : bool :=
  existsb (fun item => String.eqb (word item) w) found.

(** A word not yet among the findings. *)
Definition fresh (found : list Finding) (w : string) : bool := negb (hasWord found w).

(** The body of [stopWords.forEach(word => ...)]. *)
Definition addStopWord (textLower : string) (found : list Finding) (w : string)
  : list Finding :=
  let wordLower := trim (toLowerCase w) in
  if truthy wordLower && includes textLower wordLower then
    let n := countMatches textLower wordLower in
    if hasWord found wordLower then found
    else found ++ [mkFinding wordLower n]
  else found.

(** [found.reduce((sum, item) => sum + item.count, 0)]. *)
Definition totalOccurrences (found : list Finding) : nat :=
  fold_left (fun sum item => (sum + count item)%nat) found 0%nat.

(** The score computed from [found] (lines 145-154). *)
Definition scoreOf (found : list Finding) : Z :=
  if (0 <? List.length found)%nat then
    let base := Z.min 10 (Z.of_nat (List.length found) * 2) in
    let total := Z.of_nat (totalOccurrences found) in
    if (total >? 10)%Z then 10%Z
    else if (total >? 5)%Z then Z.min 10 (base + 2)
    else base
  else 0%Z.

(** [checkStopWords(text, stopWords)].  The last line of the source
    rounds the score to one decimal, [Math.round(score * 10) / 10]; the
    score being an integer, the quotient by 10 is exact. *)
Definition checkStopWords (text : string) (stopWords : list string)
  : StopWordsCheck :=
  if negb (truthy text) || (List.length stopWords =? 0)%nat then
    mkStopWordsCheck [] 0 0
  else
    let textLower := toLowerCase text in
    let found := fold_left (addStopWord textLower) stopWords [] in
    let sc := scoreOf found in
    mkStopWordsCheck found (List.length found)
      (Js.round (inject_Z (sc * 10)) / 10)%Z.

(** [{ title, description, keywords }] of [extractMetaTags]. *)
Record MetaTags : Type := mkMetaTags {
  title : string;
  description : string;
  keywords : string
}.

(** The result of [analyzeHtmlForSpam]. *)
Record SpamAnalysis : Type := mkSpamAnalysis {
  textLength : nat;
  metaTags : MetaTags;
  stopWordsCheck : StopWordsCheck;   (* field [stopWords] of the source *)
  isSpam : bool;
  spamScore : Z
}.

Section Extraction.

(** The two extractors run the HTML library; they are inputs here.
    Both take the HTML and the domain to ignore ([None] for [null]). *)
Variable extractTextContent : string -> option string -> string.
Variable extractMetaTags : string -> option string -> MetaTags.

(** [!domainToIgnore || !s.toLowerCase().includes(domainToIgnore.toLowerCase())]. *)
Definition withoutDomain (domainToIgnore : option string) (s : string) : bool :=
  match domainToIgnore with
  | None => true
  | Some d =>
      negb (truthy d) || negb (includes (toLowerCase s) (toLowerCase d))
  end.

(** One of the three [if (metaTags.x && ...) allText += ' ' + ...]. *)
Definition addMeta (domainToIgnore : option string) (allText s : string) : string :=
  if truthy s && withoutDomain domainToIgnore s
  then allText ++ " " ++ toLowerCase s
  else allText.

Definition analyzeHtmlForSpam (html : string) (stopWords : list string)
  (domainToIgnore : option string) : SpamAnalysis :=
  let textContent := extractTextContent html domainToIgnore in
  let meta := extractMetaTags html domainToIgnore in
  let allText := textContent in
  let allText := addMeta domainToIgnore allText (title meta) in
  let allText := addMeta domainToIgnore allText (description meta) in
  let allText := addMeta domainToIgnore allText (keywords meta) in
  let chk := checkStopWords allText stopWords in
  mkSpamAnalysis (String.length textContent) meta chk
    (0 <? foundCount chk)%nat (score chk).

End Extraction.

(** *** The scoring rule as the specification words it *)

(** A stop word as it is searched: lower-cased, then trimmed. *)
Definition normalize (w : string) : string := trim (toLowerCase w).

(** The (normalised) word occurs in the text, case-insensitively. *)
Definition occursIn (text w : string) : bool :=
  truthy w && includes (toLowerCase text) w.

(** Distinct elements, first occurrences kept. *)
Fixpoint dedup (l : list string) : list string :=
  match l with
  | [] => []
  | x :: r => x :: filter (fun y => negb (String.eqb y x)) (dedup r)
  end.

(** The unique stop words that match the text. *)
Definition matchedWords (text : string) (stopWords : list string) : list string :=
  dedup (filter (occursIn text) (map normalize stopWords)).

Definition uniqueMatches (text : string) (stopWords : list string) : nat :=
  List.length (matchedWords text stopWords).

(** Occurrences of one word in the text. *)
Definition occurrences (text w : string) : nat :=
  countMatches (toLowerCase text) w.

Definition totalMatches (text : string) (stopWords : list string) : nat :=
  list_sum (map (occurrences text) (matchedWords text stopWords)).

(** "0 when no stop word occurs; otherwise min(10, uniqueMatches*2),
    then raised by 2 (capped at 10) if the total occurrence count
    exceeds 5, and forced to 10 if the total exceeds 10". *)
Definition specScore (unique total : Z) : Z :=
  if (unique =? 0)%Z then 0%Z
  else
    let s := Z.min 10 (unique * 2) in
    let s := if (5 <? total)%Z then Z.min 10 (s + 2) else s in
    if (10 <? total)%Z then 10%Z else s.

End HtmlParser.

(** ** [checkStopWords] on UTF-16 strings *)

(** The byte strings above carry ASCII text.  What [checkStopWords] does
    with other text depends on the case operations of the language:
    [toLowerCase] is the lower-casing of the Unicode standard, in which
    the capital sigma is converted by its context, and the [i] flag of a
    regular expression compares code units after [Canonicalize].  This
    module embeds the function over strings of UTF-16 code units, with
    these two operations as inputs. *)

Module Unicode.

Local Open Scope N_scope.

(** A string: its UTF-16 code units. *)
Definition ustring : Type := list N.

(** [a === b] on strings. *)
Fixpoint eqb (a b : ustring) : bool :=
  match a, b with
  | [], [] => true
  | x :: a', y :: b' => (x =? y) && eqb a' b'
  | _, _ => false
  end.

Definition truthy (s : ustring) : bool :=
  match s with [] => false | _ => true end.

(** The code points [trim] strips: WhiteSpace and LineTerminator. *)
Definition isSpace (c : N) : bool :=
  ((9 <=? c) && (c <=? 13)) || (c =? 32) || (c =? 160) || (c =? 5760)
  || ((8192 <=? c) && (c <=? 8202)) || (c =? 8232) || (c =? 8233)
  || (c =? 8239) || (c =? 8287) || (c =? 12288) || (c =? 65279).

Fixpoint trimStart (s : ustring) : ustring :=
  match s with
  | [] => []
  | c :: r => if isSpace c then trimStart r else s
  end.

Fixpoint trimEnd (s : ustring) : ustring :=
  match s with
  | [] => []
  | c :: r =>
      match trimEnd r with
      | [] => if isSpace c then [] else [c]
      | r' => c :: r'
      end
  end.

Definition trim (s : ustring) : ustring := trimEnd (trimStart s).

(** [t.startsWith(w)] and [t.includes(w)], on code units. *)
Fixpoint startsWith (t w : ustring) : bool :=
  match w, t with
  | [], _ => true
  | a :: w', b :: t' => (a =? b) && startsWith t' w'
  | _ :: _, [] => false
  end.

Fixpoint includes (t w : ustring) : bool :=
  startsWith t w ||
  match t with
  | [] => false
  | _ :: t' => includes t' w
  end.

(** [{ word, count }]. *)
Record Finding : Type := mkFinding {
  word : ustring;
  count : nat
}.

(** [{ found, count, score }]; [count] is [foundCount] here. *)
Record StopWordsCheck : Type := mkStopWordsCheck {
  found : list Finding;
  foundCount : nat;
  score : Z
}.

Definition hasWord (found : list Finding) (w : ustring) : bool :=
  existsb (fun item => eqb (word item) w) found.

Definition totalOccurrences (found : list Finding) : nat :=
  fold_left (fun sum item => (sum + count item)%nat) found 0%nat.

(** The score computed from [found] (lines 145-154). *)
Definition scoreOf (found : list Finding) : Z :=
  if (0 <? List.length found)%nat then
    let base := Z.min 10 (Z.of_nat (List.length found) * 2) in
    let total := Z.of_nat (totalOccurrences found) in
    if (total >? 10)%Z then 10%Z
    else if (total >? 5)%Z then Z.min 10 (base + 2)
    else base
  else 0%Z.

Section Runtime.

(** [String.prototype.toLowerCase]. *)
Variable toLowerCase : ustring -> ustring.

(** [Canonicalize(ch)] of a regular expression with the [i] flag and
    without the [u] flag: the code unit that stands for [ch] in a
    comparison. *)
Variable canonicalize : N -> N.

(** The escaped word is a pattern that matches the word itself, code
    unit by code unit, up to [canonicalize]. *)
Fixpoint matchesHere (t w : ustring) : bool :=
  match w, t with
  | [], _ => true
  | a :: w', b :: t' => (canonicalize a =? canonicalize b) && matchesHere t' w'
  | _ :: _, [] => false
  end.

(** [t.match(regex)] with the [g] flag: the matches, counted from left
    to right; after a match the scan resumes behind it ([skip]). *)
Fixpoint countMatchesFrom (w t : ustring) (skip : nat) : nat :=
  match t with
  | [] => 0%nat
  | _ :: t' =>
      match skip with
      | S k => countMatchesFrom w t' k
      | O =>
          if matchesHere t w
          then S (countMatchesFrom w t' (List.length w - 1))
          else countMatchesFrom w t' 0
      end
  end.

Definition countMatches (t w : ustring) : nat := countMatchesFrom w t 0.

(** The body of [stopWords.forEach(word => ...)] (lines 127-141). *)
Definition addStopWord (textLower : ustring) (found : list Finding) (w : ustring)
  : list Finding :=
  let wordLower := trim (toLowerCase w) in
  if truthy wordLower && includes textLower wordLower then
    let n := countMatches textLower wordLower in
    if hasWord found wordLower then found
    else found ++ [mkFinding wordLower n]
  else found.

(** [checkStopWords(text, stopWords)] (lines 118-160). *)
Definition checkStopWords (text : ustring) (stopWords : list ustring)
  : StopWordsCheck :=
  if negb (truthy text) || (List.length stopWords =? 0)%nat then
    mkStopWordsCheck [] 0 0
  else
    let textLower := toLowerCase text in
    let found := fold_left (addStopWord textLower) stopWords [] in
    let sc := scoreOf found in
    mkStopWordsCheck found (List.length found)
      (Js.round (inject_Z (sc * 10)) / 10)%Z.

End Runtime.

(** *** The case operations on Basic Latin and the Greek sigma *)

(** The rows of the Unicode character database for the code points
    U+0000 to U+007F and for the three forms of sigma, U+03A3 (capital),
    U+03C2 (final) and U+03C3 (small).  The functions below are the
    operations of the language on strings of these code points; they
    leave every other code point alone. *)

Definition capitalSigma : N := 931.
Definition finalSigma : N := 962.
Definition smallSigma : N := 963.

Definition isUpperLatin (c : N) : bool := (65 <=? c) && (c <=? 90).
Definition isLowerLatin (c : N) : bool := (97 <=? c) && (c <=? 122).

(** The property Cased. *)
Definition cased (c : N) : bool :=
  isUpperLatin c || isLowerLatin c
  || (c =? capitalSigma) || (c =? finalSigma) || (c =? smallSigma).

(** The property Case_Ignorable: apostrophe, full stop, colon,
    circumflex and grave accent. *)
Definition caseIgnorable (c : N) : bool :=
  (c =? 39) || (c =? 46) || (c =? 58) || (c =? 94) || (c =? 96).

(** After any case-ignorable characters comes a cased letter. *)
Fixpoint casedNext (s : ustring) : bool :=
  match s with
  | [] => false
  | c :: r => if caseIgnorable c then casedNext r else cased c
  end.

(** The condition Final_Sigma: a cased letter before (possibly behind
    case-ignorable characters) and none after.  [before] is the text
    before the sigma, nearest character first. *)
Definition isFinalSigma (before after : ustring) : bool :=
  casedNext before && negb (casedNext after).

Fixpoint lowerFrom (before s : ustring) : ustring :=
  match s with
  | [] => []
  | c :: r =>
      (if c =? capitalSigma
       then if isFinalSigma before r then finalSigma else smallSigma
       else if isUpperLatin c then c + 32 else c)
      :: lowerFrom (c :: before) r
  end.

(** [s.toLowerCase()]. *)
Definition lowerCase (s : ustring) : ustring := lowerFrom [] s.

(** [Canonicalize]: the upper-case form, when it is one code unit. *)
Definition foldCase (c : N) : N :=
  if isLowerLatin c then c - 32
  else if (c =? finalSigma) || (c =? smallSigma) then capitalSigma
  else c.

(** The code units of an ASCII string. *)
Definition ofString (s : string) : ustring :=
  map N_of_ascii (list_ascii_of_string s).

Definition isAscii (s : ustring) : bool := forallb (fun c => c <? 128) s.

(** A text that ends in a capital sigma: ten times "a" and small sigma,
    then "A" and capital sigma; and three stop words: "a" and final
    sigma, small sigma and "b", and "b". *)
Definition sigmaText : ustring :=
  List.concat (repeat (ofString "a" ++ [smallSigma] ++ ofString " ") 10)
  ++ ofString "A" ++ [capitalSigma].

Definition sigmaWords : list ustring :=
  [ ofString "a" ++ [finalSigma]; [smallSigma] ++ ofString "b"; ofString "b" ].

End Unicode.

(** ** metricsAnalyzer.js: domain metrics *)

Module Metrics.

Import Js.
Local Open Scope string_scope.

(** [x / y].  Every divisor below is a positive count or is replaced by
    1 when it is zero, so the quotient by zero (an infinity in
    JavaScript) is never taken; it is [NaN] here. *)
Definition div (a b : num) : num :=
  match a, b with
  | Fin x, Fin y => if Qeq_bool y 0 then NaN else Fin (x / y)
  | _, _ => NaN
  end.

(** [v || null]: a falsy value ([undefined], [null], [0], [NaN])
    becomes [null]. *)
Definition orNull (v : value) : value :=
  match v with
  | VNum (Fin q) => if Qeq_bool q 0 then VNull else v
  | _ => VNull
  end.

(** One entry of the rank service's [response] array. *)
Record OprEntry : Type := mkOprEntry { rank : value; rank_absolute : value }.

(** What the rank service call gave: [OprFailed] when the request threw
    or the reply was not [ok], otherwise the decoded reply. *)
Inductive OprReply : Type :=
| OprFailed
| OprData (status_code : Z) (response : list OprEntry).

Record OprMetrics : Type := mkOprMetrics {
  oprDomainRating : value;
  oprRankAbsolute : value
}.

(** [getOpenPageRankMetrics]: [null] ([None]) on failure or when the
    reply holds no entry. *)
Definition getOpenPageRankMetrics (reply : OprReply) : option OprMetrics :=
  match reply with
  | OprFailed => None
  | OprData status_code response =>
      match response with
      | result :: _ =>
          if (status_code =? 200)%Z
          then Some (mkOprMetrics (orNull (rank result)) (orNull (rank_absolute result)))
          else None
      | [] => None
      end
  end.

(** [s.split(sep)]. *)
Fixpoint split (sep : ascii) (s : string) : list string :=
  match s with
  | EmptyString => [EmptyString]
  | String c r =>
      if Ascii.eqb c sep then EmptyString :: split sep r
      else match split sep r with
           | h :: t => String c h :: t
           | [] => [String c EmptyString]
           end
  end.

(** [domain.split('.').pop()?.toLowerCase()]. *)
Definition domainExtension (domain : string) : string :=
  toLowerCase (last (split "." domain) EmptyString).

Definition inList (s : string) (l : list string) : bool :=
  existsb (String.eqb s) l.

Record DaMetrics : Type := mkDaMetrics { daDomainAuthority : Q }.

(** [getDomainAuthorityMetrics].  [httpsOk] is the outcome of the HEAD
    request and [rnd] the value of [Math.floor(Math.random() * 20)]. *)
Definition getDomainAuthorityMetrics (domain : string) (httpsOk : bool) (rnd : Z)
  : option DaMetrics :=
  let isTLD := inList (domainExtension domain) ["com"; "org"; "net"; "edu"; "gov"] in
  let baseScore := if isTLD then 40%Z else 30%Z in
  let baseScore := if httpsOk then (baseScore + 10)%Z else baseScore in
  Some (mkDaMetrics (inject_Z (Z.min 100 (baseScore + rnd)))).

(** The part of the backlink summary the metrics read. *)
Record BacklinkData : Type := mkBacklinkData { averageQualityScore : value }.

(** Truthiness of a number. *)
Definition truthyValue (v : value) : option Q :=
  match v with
  | VNum (Fin q) => if Qeq_bool q 0 then None else Some q
  | _ => None
  end.

Record TfMetrics : Type := mkTfMetrics { tfTrustFlow : Q; tfCitationFlow : Q }.

(** [getTrustFlowMetrics]. *)
Definition getTrustFlowMetrics (domain : string) (backlinkData : option BacklinkData)
  : option TfMetrics :=
  let '(trustFlow, citationFlow) :=
    match backlinkData with
    | Some b =>
        match truthyValue (averageQualityScore b) with
        | Some q => (Z.min 50 (Qfloor (q / 2)), Z.min 50 (Qfloor (q / 2) + 5))
        | None => (15, 15)%Z
        end
    | None => (15, 15)%Z
    end in
  let ext := domainExtension domain in
  let '(trustFlow, citationFlow) :=
    if inList ext ["org"; "edu"; "gov"] then (trustFlow + 10, citationFlow + 5)%Z
    else if inList ext ["com"; "net"] then (trustFlow + 5, citationFlow + 3)%Z
    else (trustFlow, citationFlow) in
  Some (mkTfMetrics (inject_Z (Z.min 100 trustFlow)) (inject_Z (Z.min 100 citationFlow))).

(** The [metrics] object.  A property that was never assigned reads
    [undefined].  The bookkeeping fields ([domain], [timestamp] and the
    three [...Source] labels) are left out. *)
Record DomainMetrics : Type := mkDomainMetrics {
  domainRating : value;
  rankAbsolute : value;
  domainAuthority : value;
  trustFlow : value;
  citationFlow : value;
  spamScore : Z;
  overallQualityScore : value
}.

(** [v !== null && v < bound]. *)
Definition below (v : value) (bound : Q) : bool :=
  notNull v && lt (toNumber v) (Fin bound).

(** [v || 1] on a number. *)
Definition orOne (n : num) : num :=
  match n with
  | Fin q => if Qeq_bool q 0 then Fin 1 else n
  | NaN => Fin 1
  end.

(** [calculateSpamScore], on the fields of [metrics] it reads. *)
Definition calculateSpamScore (domainRating domainAuthority trustFlow citationFlow : value) : Z :=
  let s := 0%Z in
  let s := if below domainRating 20 then (s + 30)%Z
           else if below domainRating 40 then (s + 15)%Z else s in
  let s := if below domainAuthority 20 then (s + 25)%Z
           else if below domainAuthority 40 then (s + 12)%Z else s in
  let s := if below trustFlow 10 then (s + 20)%Z
           else if below trustFlow 20 then (s + 10)%Z else s in
  let s := if notNull citationFlow && notNull trustFlow then
             let ratio := div (toNumber citationFlow) (orOne (toNumber trustFlow)) in
             if lt (Fin 3) ratio then (s + 15)%Z else s
           else s in
  Z.min 100 s.

(** One of the three [if (metrics.x !== null) { qualityScore += ...;
    factors++; }] steps; [term] is the summand. *)
Definition addFactor (v : value) (term : num) (acc : num * nat) : num * nat :=
  if notNull v then (add (fst acc) term, S (snd acc)) else acc.

(** [getDomainMetrics], given the results of the three lookups it
    awaits ([None] for [null]). *)
Definition getDomainMetrics (oprMetrics : option OprMetrics)
  (daMetrics : option DaMetrics) (tfMetrics : option TfMetrics) : DomainMetrics :=
  let domainRating :=
    match oprMetrics with Some o => oprDomainRating o | None => VUndefined end in
  let rankAbsolute :=
    match oprMetrics with Some o => oprRankAbsolute o | None => VUndefined end in
  let domainAuthority :=
    match daMetrics with Some d => VNum (Fin (daDomainAuthority d)) | None => VUndefined end in
  let trustFlow :=
    match tfMetrics with Some t => VNum (Fin (tfTrustFlow t)) | None => VUndefined end in
  let citationFlow :=
    match tfMetrics with Some t => VNum (Fin (tfCitationFlow t)) | None => VUndefined end in
  let spamScore := calculateSpamScore domainRating domainAuthority trustFlow citationFlow in
  let acc := (Fin 0, 0%nat) in
  let acc := addFactor domainRating
               (min (Fin 100) (mul (toNumber domainRating) (Fin 2))) acc in
  let acc := addFactor domainAuthority (toNumber domainAuthority) acc in
  let acc := addFactor trustFlow (toNumber trustFlow) acc in
  let '(qualityScore, factors) := acc in
  let overall :=
    if (0 <? factors)%nat
    then VNum (roundNum (div qualityScore (Fin (inject_Z (Z.of_nat factors)))))
    else VNull in
  mkDomainMetrics domainRating rankAbsolute domainAuthority trustFlow citationFlow
    spamScore overall.

(** *** The quality score as the specification words it *)

(** A sub-metric was obtained when its lookup produced a number. *)
Definition obtained (v : value) : option Q := finiteNumber v.

(** The sub-metrics that were obtained: the domain rating scaled to
    0-100, the domain authority, the trust flow. *)
Definition obtainedSubMetrics (oprMetrics : option OprMetrics)
  (daMetrics : option DaMetrics) (tfMetrics : option TfMetrics) : list Q :=
  match oprMetrics with
  | Some o => match obtained (oprDomainRating o) with
              | Some r => [Qmin 100 (r * 2)]
              | None => []
              end
  | None => []
  end
  ++ match daMetrics with Some d => [daDomainAuthority d] | None => [] end
  ++ match tfMetrics with Some t => [tfTrustFlow t] | None => [] end.

Definition Qsum (l : list Q) : Q := fold_right Qplus 0 l.

(** The mean of the obtained sub-metrics, rounded; [None] ([null]) when
    there is none. *)
Definition specQualityScore (subMetrics : list Q) : option Z :=
  match subMetrics with
  | [] => None
  | _ => Some (Js.round (Qsum subMetrics / inject_Z (Z.of_nat (List.length subMetrics))))
  end.

End Metrics.

(** ** topicAnalyzer.js: topic stability *)

Module Topic.

Import Js.
Local Open Scope string_scope.

Record Heading : Type := mkHeading { level : string; text : string }.

(** The result of [extractTopics]. *)
Record Topics : Type := mkTopics {
  title : string;
  headings : list Heading;
  metaDescription : string;
  metaKeywords : string;
  ogTitle : string;
  ogDescription : string;
  contentWords : list string
}.

(** What [extractTopics] returns when the HTML library fails. *)
Definition emptyTopics : Topics := mkTopics "" [] "" "" "" "" [].

(** *** Sets of strings, as lists without repetition *)

Definition member (x : string) (l : list string) : bool := existsb (String.eqb x) l.

(** [new Set(l)], in insertion order. *)
Fixpoint toSet (l : list string) : list string :=
  match l with
  | [] => []
  | x :: r => x :: filter (fun y => negb (String.eqb y x)) (toSet r)
  end.

(** The Jaccard index of two sets, as a percentage:
    [union.size > 0 ? (intersection.size / union.size) * 100 : 0]. *)
Definition jaccard (set1 set2 : list string) : Q :=
  let intersection := filter (fun x => member x set2) set1 in
  let union := toSet (set1 ++ set2) in
  match List.length union with
  | O => 0
  | S n => (Z.of_nat (List.length intersection) # Pos.of_succ_nat n) * 100
  end.

(** [calculateArraySimilarity]. *)
Definition calculateArraySimilarity (arr1 arr2 : list string) : Q :=
  jaccard (toSet arr1) (toSet arr2).

(** [s.split(/\s+/)] followed by a filter on the length: splitting at
    every white-space character yields the same words, the extra empty
    strings being dropped by the filter. *)
Fixpoint splitSpaces (s : string) : list string :=
  match s with
  | EmptyString => [EmptyString]
  | String c r =>
      if isSpace c then EmptyString :: splitSpaces r
      else match splitSpaces r with
           | h :: t => String c h :: t
           | [] => [String c EmptyString]
           end
  end.

(** [text.toLowerCase().split(/\s+/).filter(w => w.length > 2)]. *)
Definition textWords (s : string) : list string :=
  filter (fun w => (2 <? String.length w)%nat) (splitSpaces (toLowerCase s)).

(** [calculateTextSimilarity]. *)
Definition calculateTextSimilarity (text1 text2 : string) : Q :=
  jaccard (toSet (textWords text1)) (toSet (textWords text2)).

(** *** [extractKeywords] *)

(** [wordFreq[word] = (wordFreq[word] || 0) + 1], on the own keys of the
    object kept in insertion order.  (A plain object also answers for
    the inherited key [constructor]; word lists without that word are
    covered.) *)
Fixpoint bump (word : string) (wordFreq : list (string * nat)) : list (string * nat) :=
  match wordFreq with
  | [] => [(word, 1%nat)]
  | (w, n) :: r => if String.eqb w word then (w, S n) :: r else (w, n) :: bump word r
  end.

Definition isDigit (c : ascii) : bool :=
  let n := nat_of_ascii c in (48 <=? n)%nat && (n <=? 57)%nat.

Fixpoint allDigits (s : string) : bool :=
  match s with
  | EmptyString => true
  | String c r => isDigit c && allDigits r
  end.

Fixpoint digitsValue (s : string) (acc : N) : N :=
  match s with
  | EmptyString => acc
  | String c r => digitsValue r (acc * 10 + (N_of_ascii c - 48))%N
  end.

(** The keys an object enumerates first, in numeric order: canonical
    decimal integers below 2^32 - 1. *)
Definition arrayIndex (s : string) : option N :=
  match s with
  | EmptyString => None
  | String c r =>
      if allDigits s && (negb (Ascii.eqb c "0") || negb (truthy r))
         && (String.length s <=? 10)%nat
      then let v := digitsValue s 0 in
           if (v <? 4294967295)%N then Some v else None
      else None
  end.

Fixpoint insertIndex (e : N * (string * nat)) (l : list (N * (string * nat)))
  : list (N * (string * nat)) :=
  match l with
  | [] => [e]
  | y :: r => if (fst e <? fst y)%N then e :: l else y :: insertIndex e r
  end.

(** [Object.entries(wordFreq)]: integer-like keys in ascending order,
    then the other keys in insertion order. *)
Definition entries (wordFreq : list (string * nat)) : list (string * nat) :=
  let indexed :=
    flat_map (fun e => match arrayIndex (fst e) with
                       | Some i => [(i, e)]
                       | None => []
                       end) wordFreq in
  let others :=
    filter (fun e => match arrayIndex (fst e) with Some _ => false | None => true end)
      wordFreq in
  map snd (fold_right insertIndex [] indexed) ++ others.

(** Insertion for the stable [sort((a, b) => b.frequency - a.frequency)]. *)
Fixpoint insertByFrequency (e : string * nat) (l : list (string * nat))
  : list (string * nat) :=
  match l with
  | [] => [e]
  | y :: r => if (snd e <? snd y)%nat then y :: insertByFrequency e r else e :: l
  end.

Definition sortByFrequency (l : list (string * nat)) : list (string * nat) :=
  fold_right insertByFrequency [] l.

(** [extractKeywords(words, topN)], as a list of [(word, frequency)]. *)
Definition extractKeywords (words : list string) (topN : nat) : list (string * nat) :=
  let wordFreq :=
    fold_left (fun wf word =>
                 if truthy word && (3 <? String.length word)%nat then bump word wf else wf)
      words [] in
  firstn topN (sortByFrequency (entries wordFreq)).

(** *** [calculateTopicSimilarity] *)

(** One comparison: when its guard holds, its similarity is added and
    the number of factors goes up by one. *)
Definition addComparison (guard : bool) (sim : Q) (acc : Q * nat) : Q * nat :=
  if guard then (fst acc + sim, S (snd acc)) else acc.

Definition calculateTopicSimilarity (topics1 topics2 : Topics) : Z :=
  let acc := (0 : Q, 0%nat) in
  let acc := addComparison (truthy (title topics1) && truthy (title topics2))
               (calculateTextSimilarity (title topics1) (title topics2)) acc in
  let acc := addComparison
               ((0 <? List.length (headings topics1))%nat
                && (0 <? List.length (headings topics2))%nat)
               (calculateArraySimilarity
                  (map (fun h => toLowerCase (text h)) (headings topics1))
                  (map (fun h => toLowerCase (text h)) (headings topics2))) acc in
  let acc := addComparison
               (truthy (metaDescription topics1) && truthy (metaDescription topics2))
               (calculateTextSimilarity (metaDescription topics1) (metaDescription topics2))
               acc in
  let acc := addComparison
               ((0 <? List.length (contentWords topics1))%nat
                && (0 <? List.length (contentWords topics2))%nat)
               (calculateArraySimilarity
                  (map fst (extractKeywords (contentWords topics1) 20))
                  (map fst (extractKeywords (contentWords topics2) 20))) acc in
  let '(similarity, factors) := acc in
  if (0 <? factors)%nat
  then Js.round (similarity / inject_Z (Z.of_nat factors))
  else 0%Z.

(** *** [detectRedFlags] *)

Inductive Severity : Type := high | medium | low.

Inductive FlagType : Type :=
| missing_title
| suspicious_keyword
| major_topic_shift
| unstable_topics
| missing_meta.

(** A red flag: [{ type, severity, message }] and, by type, one of
    [keyword], [similarity], [shifts]. *)
Record RedFlag : Type := mkRedFlag {
  type : FlagType;
  severity : Severity;
  message : string;
  keyword : option string;
  similarity : option Z;
  shifts : option nat
}.

Definition suspiciousKeywords : list string :=
  ["casino"; "poker"; "viagra"; "loan"; "payday"; "free money"; "get rich"].

(** [l.join(' ')]. *)
Fixpoint join (l : list string) : string :=
  match l with
  | [] => ""
  | [x] => x
  | x :: r => x ++ " " ++ join r
  end.

(** The similarities of the consecutive pairs of [history], the loop
    [for (i = 1; i < history.length; i++)] reading [history[i - 1]] and
    [history[i]]. *)
Definition pairSimilarity (history : list Topics) (i : nat) : Z :=
  calculateTopicSimilarity (nth (i - 1) history emptyTopics) (nth i history emptyTopics).

Definition countShifts (history : list Topics) : nat :=
  fold_left (fun shifts i =>
               if (pairSimilarity history i <? 40)%Z then S shifts else shifts)
    (seq 1 (List.length history - 1)) 0%nat.

(** [flags.push(f)]. *)
Definition push (flags : list RedFlag) (f : RedFlag) : list RedFlag := app flags [f].

Definition detectRedFlags (topics : Topics) (history : list Topics) : list RedFlag :=
  let flags : list RedFlag := [] in
  (* Flag 1 *)
  let flags :=
    if negb (truthy (title topics)) || (String.length (title topics) <? 10)%nat
    then push flags (mkRedFlag missing_title medium
                     "Missing or very short title tag" None None None)
    else flags in
  (* Flag 2 *)
  let allText :=
    toLowerCase (title topics ++ " " ++ metaDescription topics ++ " "
                 ++ join (map text (headings topics))) in
  let flags :=
    fold_left (fun fl kw =>
                 if includes allText kw
                 then push fl (mkRedFlag suspicious_keyword high
                               ("Suspicious keyword found: " ++ kw) (Some kw) None None)
                 else fl)
      suspiciousKeywords flags in
  (* Flag 3 *)
  let flags :=
    if (0 <? List.length history)%nat then
      let recentSimilarity :=
        calculateTopicSimilarity topics
          (nth (List.length history - 1) history emptyTopics) in
      if (recentSimilarity <? 30)%Z
      then push flags (mkRedFlag major_topic_shift high
                       ("Major topic shift detected (similarity: "
                        ++ showZ recentSimilarity ++ "%)")
                       None (Some recentSimilarity) None)
      else flags
    else flags in
  (* Flag 4 *)
  let flags :=
    if (2 <? List.length history)%nat then
      let n := countShifts history in
      if (List.length history <? 2 * n)%nat
      then push flags (mkRedFlag unstable_topics high
                       ("Unstable topic history: " ++ showZ (Z.of_nat n)
                        ++ " major shifts detected")
                       None None (Some n))
      else flags
    else flags in
  (* Flag 5 *)
  let flags :=
    if negb (truthy (metaDescription topics))
       || (String.length (metaDescription topics) <? 50)%nat
    then push flags (mkRedFlag missing_meta low
                     "Missing or very short meta description" None None None)
    else flags in
  flags.

(** *** [analyzeTopicStability] *)

(** A capture with the HTML fetched for it: [{ ...snapshot, html }]. *)
Record SnapshotWithHtml : Type := mkSnapshotWithHtml {
  timestamp : string;
  originalUrl : string;
  html : string
}.

Record TopicAnalysisEntry : Type := mkEntry { entryTimestamp : string; topics : Topics }.

Record HistoryItem : Type := mkHistoryItem {
  itemTimestamp : string;
  itemTitle : string;
  itemKeywords : list string
}.

Record LatestTopics : Type := mkLatestTopics {
  latestTitle : string;
  latestHeadings : list string;
  latestMetaDescription : string
}.

(** The result of [analyzeTopicStability]; [stabilityScore] is [None]
    for [null], [mainTopics] and [latestTopics] are absent without
    captures. *)
Record TopicAnalysis : Type := mkTopicAnalysis {
  snapshotsAnalyzed : nat;
  stabilityScore : option Z;
  redFlags : list RedFlag;
  mainTopics : option (list string);
  topicHistory : list HistoryItem;
  latestTopics : option LatestTopics
}.

Section Analysis.

(** [extractTopics] runs the HTML library; it is an input here. *)
Variable extractTopics : string -> Topics.

(** The first loop: the captures that have HTML, with their topics. *)
Definition collectTopics (snapshots : list SnapshotWithHtml) : list TopicAnalysisEntry :=
  flat_map (fun snapshot =>
              if truthy (html snapshot)
              then [mkEntry (timestamp snapshot) (extractTopics (html snapshot))]
              else [])
    snapshots.

(** The second loop, [for (i = 1; i < topicAnalyses.length; i++)],
    returning [(totalSimilarity, comparisons)]. *)
Definition sumSimilarities (topicAnalyses : list TopicAnalysisEntry) : Z * nat :=
  fold_left (fun acc i =>
               let sim := pairSimilarity (map topics topicAnalyses) i in
               ((fst acc + sim)%Z, S (snd acc)))
    (seq 1 (List.length topicAnalyses - 1)) (0%Z, 0%nat).

Definition analyzeTopicStability (snapshots : list SnapshotWithHtml) : TopicAnalysis :=
  let topicAnalyses := collectTopics snapshots in
  if (List.length topicAnalyses =? 0)%nat then
    mkTopicAnalysis 0 None [] None [] None
  else
    let '(totalSimilarity, comparisons) := sumSimilarities topicAnalyses in
    let stabilityScore :=
      if (0 <? comparisons)%nat
      then Js.round (inject_Z totalSimilarity / inject_Z (Z.of_nat comparisons))
      else 100%Z in
    let history := map topics topicAnalyses in
    let latestTopics := nth (List.length topicAnalyses - 1) history emptyTopics in
    let redFlags := detectRedFlags latestTopics (removelast history) in
    let mainTopics := extractKeywords (contentWords latestTopics) 10 in
    mkTopicAnalysis (List.length topicAnalyses) (Some stabilityScore) redFlags
      (Some (map fst mainTopics))
      (map (fun ta => mkHistoryItem (entryTimestamp ta) (title (topics ta))
                        (map fst (extractKeywords (contentWords (topics ta)) 5)))
         topicAnalyses)
      (Some (mkLatestTopics (title latestTopics)
               (map text (headings latestTopics))
               (metaDescription latestTopics))).

End Analysis.

(** *** The stability score as the specification words it *)

(** The pairs of adjacent elements of a list, in order. *)
Fixpoint adjacentPairs (A : Type) (l : list A) : list (A * A) :=
  match l with
  | x :: (y :: _) as r => (x, y) :: adjacentPairs r
  | _ => []
  end.

(** The rounded mean of a non-empty list of integers. *)
Definition roundedMean (l : list Z) : Z :=
  Js.round (inject_Z (fold_right Z.add 0%Z l) / inject_Z (Z.of_nat (List.length l))).

(** "the mean similarity across all adjacent pairs (100 if only one
    capture exists, null if zero)". *)
Definition specStabilityScore (captures : list Topics) : option Z :=
  match captures with
  | [] => None
  | [_] => Some 100%Z
  | _ => Some (roundedMean
                 (map (fun p => calculateTopicSimilarity (fst p) (snd p))
                    (adjacentPairs captures)))
  end.

(** *** Chronological order *)

(** A capture timestamp is a string of 14 digits, [YYYYMMDDhhmmss]; on
    such strings the order of the instants is the order of the strings. *)
Definition notLater (a b : SnapshotWithHtml) : bool :=
  String.leb (timestamp a) (timestamp b).

(** The captures are listed from the earliest to the latest. *)
Fixpoint inChronologicalOrder (l : list SnapshotWithHtml) : bool :=
  match l with
  | a :: (b :: _) as r => notLater a b && inChronologicalOrder r
  | _ => true
  end.

(** Sorting by timestamp (insertion sort; captures of one instant keep
    their order). *)
Fixpoint insertByTime (s : SnapshotWithHtml) (l : list SnapshotWithHtml)
  : list SnapshotWithHtml :=
  match l with
  | [] => [s]
  | x :: r => if notLater s x then s :: l else x :: insertByTime s r
  end.

Definition chronological (l : list SnapshotWithHtml) : list SnapshotWithHtml :=
  fold_right insertByTime [] l.

(** "the (rounded) mean of the pairwise similarity scores of all
    chronologically adjacent capture pairs": the captures that have HTML
    are put in chronological order and neighbours are compared. *)
Definition specChronologicalScore (extractTopics : string -> Topics)
  (snapshots : list SnapshotWithHtml) : option Z :=
  specStabilityScore
    (map (fun s => extractTopics (html s))
       (chronological (filter (fun s => truthy (html s)) snapshots))).

(** The similarity of a pair of captures. *)
Definition pairSim (p : Topics * Topics) : Z := calculateTopicSimilarity (fst p) (snd p).

(** A comparison factor is computable when both sides have the data. *)
Definition titleComparable (t1 t2 : Topics) : bool :=
  truthy (title t1) && truthy (title t2).
Definition headingsComparable (t1 t2 : Topics) : bool :=
  negb (List.length (headings t1) =? 0)%nat && negb (List.length (headings t2) =? 0)%nat.
Definition descriptionComparable (t1 t2 : Topics) : bool :=
  truthy (metaDescription t1) && truthy (metaDescription t2).
Definition contentComparable (t1 t2 : Topics) : bool :=
  negb (List.length (contentWords t1) =? 0)%nat
  && negb (List.length (contentWords t2) =? 0)%nat.

Definition noFactorComputable (t1 t2 : Topics) : bool :=
  negb (titleComparable t1 t2) && negb (headingsComparable t1 t2)
  && negb (descriptionComparable t1 t2) && negb (contentComparable t1 t2).

End Topic.

(** ** waybackClient.js: the capture index client *)

Module Client.

Import Js.
Local Open Scope string_scope.

(** A thrown [Error]: its [name] and [message]. *)
Record JsError : Type := mkJsError { name : string; message : string }.

(** [new Error(msg)]. *)
Definition newError (msg : string) : JsError := mkJsError "Error" msg.

(** The outcome of a call that may throw. *)
Inductive Outcome (A : Type) : Type :=
| Return (a : A)
| Throw (e : JsError).
Arguments Return {A} a.
Arguments Throw {A} e.

(** The value of [parseInt(s, 10)]. *)
Inductive ParsedInt : Type :=
| IntOf (z : Z)
| IntNaN.

Fixpoint leadingDigits (s : string) (acc : option Z) : option Z :=
  match s with
  | EmptyString => acc
  | String c r =>
      let n := nat_of_ascii c in
      if (48 <=? n)%nat && (n <=? 57)%nat then
        leadingDigits r
          (Some (match acc with Some a => a * 10 | None => 0 end + Z.of_nat (n - 48))%Z)
      else acc
  end.

(** [parseInt(s, 10)]: leading white space, an optional sign, then the
    longest run of digits; [NaN] without a digit. *)
Definition parseInt (s : string) : ParsedInt :=
  match trimStart s with
  | String "-" r =>
      match leadingDigits r None with Some z => IntOf (- z) | None => IntNaN end
  | String "+" r =>
      match leadingDigits r None with Some z => IntOf z | None => IntNaN end
  | r => match leadingDigits r None with Some z => IntOf z | None => IntNaN end
  end.

(** A capture: [{ timestamp, originalUrl, statusCode }]; [statusCode]
    is [None] for [null]. *)
Record Snapshot : Type := mkSnapshot {
  timestamp : string;
  originalUrl : string;
  statusCode : option ParsedInt
}.

(** The decoded body of an index reply: something that is not an array,
    or an array of rows; a cell is a string, or [None] for any other
    value. *)
Inductive CdxData : Type :=
| NotAnArray
| Rows (rows : list (list (option string))).

(** An HTTP response: its status and what [response.json()] gives. *)
Record Response : Type := mkResponse { status : Z; json : Outcome CdxData }.

(** [response.ok]: the status is in the range 200-299. *)
Definition ok (r : Response) : bool :=
  (200 <=? status r)%Z && (status r <=? 299)%Z.

(** [row[i] || '']. *)
Definition cellOr (row : list (option string)) (i : nat) : string :=
  match nth_error row i with
  | Some (Some s) => s
  | _ => ""
  end.

(** The mapping of one row (lines 420-441). *)
Definition rowToSnapshot (row : list (option string)) : Snapshot :=
  mkSnapshot (cellOr row 0) (cellOr row 1)
    (if truthy (cellOr row 2) then Some (parseInt (cellOr row 2)) else None).

(** Lines 409-442: from the decoded body to the captures. *)
Definition parseRows (data : CdxData) : list Snapshot :=
  match data with
  | NotAnArray => []
  | Rows [] => []
  | Rows (firstRow :: rest) =>
      let hasHeaders :=
        match nth_error firstRow 0 with
        | Some (Some c) => String.eqb c "timestamp" || String.eqb c "Timestamp"
        | _ => false
        end in
      let rows := if hasHeaders then rest else firstRow :: rest in
      filter (fun snapshot => truthy (timestamp snapshot) && truthy (originalUrl snapshot))
        (map rowToSnapshot rows)
  end.

Section Requests.

(** [this.timeout], in milliseconds. *)
Variable timeout : Z.

(** The capture index: what the request made at retry number [n] for a
    normalised target and a limit receives, a response or the error
    [fetch] rejects with (an [AbortError] when the timer fires). *)
Variable fetchIndex : string -> nat -> nat -> Outcome Response.

(** [normalizeTarget] parses URLs with the platform's [URL] class; it
    is an input here. *)
Variable normalizeTarget : string -> string.

(** The [catch] clause of [getSnapshots] (lines 443-448). *)
Definition rethrow (error : JsError) : JsError :=
  if String.eqb (name error) "AbortError" || includes (message error) "timeout"
  then newError ("Request timeout after " ++ showZ timeout ++ "ms")
  else newError ("Failed to fetch snapshots: " ++ message error).

(** [Math.pow(2, retryCount) * 2000]. *)
Definition waitTime (retryCount : nat) : Z := (2 ^ Z.of_nat retryCount * 2000)%Z.

(** The body of [getSnapshots].  The result comes with the list of the
    delays slept through, in order.  The recursion is on the number of
    retries left, [maxRetries - retryCount]: the test
    [retryCount < maxRetries] is [retriesLeft] being a successor. *)
Fixpoint getSnapshotsLoop (target : string) (limit : nat) (retryCount maxRetries : nat)
  (retriesLeft : nat) : list Z * Outcome (list Snapshot) :=
  let normalizedTarget := normalizeTarget target in
  match fetchIndex normalizedTarget limit retryCount with
  | Throw error => ([], Throw (rethrow error))
  | Return response =>
      if (status response =? 429)%Z then
        match retriesLeft with
        | S fewer =>
            let '(waits, result) :=
              getSnapshotsLoop target limit (S retryCount) maxRetries fewer in
            (waitTime retryCount :: waits,
             match result with
             | Return snapshots => Return snapshots
             | Throw error => Throw (rethrow error)
             end)
        | O =>
            ([], Throw (rethrow (newError
                   ("CDX API rate limit exceeded after " ++ showZ (Z.of_nat maxRetries)
                    ++ " retries. Please try again later."))))
        end
      else if negb (ok response) then
        ([], Throw (rethrow (newError
               ("CDX API returned HTTP " ++ showZ (status response)))))
      else
        match json response with
        | Throw error => ([], Throw (rethrow error))
        | Return data => ([], Return (parseRows data))
        end
  end.

(** [getSnapshots(target, limit, retryCount, maxRetries)]. *)
Definition getSnapshots (target : string) (limit : nat) (retryCount maxRetries : nat)
  : list Z * Outcome (list Snapshot) :=
  getSnapshotsLoop target limit retryCount maxRetries (maxRetries - retryCount).

End Requests.

(** The head of the message of an HTTP failure. *)
Definition httpFailure : string := "CDX API returned HTTP ".

(** *** Error classes of the specification *)

(** A rate-limit failure and an index-unavailable failure, recognised
    by the message the code gives them. *)
Definition isRateLimited (e : JsError) : bool :=
  includes (message e) "CDX API rate limit exceeded".

Definition isIndexUnavailable (e : JsError) : bool :=
  includes (message e) "CDX API returned HTTP".

End Client.

(** ** index.js: the adapter's pipelines *)

Module Adapter.

Import Js.
Local Open Scope string_scope.

Inductive Status : Type :=
| QUEUED | FETCHING_SNAPSHOTS | NO_SNAPSHOTS | UNAVAILABLE | ANALYZING
| ANALYZING_SPAM | ANALYZING_BACKLINKS | ANALYZING_TOPICS | ANALYZING_METRICS
| COMPLETE | CLEAN | SUSPICIOUS | SPAM.

Definition statusName (s : Status) : string :=
  match s with
  | QUEUED => "QUEUED" | FETCHING_SNAPSHOTS => "FETCHING_SNAPSHOTS"
  | NO_SNAPSHOTS => "NO_SNAPSHOTS" | UNAVAILABLE => "UNAVAILABLE"
  | ANALYZING => "ANALYZING" | ANALYZING_SPAM => "ANALYZING_SPAM"
  | ANALYZING_BACKLINKS => "ANALYZING_BACKLINKS"
  | ANALYZING_TOPICS => "ANALYZING_TOPICS"
  | ANALYZING_METRICS => "ANALYZING_METRICS"
  | COMPLETE => "COMPLETE" | CLEAN => "CLEAN" | SUSPICIOUS => "SUSPICIOUS"
  | SPAM => "SPAM"
  end.

(** What [getSnapshotHtml] resolves to: [{ html, length, snapshotUrl }],
    [length] being the length of [html]. *)
Record HtmlResult : Type := mkHtmlResult { html : string; snapshotUrl : string }.

(** A skipped capture: [{ timestamp, originalUrl, error }]. *)
Record SnapshotError : Type := mkSnapshotError {
  errorTimestamp : string;
  errorOriginalUrl : string;
  errorNote : string
}.

(** The object [analyzeDomainForSpam] returns.  The early returns leave
    most properties out: an absent number reads [VUndefined], the other
    absent properties are [None]. *)
Record SpamResult : Type := mkSpamResult {
  domain : string;
  status : Status;
  snapshotsFound : nat;
  snapshotsAnalyzed : nat;
  failedSnapshots : option nat;
  spamSnapshots : option nat;
  maxSpamScore : value;
  avgSpamScore : value;
  spamDetected : option bool;
  totalStopWordsFound : option nat;
  stopWordsFound : list (string * nat);
  firstSpamDate : option string;
  lastMessage : option string;
  snapshotErrors : option (list SnapshotError);
  error : option string
}.

(** [error.message || String(error)]. *)
Definition errorText (e : Client.JsError) : string :=
  if truthy (Client.message e) then Client.message e else Client.name e.

(** The variables of the capture loop (lines 158-165). *)
Module Loop.
Record State : Type := mkState {
  spamSnapshots : nat;
  totalSpamScore : Z;
  maxSpamScore : Z;
  successfullyAnalyzed : nat;
  failedSnapshots : nat;
  allFoundStopWords : list (string * nat);
  firstSpamDate : option string;
  snapshotErrors : list SnapshotError
}.
Definition init : State := mkState 0 0 0 0 0 [] None [].
End Loop.

(** [allFoundStopWords.set(word, (allFoundStopWords.get(word) || 0) + count)],
    a [Map] keeping its keys in insertion order. *)
Fixpoint addCount (word : string) (n : nat) (m : list (string * nat)) : list (string * nat) :=
  match m with
  | [] => [(word, n)]
  | (w, c) :: r =>
      if String.eqb w word then (w, (c + n)%nat) :: r else (w, c) :: addCount word n r
  end.

Section SpamPipeline.

Variable getSnapshots : string -> nat -> Client.Outcome (list Client.Snapshot).
Variable getSnapshotHtml : Client.Snapshot -> Client.Outcome HtmlResult.
Variable extractTextContent : string -> option string -> string.
Variable extractMetaTags : string -> option string -> HtmlParser.MetaTags.

(** The host name taken from the domain (lines 106-113, through the
    platform's [URL] class). *)
Variable domainNameOf : string -> string.

(** The [try] block of the loop body up to the analysis: the fetch, the
    check for empty HTML, the analysis. *)
Definition fetchAndAnalyze (stopWords : list string) (domainName : string)
  (snapshot : Client.Snapshot) : Client.Outcome HtmlParser.SpamAnalysis :=
  match getSnapshotHtml snapshot with
  | Client.Throw e => Client.Throw e
  | Client.Return htmlResult =>
      if negb (truthy (html htmlResult))
      then Client.Throw (Client.newError "Empty HTML result from snapshot")
      else Client.Return
             (HtmlParser.analyzeHtmlForSpam extractTextContent extractMetaTags
                (html htmlResult) stopWords (Some domainName))
  end.

(** One iteration of the loop over the captures (lines 168-231). *)
Definition analyzeSnapshot (stopWords : list string) (domainName : string)
  (st : Loop.State) (snapshot : Client.Snapshot) : Loop.State :=
  match fetchAndAnalyze stopWords domainName snapshot with
  | Client.Return analysis =>
      let successfullyAnalyzed := S (Loop.successfullyAnalyzed st) in
      let maxSpamScore :=
        if (HtmlParser.spamScore analysis >? Loop.maxSpamScore st)%Z
        then HtmlParser.spamScore analysis else Loop.maxSpamScore st in
      if HtmlParser.isSpam analysis then
        Loop.mkState
          (S (Loop.spamSnapshots st))
          (Loop.totalSpamScore st + HtmlParser.spamScore analysis)%Z
          maxSpamScore successfullyAnalyzed (Loop.failedSnapshots st)
          (fold_left (fun m item =>
                        addCount (HtmlParser.word item) (HtmlParser.count item) m)
             (HtmlParser.found (HtmlParser.stopWordsCheck analysis))
             (Loop.allFoundStopWords st))
          (match Loop.firstSpamDate st with
           | Some d => if truthy d then Some d else Some (Client.timestamp snapshot)
           | None => Some (Client.timestamp snapshot)
           end)
          (Loop.snapshotErrors st)
      else
        Loop.mkState (Loop.spamSnapshots st) (Loop.totalSpamScore st)
          maxSpamScore successfullyAnalyzed (Loop.failedSnapshots st)
          (Loop.allFoundStopWords st) (Loop.firstSpamDate st) (Loop.snapshotErrors st)
  | Client.Throw e =>
      Loop.mkState (Loop.spamSnapshots st) (Loop.totalSpamScore st)
        (Loop.maxSpamScore st) (Loop.successfullyAnalyzed st)
        (S (Loop.failedSnapshots st))
        (Loop.allFoundStopWords st) (Loop.firstSpamDate st)
        (app (Loop.snapshotErrors st)
           [mkSnapshotError (Client.timestamp snapshot) (Client.originalUrl snapshot)
              (errorText e)])
  end.

(** The status from the loop's counters (lines 242-251). *)
Definition finalStatusOf (successfullyAnalyzed : nat) (maxSpamScore : Z) : Status :=
  if (successfullyAnalyzed =? 0)%nat then UNAVAILABLE
  else if (maxSpamScore >=? 8)%Z then SPAM
  else if (maxSpamScore >=? 5)%Z then SUSPICIOUS
  else CLEAN.

(** [Math.round(x * 10) / 10] on a rational. *)
Definition roundOneDecimal (q : Q) : Q := inject_Z (Js.round (q * 10)) / 10.

(** The result built after the loop (lines 233-276). *)
Definition spamReport (dom : string) (snapshots : list Client.Snapshot) (st : Loop.State)
  : SpamResult :=
  let avg : Q :=
    if (0 <? Loop.spamSnapshots st)%nat
    then inject_Z (Loop.totalSpamScore st) / inject_Z (Z.of_nat (Loop.spamSnapshots st))
    else 0 in
  let found := Topic.sortByFrequency (Loop.allFoundStopWords st) in
  let finalStatus := finalStatusOf (Loop.successfullyAnalyzed st) (Loop.maxSpamScore st) in
  let failedText :=
    "Failed to analyze any snapshots. " ++ showZ (Z.of_nat (Loop.failedSnapshots st))
    ++ " errors occurred." in
  mkSpamResult dom finalStatus (List.length snapshots) (Loop.successfullyAnalyzed st)
    (Some (Loop.failedSnapshots st))
    (Some (Loop.spamSnapshots st))
    (VNum (Fin (inject_Z (Js.round (inject_Z (Loop.maxSpamScore st * 10)) / 10)%Z)))
    (VNum (Fin (roundOneDecimal avg)))
    (Some (0 <? Loop.spamSnapshots st)%nat)
    (Some (List.length (Loop.allFoundStopWords st)))
    found
    (Loop.firstSpamDate st)
    (Some (match finalStatus with
           | UNAVAILABLE => failedText
           | _ => "Analysis complete: " ++ statusName finalStatus
                  ++ ". Max spam score: " ++ showZ (Loop.maxSpamScore st) ++ ".0/10"
           end))
    (if (0 <? List.length (Loop.snapshotErrors st))%nat
     then Some (Loop.snapshotErrors st) else None)
    (if (0 <? List.length (Loop.snapshotErrors st))%nat
        && (Loop.successfullyAnalyzed st =? 0)%nat
     then Some failedText else None).

(** [analyzeDomainForSpam(domain, stopWords, maxSnapshots)].  The two
    callbacks only report progress and are left out. *)
Definition analyzeDomainForSpam (dom : string) (stopWords : list string)
  (maxSnapshots : nat) : SpamResult :=
  let domainName := domainNameOf dom in
  match getSnapshots dom maxSnapshots with
  | Client.Throw e =>
      mkSpamResult dom UNAVAILABLE 0 0 None None VUndefined VUndefined None None []
        None (Some ("CDX API error: " ++ errorText e)) None (Some (errorText e))
  | Client.Return snapshots =>
      if (List.length snapshots =? 0)%nat then
        mkSpamResult dom NO_SNAPSHOTS 0 0 None None VUndefined VUndefined None None []
          None (Some "No snapshots found in Wayback Machine") None None
      else
        spamReport dom snapshots
          (fold_left (analyzeSnapshot stopWords domainName) snapshots Loop.init)
  end.

(** *** The counts as the specification words them *)

(** A capture is successfully fetched and analyzed. *)
Definition analyzed (stopWords : list string) (domainName : string)
  (snapshot : Client.Snapshot) : bool :=
  match fetchAndAnalyze stopWords domainName snapshot with
  | Client.Return _ => true
  | Client.Throw _ => false
  end.

(** The spam scores of the captures that were analyzed. *)
Definition analyzedScores (stopWords : list string) (domainName : string)
  (snapshots : list Client.Snapshot) : list Z :=
  flat_map (fun snapshot =>
              match fetchAndAnalyze stopWords domainName snapshot with
              | Client.Return analysis => [HtmlParser.spamScore analysis]
              | Client.Throw _ => []
              end)
    snapshots.

(** The captures that failed, each with its error note. *)
Definition skippedCaptures (stopWords : list string) (domainName : string)
  (snapshots : list Client.Snapshot) : list SnapshotError :=
  flat_map (fun snapshot =>
              match fetchAndAnalyze stopWords domainName snapshot with
              | Client.Return _ => []
              | Client.Throw e =>
                  [mkSnapshotError (Client.timestamp snapshot)
                     (Client.originalUrl snapshot) (errorText e)]
              end)
    snapshots.

End SpamPipeline.

(** The largest of a list of scores (0 for none). *)
Definition maxScore (scores : list Z) : Z := fold_right Z.max 0%Z scores.

(** "CLEAN (max score < 5), SUSPICIOUS (5 to 7.9) or SPAM (>= 8)". *)
Definition specStatus (score : Z) : Status :=
  if (score <? 5)%Z then CLEAN
  else if (score <? 8)%Z then SUSPICIOUS
  else SPAM.

(** *** Risk aggregation (lines 492-634 of [analyzeDomainComplete]) *)

Inductive Recommendation : Type := BUY | REVIEW | CAUTION | AVOID.
Inductive RiskLevel : Type := LOW | MEDIUM | HIGH.

Definition recommendation_eqb (a b : Recommendation) : bool :=
  match a, b with
  | BUY, BUY | REVIEW, REVIEW | CAUTION, CAUTION | AVOID, AVOID => true
  | _, _ => false
  end.

Record RiskFactor : Type := mkRiskFactor { name : string; value : Q; weight : Q }.

(** [Math.min(100, Math.max(0, x))]. *)
Definition clamp (x : Q) : Q := Qmin 100 (Qmax 0 x).

(** [spamRisk]: [maxSpamScore * 10], clamped, when [maxSpamScore] is a
    finite number; [None] for [null]. *)
Definition spamRiskOf (maxSpamScore : Js.value) : option Q :=
  match finiteNumber maxSpamScore with
  | Some q => Some (clamp (q * 10))
  | None => None
  end.

(** [backlinkRisk], [metricsRisk] and [topicRisk]: 100 minus the score,
    clamped. *)
Definition invertedRisk (score : Js.value) : option Q :=
  match finiteNumber score with
  | Some q => Some (clamp (100 - q))
  | None => None
  end.

(** [if (risk !== null && risk >= 0) riskFactors.push(...)]. *)
Definition pushFactor (factorName : string) (risk : option Q) (w : Q)
  (riskFactors : list RiskFactor) : list RiskFactor :=
  match risk with
  | Some r => if Qle_bool 0 r then app riskFactors [mkRiskFactor factorName r w]
              else riskFactors
  | None => riskFactors
  end.

(** The penalty of one flag in the [reduce]. *)
Definition flagPenalty (flag : Topic.RedFlag) : Z :=
  match Topic.severity flag with
  | Topic.high => 15
  | Topic.medium => 8
  | Topic.low => 3
  end.

Definition redFlagPenaltyOf (redFlags : list Topic.RedFlag) : Z :=
  if (0 <? List.length redFlags)%nat
  then Z.min 30 (fold_left (fun sum flag => (sum + flagPenalty flag)%Z) redFlags 0%Z)
  else 0%Z.

(** The decision chain of lines 575-601, with its reason. *)
Definition baseRecommendation (spamRisk : option Q) (redFlagPenalty : Z)
  (validRiskScore : Q) : Recommendation * string :=
  let atLeast (bound : Q) :=
    match spamRisk with Some r => Qle_bool bound r | None => false end in
  let shown := showZ (Js.round validRiskScore) in
  if atLeast 80 then (AVOID, "Very high spam score detected")
  else if atLeast 50 then (AVOID, "High spam content detected")
  else if (redFlagPenalty >=? 20)%Z then (AVOID, "Multiple high-severity red flags detected")
  else if Qle_bool 70 validRiskScore
       then (AVOID, "High overall risk score (" ++ shown ++ ")")
  else if Qle_bool 55 validRiskScore
       then (CAUTION, "Elevated risk score (" ++ shown ++ ")")
  else if Qle_bool 40 validRiskScore
       then (REVIEW, "Moderate risk (" ++ shown ++ ") - review carefully")
  else if Qle_bool 25 validRiskScore
       then (REVIEW, "Low-moderate risk (" ++ shown ++ ")")
  else (BUY, "Low risk score (" ++ shown ++ ")").

(** One of the two "additional factors" (lines 604-616): when the risk
    exceeds the bound, BUY becomes REVIEW and a lone "Low risk" reason
    gets a second one. *)
Definition additionalFactor (risk : option Q) (bound : Q) (note : string)
  (acc : Recommendation * list string) : Recommendation * list string :=
  let '(recommendation, reasons) := acc in
  match risk with
  | Some r =>
      if negb (Qle_bool r bound) then
        (if recommendation_eqb recommendation BUY then REVIEW else recommendation,
         match reasons with
         | [first] => if includes first "Low risk" then [first; note] else reasons
         | _ => reasons
         end)
      else acc
  | None => acc
  end.

(** [reasons.join('; ')]. *)
Fixpoint joinReasons (l : list string) : string :=
  match l with
  | [] => ""
  | [x] => x
  | x :: r => x ++ "; " ++ joinReasons r
  end.

(** The risk level (lines 619-631). *)
Definition riskLevelOf (validRiskScore : Q) (recommendation : Recommendation) : RiskLevel :=
  let riskLevel :=
    if Qle_bool 70 validRiskScore || recommendation_eqb recommendation AVOID then HIGH
    else if Qle_bool 40 validRiskScore || recommendation_eqb recommendation CAUTION
         then MEDIUM
    else LOW in
  match recommendation, riskLevel with
  | AVOID, LOW => HIGH
  | _, _ => riskLevel
  end.

(** The part of the returned object the aggregation computes. *)
Record RiskAssessment : Type := mkRiskAssessment {
  overallRiskScore : Q;
  riskLevel : RiskLevel;
  recommendation : Recommendation;
  recommendationReason : string;
  riskFactors : list RiskFactor
}.

(** The aggregation, from the four scores it reads
    ([spamAnalysis.maxSpamScore], [backlinkAnalysis.averageQualityScore],
    [metrics.overallQualityScore], [topicAnalysis.stabilityScore]) and
    the topic red flags. *)
Definition aggregateRisk (maxSpam averageQuality overallQuality stability : Js.value)
  (redFlags : list Topic.RedFlag) : RiskAssessment :=
  let spamRisk := spamRiskOf maxSpam in
  let backlinkRisk := invertedRisk averageQuality in
  let metricsRisk := invertedRisk overallQuality in
  let topicRisk := invertedRisk stability in
  let factors := [] in
  let factors := pushFactor "Spam Content" spamRisk (35 # 100) factors in
  let factors := pushFactor "Backlink Quality" backlinkRisk (25 # 100) factors in
  let factors := pushFactor "Domain Metrics" metricsRisk (25 # 100) factors in
  let factors := pushFactor "Topic Stability" topicRisk (15 # 100) factors in
  let '(weighted, totalWeight) :=
    fold_left (fun acc factor =>
                 (fst acc + value factor * weight factor, snd acc + weight factor))
      factors (0 : Q, 0 : Q) in
  let redFlagPenalty := redFlagPenaltyOf redFlags in
  let score : num :=
    if negb (Qle_bool totalWeight 0)
    then Fin (inject_Z (Js.round (weighted / totalWeight + inject_Z redFlagPenalty)))
    else match spamRisk with
         | Some r => Fin (inject_Z (Js.round (r + inject_Z redFlagPenalty)))
         | None => Fin 0
         end in
  let score := Js.min (Fin 100) (Js.max (Fin 0) score) in
  let score :=
    if negb (isFinite score) then
      match spamRisk with
      | Some r => Fin (clamp (inject_Z (Js.round (r + inject_Z redFlagPenalty))))
      | None => Fin 50
      end
    else score in
  let validRiskScore : Q := match score with Fin q => q | NaN => 50 end in
  let '(rec0, reason0) := baseRecommendation spamRisk redFlagPenalty validRiskScore in
  let acc := (rec0, [reason0]) in
  let acc := additionalFactor metricsRisk 70 "Poor domain metrics detected" acc in
  let acc := additionalFactor backlinkRisk 60 "Low backlink quality detected" acc in
  let '(recommendation, reasons) := acc in
  mkRiskAssessment validRiskScore (riskLevelOf validRiskScore recommendation)
    recommendation (joinReasons reasons) factors.

(** *** [analyzeDomainComplete] *)

(** The object a completed analysis returns; [assessment] groups the
    properties computed by the aggregation. *)
Record CompleteReport : Type := mkCompleteReport {
  spamAnalysis : SpamResult;
  backlinkAnalysis : Metrics.BacklinkData;
  topicAnalysis : Topic.TopicAnalysis;
  metrics : Metrics.DomainMetrics;
  assessment : RiskAssessment;
  reportSnapshotsFound : nat;
  reportSnapshotsAnalyzed : nat
}.

(** The three shapes of the returned object, by [status]: COMPLETE,
    NO_SNAPSHOTS, UNAVAILABLE (with its [error]). *)
Inductive CompleteResult : Type :=
| CompleteOk (dom : string) (report : CompleteReport)
| CompleteNoSnapshots (dom : string)
| CompleteUnavailable (dom : string) (err : string).

Definition completeDomain (r : CompleteResult) : string :=
  match r with
  | CompleteOk d _ | CompleteNoSnapshots d | CompleteUnavailable d _ => d
  end.

Definition completeStatus (r : CompleteResult) : Status :=
  match r with
  | CompleteOk _ _ => COMPLETE
  | CompleteNoSnapshots _ => NO_SNAPSHOTS
  | CompleteUnavailable _ _ => UNAVAILABLE
  end.

(** A score that is a number or [null]. *)
Definition scoreValue (z : option Z) : Js.value :=
  match z with Some n => VNum (Fin (inject_Z n)) | None => VNull end.

Section CompletePipeline.

Variable getSnapshots : string -> nat -> Client.Outcome (list Client.Snapshot).
Variable getSnapshotHtml : Client.Snapshot -> Client.Outcome HtmlResult.
Variable extractTextContent : string -> option string -> string.
Variable extractMetaTags : string -> option string -> HtmlParser.MetaTags.
Variable domainNameOf : string -> string.
Variable extractTopics : string -> Topic.Topics.

(** [analyzeBacklinksHistory] (backlinkAnalyzer.js) works on the parsed
    HTML; its result is an input here. *)
Variable analyzeBacklinksHistory :
  list Topic.SnapshotWithHtml -> list string -> string ->
  Client.Outcome Metrics.BacklinkData.

(** The three lookups of [getDomainMetrics]: the rank service's reply,
    the outcome of the HTTPS probe, the random draw. *)
Variable rankReply : string -> Metrics.OprReply.
Variable httpsOk : string -> bool.
Variable randomDraw : string -> Z.

(** The loop of lines 458-471: the captures whose HTML could be
    fetched. *)
Definition fetchAll (snapshots : list Client.Snapshot) : list Topic.SnapshotWithHtml :=
  flat_map (fun snapshot =>
              match getSnapshotHtml snapshot with
              | Client.Return htmlResult =>
                  [Topic.mkSnapshotWithHtml (Client.timestamp snapshot)
                     (Client.originalUrl snapshot) (html htmlResult)]
              | Client.Throw _ => []
              end)
    snapshots.

Definition analyzeDomainComplete (dom : string) (stopWords : list string)
  (maxSnapshots : nat) : CompleteResult :=
  match getSnapshots dom maxSnapshots with
  | Client.Throw e => CompleteUnavailable dom (errorText e)
  | Client.Return snapshots =>
      if (List.length snapshots =? 0)%nat then CompleteNoSnapshots dom
      else
        let snapshotsWithHtml := fetchAll snapshots in
        let spam :=
          analyzeDomainForSpam getSnapshots getSnapshotHtml extractTextContent
            extractMetaTags domainNameOf dom stopWords maxSnapshots in
        match analyzeBacklinksHistory snapshotsWithHtml stopWords dom with
        | Client.Throw e => CompleteUnavailable dom (errorText e)
        | Client.Return backlinks =>
            let topic := Topic.analyzeTopicStability extractTopics snapshotsWithHtml in
            let m :=
              Metrics.getDomainMetrics
                (Metrics.getOpenPageRankMetrics (rankReply dom))
                (Metrics.getDomainAuthorityMetrics dom (httpsOk dom) (randomDraw dom))
                (Metrics.getTrustFlowMetrics dom (Some backlinks)) in
            let a :=
              aggregateRisk (maxSpamScore spam)
                (Metrics.averageQualityScore backlinks)
                (Metrics.overallQualityScore m)
                (scoreValue (Topic.stabilityScore topic))
                (Topic.redFlags topic) in
            CompleteOk dom
              (mkCompleteReport spam backlinks topic m a
                 (snapshotsFound spam) (snapshotsAnalyzed spam))
        end
  end.

End CompletePipeline.

(** *** The batches: results in input order *)

(** [domains.map(d => d.trim()).filter(d => d.length > 0)]. *)
Definition domainListOf (domains : list string) : list string :=
  filter (fun d => (0 <? String.length d)%nat) (map trim domains).

Section Batch.

Variable Result : Type.
Variable domainOf : Result -> string.
Variable placeholder : string -> Result.

(** [domainList.map(domain => results.find(r => r.domain === domain)
    || placeholder)] (lines 394-402 and 763-769). *)
Definition sortResults (domainList : list string) (results : list Result) : list Result :=
  map (fun d =>
         match find (fun r => String.eqb (domainOf r) d) results with
         | Some r => r
         | None => placeholder d
         end)
    domainList.

End Batch.

Definition spamPlaceholder (d : string) : SpamResult :=
  mkSpamResult d UNAVAILABLE 0 0 None None VUndefined VUndefined None None []
    None None None (Some "Analysis not completed").

Definition completePlaceholder (d : string) : CompleteResult :=
  CompleteUnavailable d "Analysis not completed".

(** The value [analyzeDomainsForSpam] returns; [results] is the array
    the per-domain workers pushed their results to, in the order they
    completed, as it stands when the final [map] runs. *)
Definition analyzeDomainsForSpam (domains : list string) (results : list SpamResult)
  : list SpamResult :=
  sortResults domain spamPlaceholder (domainListOf domains) results.

(** The same for [analyzeDomainsComplete]. *)
Definition analyzeDomainsComplete (domains : list string) (results : list CompleteResult)
  : list CompleteResult :=
  sortResults completeDomain completePlaceholder (domainListOf domains) results.

(** *** The precedence as the specification words it *)

(** "spam-risk >= 80: AVOID; spam-risk >= 50: AVOID; redFlagPenalty >= 20:
    AVOID; overallRiskScore >= 70: AVOID; >= 55: CAUTION; >= 40 or >= 25:
    REVIEW; else BUY", first match wins.  [spamRisk] is [None] when no
    spam score is available. *)
Inductive Precedence (spamRisk : option Q) (redFlagPenalty : Z) (score : Q)
  : Recommendation -> Prop :=
| P_spam : forall r, spamRisk = Some r -> 50 <= r ->
    Precedence spamRisk redFlagPenalty score AVOID
| P_flags : (forall r, spamRisk = Some r -> r < 50) -> (20 <= redFlagPenalty)%Z ->
    Precedence spamRisk redFlagPenalty score AVOID
| P_high : (forall r, spamRisk = Some r -> r < 50) -> (redFlagPenalty < 20)%Z ->
    70 <= score -> Precedence spamRisk redFlagPenalty score AVOID
| P_caution : (forall r, spamRisk = Some r -> r < 50) -> (redFlagPenalty < 20)%Z ->
    55 <= score -> score < 70 -> Precedence spamRisk redFlagPenalty score CAUTION
| P_review : (forall r, spamRisk = Some r -> r < 50) -> (redFlagPenalty < 20)%Z ->
    25 <= score -> score < 55 -> Precedence spamRisk redFlagPenalty score REVIEW
| P_buy : (forall r, spamRisk = Some r -> r < 50) -> (redFlagPenalty < 20)%Z ->
    score < 25 -> Precedence spamRisk redFlagPenalty score BUY.

(** Whether a risk is present and above a bound. *)
Definition exceeds (risk : option Q) (bound : Q) : Prop :=
  exists r, risk = Some r /\ bound < r.

End Adapter.

(** ** A run with two failing captures *)

(** Ten captures of one page; the fetches of the third and the seventh
    time out, the others return a page that mentions one stop word. *)
Module Scenario.

Import Js.
Local Open Scope string_scope.

Definition capture (i : nat) : Client.Snapshot :=
  Client.mkSnapshot ("2015010100000" ++ showZ (Z.of_nat i)) "http://example.com/"
    (Some (Client.IntOf 200)).

Definition captures : list Client.Snapshot := map capture (seq 0 10).

Definition getSnapshots (_ : string) (_ : nat) : Client.Outcome (list Client.Snapshot) :=
  Client.Return captures.

Definition getSnapshotHtml (s : Client.Snapshot) : Client.Outcome Adapter.HtmlResult :=
  if String.eqb (Client.timestamp s) "20150101000002"
     || String.eqb (Client.timestamp s) "20150101000006"
  then Client.Throw (Client.newError "Request timeout after 120000ms")
  else Client.Return
         (Adapter.mkHtmlResult "<p>welcome to our casino</p>"
            ("https://web.archive.org/web/" ++ Client.timestamp s
             ++ "/http://example.com/")).

Definition extractTextContent (html : string) (_ : option string) : string :=
  toLowerCase html.

Definition extractMetaTags (_ : string) (_ : option string) : HtmlParser.MetaTags :=
  HtmlParser.mkMetaTags "" "" "".

Definition domainNameOf (d : string) : string := d.

Definition run : Adapter.SpamResult :=
  Adapter.analyzeDomainForSpam getSnapshots getSnapshotHtml extractTextContent
    extractMetaTags domainNameOf "example.com" ["casino"; "poker"] 10.

(** For the full pipeline: the page has a title and a description, the
    backlink summary reports an average quality of 80, the rank service
    answers with rank 6, the HTTPS probe succeeds and the draw is 7. *)
Definition extractTopics (_ : string) : Topic.Topics :=
  Topic.mkTopics "Example shop for garden tools" []
    "Garden tools, seeds and advice for every season of the year." "" "" ""
    ["garden"; "tools"; "seeds"; "garden"].

(** Three pages that only have a title: a shop, the same shop a year
    later, and a casino; and three captures of them, listed out of
    order. *)
Definition pageTopics (html : string) : Topic.Topics :=
  if String.eqb html "<title>Garden tools</title>"
  then Topic.mkTopics "Garden tools" [] "" "" "" "" []
  else if String.eqb html "<title>Casino bonus</title>"
  then Topic.mkTopics "Casino bonus" [] "" "" "" "" []
  else Topic.emptyTopics.

Definition shuffledCaptures : list Topic.SnapshotWithHtml :=
  [ Topic.mkSnapshotWithHtml "20200101000000" "http://example.com/"
      "<title>Garden tools</title>";
    Topic.mkSnapshotWithHtml "20220101000000" "http://example.com/"
      "<title>Casino bonus</title>";
    Topic.mkSnapshotWithHtml "20210101000000" "http://example.com/"
      "<title>Garden tools</title>" ].

(** The same captures from the earliest to the latest. *)
Definition orderedCaptures : list Topic.SnapshotWithHtml :=
  [ Topic.mkSnapshotWithHtml "20200101000000" "http://example.com/"
      "<title>Garden tools</title>";
    Topic.mkSnapshotWithHtml "20210101000000" "http://example.com/"
      "<title>Garden tools</title>";
    Topic.mkSnapshotWithHtml "20220101000000" "http://example.com/"
      "<title>Casino bonus</title>" ].

Definition analyzeBacklinksHistory (_ : list Topic.SnapshotWithHtml) (_ : list string)
  (_ : string) : Client.Outcome Metrics.BacklinkData :=
  Client.Return (Metrics.mkBacklinkData (VNum (Fin 80))).

Definition rankReply (_ : string) : Metrics.OprReply :=
  Metrics.OprData 200 [Metrics.mkOprEntry (VNum (Fin 6)) (VNum (Fin 1200))].

Definition completeRun : Adapter.CompleteResult :=
  Adapter.analyzeDomainComplete getSnapshots getSnapshotHtml extractTextContent
    extractMetaTags domainNameOf extractTopics analyzeBacklinksHistory
    rankReply (fun _ => true) (fun _ => 7%Z) "example.com" ["casino"; "poker"] 10.

End Scenario.

(* ================================================================== *)
(** ** stopWords.js: the stop-word lists *)
(* ================================================================== *)

Module StopWords.

Import Js.
Local Open Scope string_scope.

(** [defaultStopWords] (lines 3-25); ['click here'] is listed twice. *)
Definition defaultStopWords : list string :=
  [ "casino"; "poker"; "roulette"; "blackjack"; "betting"; "gambling"; "lottery";
    "viagra"; "cialis"; "porn"; "xxx"; "adult"; "escort";
    "get rich"; "make money fast"; "work from home"; "earn $"; "free money";
    "credit card"; "loan"; "debt"; "payday";
    "verify account"; "confirm identity"; "suspended account"; "click here";
    "buy online"; "no prescription"; "cheap"; "discount";
    "lose weight"; "miracle"; "guaranteed";
    "click here"; "download now"; "limited time"; "act now" ].

(** A value received where stop words are expected: a string, an array
    of strings, or anything else (of which only the truthiness
    matters: [undefined], [null], a number, an object). *)
Inductive Input : Type :=
| IString (s : string)
| IArray (l : list string)
| IOther (isTruthy : bool).

Definition truthyInput (i : Input) : bool :=
  match i with
  | IString s => truthy s
  | IArray _ => true
  | IOther b => b
  end.

(** Every character of [s] satisfies [p]. *)
Fixpoint forallChars (p : ascii -> bool) (s : string) : bool :=
  match s with
  | EmptyString => true
  | String c r => p c && forallChars p r
  end.

(** [s.split(re)] for a regular expression [re] that matches exactly
    the single characters satisfying [p]. *)
Fixpoint splitBy (p : ascii -> bool) (s : string) : list string :=
  match s with
  | EmptyString => [EmptyString]
  | String c r =>
      if p c then EmptyString :: splitBy p r
      else match splitBy p r with
           | h :: t => String c h :: t
           | [] => [String c EmptyString]
           end
  end.

(** The class [[,\n]]. *)
Definition isSeparator (c : ascii) : bool :=
  Ascii.eqb c "," || Ascii.eqb c (ascii_of_nat 10).

(** [parseStopWords(input)] (lines 30-40). *)
Definition parseStopWords (input : Input) : list string :=
  match input with
  | IString s =>
      if negb (truthy s) then []
      else
        map toLowerCase
          (filter (fun w => (0 <? String.length w)%nat)
             (map trim (splitBy isSeparator s)))
  | _ => []
  end.

(** [combineStopWords(customWords = [])] (lines 45-52); the spread of a
    [Set] lists each word once, at its first position.  [None] is a
    call without argument. *)
Definition combineStopWords (customWords : option Input) : list string :=
  let customWords := match customWords with Some i => i | None => IArray [] end in
  let custom :=
    match customWords with
    | IArray l => l
    | other => parseStopWords other
    end in
  HtmlParser.dedup (defaultStopWords ++ custom).

(** The stop words the spam-analysis request handler uses
    (lines 314-322 of its file). *)
Definition spamRequestStopWords (stopWords : Input) : list string :=
  if truthyInput stopWords then
    match stopWords with
    | IString _ => combineStopWords (Some (IArray (parseStopWords stopWords)))
    | IArray l => combineStopWords (Some (IArray l))
    | IOther _ => defaultStopWords
    end
  else defaultStopWords.

(** The stop words the complete-analysis request handler uses
    ([analyze-complete.js], lines 60-61).  The call is
    [combineStopWords(defaultStopWords, customStopWords)]: the function
    has one parameter, which receives the default list; the second
    argument is not read. *)
Definition completeRequestStopWords (stopWords : Input) : list string :=
  let customStopWords :=
    if truthyInput stopWords then parseStopWords stopWords else [] in
  let call (first : Input) (second : list string) :=
    combineStopWords (Some first) in
  call (IArray defaultStopWords) customStopWords.

(** [words.join(sep)]. *)
Fixpoint joinWith (sep : string) (l : list string) : string :=
  match l with
  | [] => EmptyString
  | [w] => w
  | w :: r => w ++ sep ++ joinWith sep r
  end.

(** The first character of [s], if any, is no white space. *)
Definition headed (s : string) : bool :=
  match s with EmptyString => true | String c _ => negb (isSpace c) end.

(** A word as [parseStopWords] delivers it: not empty, trimmed, in lower
    case, free of separators. *)
Definition parsedWord (w : string) : bool :=
  truthy w && String.eqb (trim w) w && String.eqb (toLowerCase w) w
  && forallChars (fun c => negb (isSeparator c)) w.

End StopWords.

(* ================================================================== *)
(** ** backlinkAnalyzer.js: links and their quality *)
(* ================================================================== *)

Module Backlinks.

Import Js.
Local Open Scope string_scope.

(** An [a[href]] element as the HTML library presents it: the
    attributes [href], [rel] and [target] (the empty string when absent)
    and the text of the element. *)
Record Anchor : Type := mkAnchor {
  attrHref : string;
  elementText : string;
  attrRel : string;
  attrTarget : string
}.

(** [{ href, anchor, rel, target, isExternal }]. *)
Record Link : Type := mkLink {
  href : string;
  anchor : string;
  rel : string;
  target : string;
  isExternal : bool
}.

(** [href && href !== '#' && href !== 'javascript:void(0)']. *)
Definition validHref (h : string) : bool :=
  truthy h && negb (String.eqb h "#") && negb (String.eqb h "javascript:void(0)").

Definition linkOf (a : Anchor) : Link :=
  mkLink (attrHref a) (trim (elementText a)) (toLowerCase (attrRel a)) (attrTarget a)
    (startsWith (attrHref a) "http").

(** [checkAnchorSpam(anchor, spamKeywords)] (lines 56-75). *)
Record AnchorSpam : Type := mkAnchorSpam {
  isSpam : bool;
  foundKeywords : list string
}.

Definition addKeyword (anchorLower : string) (found : list string) (keyword : string)
  : list string :=
  let keywordLower := trim (toLowerCase keyword) in
  if truthy keywordLower && includes anchorLower keywordLower
  then found ++ [keywordLower]
  else found.

Definition checkAnchorSpam (anchor : string) (spamKeywords : list string) : AnchorSpam :=
  if negb (truthy anchor) || (List.length spamKeywords =? 0)%nat then
    mkAnchorSpam false []
  else
    let anchorLower := toLowerCase anchor in
    let found := fold_left (addKeyword anchorLower) spamKeywords [] in
    mkAnchorSpam (0 <? List.length found)%nat found.

(** The indicators of [analyzeLinkQuality] (lines 82-105).  The first
    four are read for their truthiness only. *)
Record Quality : Type := mkQuality {
  isNofollow : bool;
  isSponsored : bool;
  isUgc : bool;
  hasAnchor : bool;
  anchorLength : nat;
  qualityScore : Z
}.

Definition analyzeLinkQuality (link : Link) : Quality :=
  let isNofollow := truthy (rel link) && includes (rel link) "nofollow" in
  let isSponsored := truthy (rel link) && includes (rel link) "sponsored" in
  let isUgc := truthy (rel link) && includes (rel link) "ugc" in
  let hasAnchor := truthy (anchor link) && (0 <? String.length (anchor link))%nat in
  let anchorLength := if truthy (anchor link) then String.length (anchor link) else 0%nat in
  let qualityScore := 100%Z in
  let qualityScore := if isNofollow then (qualityScore - 30)%Z else qualityScore in
  let qualityScore := if isSponsored then (qualityScore - 20)%Z else qualityScore in
  let qualityScore := if isUgc then (qualityScore - 10)%Z else qualityScore in
  let qualityScore := if negb hasAnchor then (qualityScore - 15)%Z else qualityScore in
  let qualityScore :=
    if (100 <? anchorLength)%nat then (qualityScore - 10)%Z else qualityScore in
  let qualityScore :=
    if (anchorLength <? 3)%nat then (qualityScore - 5)%Z else qualityScore in
  mkQuality isNofollow isSponsored isUgc hasAnchor anchorLength
    (Z.max 0 (Z.min 100 qualityScore)).

(** A link with its indicators and its anchor check
    ([{ ...link, ...analyzeLinkQuality(link), ...checkAnchorSpam(...) }]). *)
Record LinkWithQuality : Type := mkLinkWithQuality {
  link : Link;
  quality : Quality;
  anchorSpam : AnchorSpam
}.

(** The object [analyzeBacklinks] returns. *)
Record Analysis : Type := mkAnalysis {
  totalLinks : nat;
  internalLinks : nat;
  externalLinks : nat;
  uniqueExternalDomains : nat;
  spamAnchorsCount : nat;
  spamAnchorsPercentage : Q;
  nofollowLinksCount : nat;
  nofollowPercentage : Q;
  averageQualityScore : Q;
  internal : list LinkWithQuality;
  external : list LinkWithQuality;
  topExternalDomains : list string
}.

(** [(count / total) * 100], or 0 without links. *)
Definition percentage (count total : nat) : Q :=
  if (0 <? total)%nat
  then inject_Z (Z.of_nat count) / inject_Z (Z.of_nat total) * 100
  else 0.

(** [reduce((sum, x) => sum + f(x), 0) / length], or 0 for none. *)
Definition meanOr0 (A : Type) (f : A -> Q) (l : list A) : Q :=
  if (0 <? List.length l)%nat
  then fold_left (fun sum x => sum + f x) l 0 / inject_Z (Z.of_nat (List.length l))
  else 0.

Section Parsing.

(** The HTML library: the [a[href]] elements of a page, in document
    order; [Throw] when the library cannot be loaded or fails. *)
Variable anchorsOf : string -> Client.Outcome (list Anchor).

(** [new URL(href).hostname]; [None] when the constructor throws. *)
Variable hostnameOf : string -> option string.

(** [extractLinks(html)] (lines 9-48). *)
Definition extractLinks (html : string) : list Link :=
  match anchorsOf html with
  | Client.Return anchors =>
      map linkOf (filter (fun a => validHref (attrHref a)) anchors)
  | Client.Throw _ => []
  end.

(** The test of lines 124-130; [None] is the default [domain = null]. *)
Definition isInternalLink (domain : option string) (l : Link) : bool :=
  match domain with
  | Some d =>
      truthy d
      && (includes (href l) d || startsWith (href l) "/" || startsWith (href l) "./")
  | None => false
  end.

Definition withQuality (spamKeywords : list string) (l : Link) : LinkWithQuality :=
  mkLinkWithQuality l (analyzeLinkQuality l) (checkAnchorSpam (anchor l) spamKeywords).

(** The host names added to the [Set] of lines 149-159, in order. *)
Definition hostsOf (links : list LinkWithQuality) : list string :=
  flat_map (fun l =>
              if startsWith (href (link l)) "http" then
                match hostnameOf (href (link l)) with
                | Some h => [h]
                | None => []
                end
              else [])
    links.

(** [analyzeBacklinks(html, spamKeywords, domain)] (lines 114-188). *)
Definition analyzeBacklinks (html : string) (spamKeywords : list string)
  (domain : option string) : Analysis :=
  let links := extractLinks html in
  let internalLinks :=
    map (withQuality spamKeywords) (filter (isInternalLink domain) links) in
  let externalLinks :=
    map (withQuality spamKeywords)
      (filter (fun l => negb (isInternalLink domain l)) links) in
  let externalDomains := HtmlParser.dedup (hostsOf externalLinks) in
  let spamAnchors := filter (fun l => isSpam (anchorSpam l)) externalLinks in
  let nofollowLinks := filter (fun l => isNofollow (quality l)) externalLinks in
  let averageQuality :=
    meanOr0 (fun l => inject_Z (qualityScore (quality l))) externalLinks in
  mkAnalysis (List.length links) (List.length internalLinks) (List.length externalLinks)
    (List.length externalDomains)
    (List.length spamAnchors)
    (percentage (List.length spamAnchors) (List.length externalLinks))
    (List.length nofollowLinks)
    (percentage (List.length nofollowLinks) (List.length externalLinks))
    (Adapter.roundOneDecimal averageQuality)
    internalLinks externalLinks
    (firstn 10 externalDomains).

(** One entry of [spamAnchorsTrend]. *)
Record Trend : Type := mkTrend {
  trendTimestamp : string;
  trendPercentage : Q;
  trendCount : nat
}.

(** The object [analyzeBacklinksHistory] returns; [analyses] is absent
    from the early return. *)
Record History : Type := mkHistory {
  snapshotsAnalyzed : nat;
  averageExternalLinks : Q;
  historyQualityScore : Q;      (* [averageQualityScore] *)
  spamAnchorsTrend : list Trend;
  analyses : option (list (string * Analysis))
}.

(** [analyzeBacklinksHistory(snapshots, spamKeywords, domain)]
    (lines 197-235). *)
Definition analyzeBacklinksHistory (snapshots : list Topic.SnapshotWithHtml)
  (spamKeywords : list string) (domain : option string) : History :=
  let analyses :=
    flat_map (fun snapshot =>
                if truthy (Topic.html snapshot)
                then [(Topic.timestamp snapshot,
                       analyzeBacklinks (Topic.html snapshot) spamKeywords domain)]
                else [])
      snapshots in
  if (List.length analyses =? 0)%nat then
    mkHistory 0 0 0 [] None
  else
    let averageExternalLinks :=
      meanOr0 (fun a => inject_Z (Z.of_nat (externalLinks (snd a)))) analyses in
    let averageQualityScore :=
      meanOr0 (fun a => averageQualityScore (snd a)) analyses in
    mkHistory (List.length analyses)
      (Adapter.roundOneDecimal averageExternalLinks)
      (Adapter.roundOneDecimal averageQualityScore)
      (map (fun a => mkTrend (fst a) (spamAnchorsPercentage (snd a))
                       (spamAnchorsCount (snd a)))
         analyses)
      (Some analyses).

(** The call of the full pipeline,
    [analyzeBacklinksHistory(snapshotsWithHtml, stopWords, domain)], and
    the part of its result the pipeline reads. *)
Definition backlinkData (snapshots : list Topic.SnapshotWithHtml)
  (stopWords : list string) (domain : string)
  : Client.Outcome Metrics.BacklinkData :=
  Client.Return
    (Metrics.mkBacklinkData
       (VNum (Fin (historyQualityScore
                     (analyzeBacklinksHistory snapshots stopWords (Some domain)))))).

End Parsing.

End Backlinks.

(** ** A run of the full pipeline on pages without links *)

Module LinklessScenario.

(** The pages of the scenario above, read by a parser that finds no
    [a[href]] element in them. *)
Definition anchorsOf (_ : string) : Client.Outcome (list Backlinks.Anchor) :=
  Client.Return [].

Definition hostnameOf (_ : string) : option string := None.

Definition run : Adapter.CompleteResult :=
  Adapter.analyzeDomainComplete Scenario.getSnapshots Scenario.getSnapshotHtml
    Scenario.extractTextContent Scenario.extractMetaTags Scenario.domainNameOf
    Scenario.extractTopics (Backlinks.backlinkData anchorsOf hostnameOf)
    Scenario.rankReply (fun _ => true) (fun _ => 7%Z)
    "example.com"%string ["casino"; "poker"]%string 10.

End LinklessScenario.

(** ** Invariants *)

Module Invariant.

(** What the counters of the capture loop of [analyzeDomainForSpam]
    satisfy: the flagged captures are among the analysed ones, the
    largest score lies in [0,10] and is 0 as long as nothing was
    flagged, and the sum of the scores of the flagged captures lies
    between twice their number and their number times the largest
    score. *)
Definition counted (st : Adapter.Loop.State) : Prop :=
  (Adapter.Loop.spamSnapshots st <= Adapter.Loop.successfullyAnalyzed st)%nat
  /\ (0 <= Adapter.Loop.maxSpamScore st <= 10)%Z
  /\ (2 * Z.of_nat (Adapter.Loop.spamSnapshots st) <= Adapter.Loop.totalSpamScore st)%Z
  /\ (Adapter.Loop.totalSpamScore st
      <= Adapter.Loop.maxSpamScore st * Z.of_nat (Adapter.Loop.spamSnapshots st))%Z
  /\ (Adapter.Loop.spamSnapshots st = 0%nat -> Adapter.Loop.maxSpamScore st = 0%Z).

(** The flags of one severity. *)
Definition hasSeverity (s : Topic.Severity) (flag : Topic.RedFlag) : bool :=
  match s, Topic.severity flag with
  | Topic.high, Topic.high | Topic.medium, Topic.medium | Topic.low, Topic.low => true
  | _, _ => false
  end.

Definition countSeverity (s : Topic.Severity) (flags : list Topic.RedFlag) : Z :=
  Z.of_nat (List.length (filter (hasSeverity s) flags)).

End Invariant.

(* ================================================================== *)
(** ** waybackClient.js: fetching the HTML of a capture *)
(* ================================================================== *)

Module Fetcher.

Import Js.
Local Open Scope string_scope.

(** A response of the archive: its status and what [text()] resolves
    to. *)
Record Response : Type := mkResponse {
  status : Z;
  text : Client.Outcome string
}.

(** [response.ok]. *)
Definition ok (r : Response) : bool := (200 <=? status r)%Z && (status r <=? 299)%Z.

(** What the client does that the outside can see: requests and
    delays. *)
Inductive Event : Type :=
| Request (url : string)
| Wait (ms : Z).

(** The client instance: the cache of fetched captures (a [Map], keys
    in insertion order) and what it has done so far, latest last. *)
Record Instance : Type := mkInstance {
  snapshotCache : list (string * Adapter.HtmlResult);
  events : list Event
}.

Definition fresh : Instance := mkInstance [] [].

Definition record (e : Event) (st : Instance) : Instance :=
  mkInstance (snapshotCache st) (events st ++ [e]).

(** [snapshotCache.get(key)] and [snapshotCache.set(key, value)]. *)
Fixpoint cacheGet (key : string) (cache : list (string * Adapter.HtmlResult))
  : option Adapter.HtmlResult :=
  match cache with
  | [] => None
  | (k, v) :: r => if String.eqb k key then Some v else cacheGet key r
  end.

Fixpoint cacheSet (key : string) (value : Adapter.HtmlResult)
  (cache : list (string * Adapter.HtmlResult)) : list (string * Adapter.HtmlResult) :=
  match cache with
  | [] => [(key, value)]
  | (k, v) :: r =>
      if String.eqb k key then (k, value) :: r else (k, v) :: cacheSet key value r
  end.

Definition store (key : string) (value : Adapter.HtmlResult) (st : Instance) : Instance :=
  mkInstance (cacheSet key value (snapshotCache st)) (events st).

(** [`${timestamp}|${originalUrl}`]. *)
Definition cacheKey (snapshot : Client.Snapshot) : string :=
  Client.timestamp snapshot ++ "|" ++ Client.originalUrl snapshot.

(** [buildSnapshotUrl(timestamp, originalUrl)], for a non-empty
    [originalUrl] (the function throws for an empty one, which its one
    caller has excluded). *)
Definition buildSnapshotUrl (timestamp originalUrl : string) : string :=
  "https://web.archive.org/web" ++ "/" ++ timestamp ++ "/" ++ originalUrl.

(** [`https://web.archive.org/web/${timestamp}id_/${originalUrl}`]. *)
Definition rawUrlOf (timestamp originalUrl : string) : string :=
  "https://web.archive.org/web/" ++ timestamp ++ "id_/" ++ originalUrl.

(** [isWaybackWrapperHtml(html)]. *)
Definition isWaybackWrapperHtml (html : string) : bool :=
  truthy html
  && includes html "Wayback Machine"
  && (includes html "playback" || includes html "wm-ipp"
      || includes html "web.archive.org/web").

(** [getBackoffDelay(retryCount)]. *)
Definition getBackoffDelay (retryCount : nat) : Z := (2 ^ Z.of_nat retryCount * 2000)%Z.

(** [/^\d{14}/] matches [s]; then the match is [firstChars 14 s]. *)
Fixpoint firstChars (n : nat) (s : string) : string :=
  match n, s with
  | S k, String c r => String c (firstChars k r)
  | _, _ => EmptyString
  end.

Definition startsWith14Digits (s : string) : bool :=
  (String.length (firstChars 14 s) =? 14)%nat && Topic.allDigits (firstChars 14 s).

(** [a.indexOf(x)]. *)
Fixpoint indexOf (x : string) (a : list string) : option nat :=
  match a with
  | [] => None
  | y :: r => if String.eqb y x then Some 0%nat
              else match indexOf x r with Some i => Some (S i) | None => None end
  end.

(** [parts.join('/')]. *)
Fixpoint joinSlash (parts : list string) : string :=
  match parts with
  | [] => EmptyString
  | [p] => p
  | p :: r => p ++ "/" ++ joinSlash r
  end.

(** The selectors of strategy 3: [#wm-ipp-base + iframe],
    [iframe[src*="/web/"]] and [#playback]. *)
Definition contentSelectors : list string :=
  let quote := String (ascii_of_nat 34) EmptyString in
  [ "#wm-ipp-base + iframe";
    "iframe[src*=" ++ quote ++ "/web/" ++ quote ++ "]";
    "#playback" ].

Section Archive.

(** The timeout of the client, in milliseconds. *)
Variable timeout : Z.

(** The network: the outcome of [fetch(url)], which may depend on all
    the client has done before; an error named [AbortError] is the
    abort by the timer. *)
Variable fetch : list Event -> string -> Client.Outcome Response.

(** [new URL(url).pathname]; [None] when the constructor throws. *)
Variable pathnameOf : string -> option string.

(** The HTML library: [load(html)] and then, for a selector, the [src]
    attribute of the selection ([None] when nothing is selected, the
    empty string when the attribute is missing).  [None] for [load]
    when the library cannot be imported or throws. *)
Variable load : string -> option (string -> option string).

(** [createFetchWithTimeout(url)] (lines 542-562). *)
Definition createFetchWithTimeout (url : string) (st : Instance)
  : Client.Outcome Response * Instance :=
  let st' := record (Request url) st in
  match fetch (events st) url with
  | Client.Return response => (Client.Return response, st')
  | Client.Throw error =>
      if String.eqb (Client.name error) "AbortError"
      then (Client.Throw
              (Client.newError ("Request timeout after " ++ showZ timeout ++ "ms")), st')
      else (Client.Throw error, st')
  end.

(** [parseWaybackSnapshotUrl(snapshotUrl)] (lines 475-511). *)
Definition parseWaybackSnapshotUrl (snapshotUrl : string) : option (string * string) :=
  match pathnameOf snapshotUrl with
  | None => None
  | Some pathname =>
      let pathParts := Metrics.split "/" pathname in
      match indexOf "web" pathParts with
      | None => None
      | Some webIndex =>
          if (List.length pathParts <=? webIndex + 1)%nat then None
          else
            let timestamp := nth (webIndex + 1) pathParts EmptyString in
            if negb (truthy timestamp)
               || negb ((String.length timestamp =? 14)%nat && Topic.allDigits timestamp)
            then
              if startsWith14Digits timestamp
              then Some (firstChars 14 timestamp, joinSlash (skipn (webIndex + 2) pathParts))
              else None
            else Some (timestamp, joinSlash (skipn (webIndex + 2) pathParts))
      end
  end.

(** One attempt of [extractOriginalHtmlFromWaybackWrapper]: fetch the
    URL and accept the page when the response is ok and the page has
    more than 100 characters and is no wrapper; whatever is thrown is
    caught.  [None]: go on with the next attempt. *)
Definition tryContent (url : string) (st : Instance) : option string * Instance :=
  match createFetchWithTimeout url st with
  | (Client.Throw _, st') => (None, st')
  | (Client.Return response, st') =>
      if ok response then
        match text response with
        | Client.Throw _ => (None, st')
        | Client.Return html =>
            if truthy html && (100 <? String.length html)%nat
               && negb (isWaybackWrapperHtml html)
            then (Some html, st')
            else (None, st')
        end
      else (None, st')
  end.

(** [src], made absolute. *)
Definition absoluteUrl (src : string) : string :=
  if startsWith src "http" then src else "https://web.archive.org" ++ src.

(** The attempt for one selector: none when nothing is selected or the
    selection has no [src]. *)
Definition trySelector (select : string -> option string) (selector : string)
  (st : Instance) : option string * Instance :=
  match select selector with
  | Some src => if truthy src then tryContent (absoluteUrl src) st else (None, st)
  | None => (None, st)
  end.

(** The loop over [contentSelectors] (strategy 3). *)
Fixpoint trySelectors (select : string -> option string) (selectors : list string)
  (st : Instance) : option string * Instance :=
  match selectors with
  | [] => (None, st)
  | selector :: rest =>
      match trySelector select selector st with
      | (Some html, st') => (Some html, st')
      | (None, st') => trySelectors select rest st'
      end
  end.

(** [extractOriginalHtmlFromWaybackWrapper(wrapperHtml, snapshotUrl)]
    (lines 577-714). *)
Definition extractOriginalHtmlFromWaybackWrapper (wrapperHtml snapshotUrl : string)
  (st : Instance) : string * Instance :=
  match parseWaybackSnapshotUrl snapshotUrl with
  | None => (wrapperHtml, st)
  | Some (timestamp, originalUrl) =>
      match load wrapperHtml with
      | None => (wrapperHtml, st)
      | Some select =>
          match trySelector select "#playback" st with
          | (Some html, st1) => (html, st1)
          | (None, st1) =>
              match tryContent (rawUrlOf timestamp originalUrl) st1 with
              | (Some html, st2) => (html, st2)
              | (None, st2) =>
                  match trySelectors select contentSelectors st2 with
                  | (Some html, st3) => (html, st3)
                  | (None, st3) => (wrapperHtml, st3)
                  end
              end
          end
      end
  end.

(** The page kept for a response body: the body itself, or what was
    extracted from it when it is a wrapper and the extraction gave
    another page of more than 100 characters (after trimming). *)
Definition unwrap (html url : string) (st : Instance) : string * Instance :=
  if isWaybackWrapperHtml html then
    let '(extracted, st') := extractOriginalHtmlFromWaybackWrapper html url st in
    if truthy extracted && negb (String.eqb extracted html)
       && (100 <? String.length (trim extracted))%nat
    then (extracted, st')
    else (html, st')
  else (html, st).

Definition rateLimitError (maxRetries : nat) : Client.JsError :=
  Client.newError ("Rate limit exceeded after " ++ showZ (Z.of_nat maxRetries)
                   ++ " retries. Please try again later.").

(** [`Failed to fetch snapshot HTML (HTTP ${status}) for ${snapshotUrl}`],
    [status] being ['Unknown'] without a response. *)
Definition fetchFailure (status : option Z) (snapshotUrl : string) : string :=
  "Failed to fetch snapshot HTML (HTTP "
  ++ match status with Some s => showZ s | None => "Unknown" end
  ++ ") for " ++ snapshotUrl.

(** What a call of [getSnapshotHtml] does after its two guards, given
    what a 429 answer leads to ([rateLimited]: the retry, or the
    rate-limit error). *)
Section Strategies.

Variable snapshot : Client.Snapshot.
Variable rateLimited : Instance -> Client.Outcome Adapter.HtmlResult * Instance.

Let timestamp := Client.timestamp snapshot.
Let originalUrl := Client.originalUrl snapshot.
Let key := cacheKey snapshot.
Let snapshotUrl := buildSnapshotUrl timestamp originalUrl.
Let rawUrl := rawUrlOf timestamp originalUrl.

(** Strategy 1, the inner [try] of lines 753-801: [Return (Some r)]
    returns [r] from the function, [Return None] falls through to
    strategy 2, [Throw] goes to the [catch] of line 802. *)
Definition rawStrategy (st : Instance)
  : Client.Outcome (option Adapter.HtmlResult) * Instance :=
  match createFetchWithTimeout rawUrl st with
  | (Client.Throw error, st1) => (Client.Throw error, st1)
  | (Client.Return rawResponse, st1) =>
      if (status rawResponse =? 429)%Z then
        match rateLimited st1 with
        | (Client.Return r, st2) => (Client.Return (Some r), st2)
        | (Client.Throw error, st2) => (Client.Throw error, st2)
        end
      else if ok rawResponse then
        match text rawResponse with
        | Client.Throw error => (Client.Throw error, st1)
        | Client.Return html =>
            let '(finalHtml, st2) := unwrap html rawUrl st1 in
            let result := Adapter.mkHtmlResult finalHtml snapshotUrl in
            (Client.Return (Some result), store key result st2)
        end
      else (Client.Return None, st1)
  end.

(** The error of the [catch] of line 867. *)
Definition wrapperFailure (status : option Z) (wrapperError : Client.JsError)
  : Client.JsError :=
  Client.newError (fetchFailure status snapshotUrl ++ ": " ++ Client.message wrapperError).

(** Strategy 2 with its [catch] (lines 812-871). *)
Definition wrapperStrategy (st : Instance)
  : Client.Outcome Adapter.HtmlResult * Instance :=
  match createFetchWithTimeout snapshotUrl st with
  | (Client.Throw error, st1) => (Client.Throw (wrapperFailure None error), st1)
  | (Client.Return wrapperResponse, st1) =>
      let status := Some (Fetcher.status wrapperResponse) in
      if (Fetcher.status wrapperResponse =? 429)%Z then
        match rateLimited st1 with
        | (Client.Return r, st2) => (Client.Return r, st2)
        | (Client.Throw error, st2) => (Client.Throw (wrapperFailure status error), st2)
        end
      else if negb (ok wrapperResponse) then
        (Client.Throw
           (wrapperFailure status (Client.newError (fetchFailure status snapshotUrl))),
         st1)
      else
        match text wrapperResponse with
        | Client.Throw error => (Client.Throw (wrapperFailure status error), st1)
        | Client.Return html =>
            let '(html, st2) := unwrap html snapshotUrl st1 in
            let result := Adapter.mkHtmlResult html snapshotUrl in
            (Client.Return result, store key result st2)
        end
  end.

(** The outer [try] with its [catch] (lines 751-878). *)
Definition strategies (st : Instance) : Client.Outcome Adapter.HtmlResult * Instance :=
  let '(outcome, st') :=
    match rawStrategy st with
    | (Client.Return (Some r), st1) => (Client.Return r, st1)
    | (Client.Return None, st1) => wrapperStrategy st1
    | (Client.Throw rawError, st1) =>
        if negb (includes (Client.message rawError) "timeout")
        then wrapperStrategy st1
        else (Client.Throw rawError, st1)
    end in
  match outcome with
  | Client.Return r => (Client.Return r, st')
  | Client.Throw error =>
      if includes (Client.message error) "timeout"
      then (Client.Throw error, st')
      else (Client.Throw
              (Client.newError ("Failed to fetch snapshot HTML: "
                                ++ Client.message error)), st')
  end.

End Strategies.

(** The body of [getSnapshotHtml] (lines 731-879).  The recursion is on
    the number of retries left, [maxRetries - retryCount]: the test
    [retryCount < maxRetries] is [retriesLeft] being a successor. *)
Fixpoint getSnapshotHtmlLoop (snapshot : Client.Snapshot)
  (retryCount maxRetries retriesLeft : nat) (st : Instance)
  : Client.Outcome Adapter.HtmlResult * Instance :=
  if negb (truthy (Client.timestamp snapshot))
     || negb (truthy (Client.originalUrl snapshot)) then
    (Client.Throw (Client.newError "Snapshot must have timestamp and originalUrl"), st)
  else
    match cacheGet (cacheKey snapshot) (snapshotCache st) with
    | Some cached => (Client.Return cached, st)
    | None =>
        strategies snapshot
          (fun st1 =>
             match retriesLeft with
             | S fewer =>
                 getSnapshotHtmlLoop snapshot (S retryCount) maxRetries fewer
                   (record (Wait (getBackoffDelay retryCount)) st1)
             | O => (Client.Throw (rateLimitError maxRetries), st1)
             end)
          st
    end.

(** [getSnapshotHtml(snapshot, retryCount = 0, maxRetries = 3)]. *)
Definition getSnapshotHtml (snapshot : Client.Snapshot) (retryCount maxRetries : nat)
  (st : Instance) : Client.Outcome Adapter.HtmlResult * Instance :=
  getSnapshotHtmlLoop snapshot retryCount maxRetries (maxRetries - retryCount) st.

End Archive.

(** *** What a call leaves behind *)

(** From [st] to [st']: the cache keeps its entries and the events are
    continued. *)
Definition grows (st st' : Instance) : Prop :=
  (forall k v, cacheGet k (snapshotCache st) = Some v ->
               cacheGet k (snapshotCache st') = Some v)
  /\ exists more, events st' = (events st ++ more)%list.

(** The same with an unchanged cache. *)
Definition continues (st st' : Instance) : Prop :=
  snapshotCache st' = snapshotCache st
  /\ exists more, events st' = (events st ++ more)%list.

(** What a call for the capture with key [key] leaves behind: a
    result is in the cache under that key, a failure leaves the cache
    as it was. *)
Definition settled (key : string) (st : Instance)
  (out : Client.Outcome Adapter.HtmlResult * Instance) : Prop :=
  grows st (snd out)
  /\ (forall r, fst out = Client.Return r ->
                cacheGet key (snapshotCache (snd out)) = Some r)
  /\ (forall e, fst out = Client.Throw e ->
                snapshotCache (snd out) = snapshotCache st).

Definition isRequest (e : Event) : bool :=
  match e with Request _ => true | Wait _ => false end.

Definition requests (l : list Event) : nat := List.length (filter isRequest l).

Definition waits (l : list Event) : list Z :=
  flat_map (fun e => match e with Wait ms => [ms] | Request _ => [] end) l.

End Fetcher.

(* ================================================================== *)
(** * Part II: properties *)
(* ================================================================== *)

(** ** Rounding *)

Lemma round_inject_Z (z : Z) : Js.round (inject_Z z) = z.
Proof.
  unfold Js.round, Qplus, inject_Z, Qfloor. cbn [Qnum Qden].
  change (Z.pos (1 * 2)) with 2%Z.
  symmetry. apply Z.div_unique with (r := 1%Z); lia.
Qed.

Lemma round_times_ten (z : Z) : (Js.round (inject_Z (z * 10)) / 10)%Z = z.
Proof. rewrite round_inject_Z. apply Z.div_mul. lia. Qed.

(** ** Stop-word scoring *)

Section StopWords.

Import Js HtmlParser.

(** [totalOccurrences] is the sum of the counts. *)
Lemma fold_count_shift (l : list Finding) (a : nat) :
  fold_left (fun sum item => (sum + count item)%nat) l a
  = (a + list_sum (map count l))%nat.
Proof.
  revert a. induction l as [|f l IH]; intros a; simpl.
  - lia.
  - rewrite IH. lia.
Qed.

Lemma totalOccurrences_sum (l : list Finding) :
  totalOccurrences l = list_sum (map count l).
Proof. unfold totalOccurrences. now rewrite fold_count_shift. Qed.

(** The code's score is the specification's, read on [found]. *)
Lemma scoreOf_specScore (l : list Finding) :
  scoreOf l
  = specScore (Z.of_nat (List.length l)) (Z.of_nat (totalOccurrences l)).
Proof.
  unfold scoreOf, specScore.
  destruct (Nat.ltb_spec 0 (List.length l)) as [Hpos | Hzero].
  - destruct (Z.eqb_spec (Z.of_nat (List.length l)) 0) as [E | _]; [lia|].
    rewrite (Z.gtb_ltb _ 10), (Z.gtb_ltb _ 5).
    destruct (Z.ltb_spec 10 (Z.of_nat (totalOccurrences l)));
      destruct (Z.ltb_spec 5 (Z.of_nat (totalOccurrences l)));
      try reflexivity; lia.
  - destruct (Z.eqb_spec (Z.of_nat (List.length l)) 0) as [_ | N]; [reflexivity | lia].
Qed.

Lemma filter_weaken (A : Type) (p q : A -> bool) (l : list A) :
  (forall x, p x = true -> q x = true) ->
  filter p (filter q l) = filter p l.
Proof.
  intros H. induction l as [|x l IH]; simpl; [reflexivity|].
  destruct (q x) eqn:Q; simpl.
  - now rewrite IH.
  - destruct (p x) eqn:P; [|exact IH].
    apply H in P. congruence.
Qed.

Lemma filter_swap (A : Type) (p q : A -> bool) (l : list A) :
  filter p (filter q l) = filter q (filter p l).
Proof.
  induction l as [|x l IH]; simpl; [reflexivity|].
  destruct (q x) eqn:Q, (p x) eqn:P; simpl; rewrite ?Q, ?P, IH; reflexivity.
Qed.

Lemma hasWord_snoc (acc : list Finding) (x : string) (n : nat) (y : string) :
  hasWord (acc ++ [mkFinding x n]) y = hasWord acc y || String.eqb x y.
Proof.
  unfold hasWord. rewrite existsb_app. simpl. now rewrite orb_false_r.
Qed.

Lemma fresh_snoc (acc : list Finding) (x : string) (n : nat) (l : list string) :
  filter (fresh (acc ++ [mkFinding x n])) l
  = filter (fresh acc) (filter (fun y => negb (String.eqb y x)) l).
Proof.
  induction l as [|y l IH]; simpl; [reflexivity|].
  unfold fresh at 1. rewrite hasWord_snoc, (String.eqb_sym x y).
  destruct (String.eqb y x); simpl.
  - rewrite orb_true_r. exact IH.
  - rewrite orb_false_r. fold (fresh acc y).
    destruct (fresh acc y); [f_equal|]; exact IH.
Qed.

(** What the [forEach] loop leaves in [found], for any findings it
    starts from. *)
Lemma forEach_found (tl : string) (ws : list string) (acc : list Finding) :
  fold_left (addStopWord tl) ws acc
  = acc ++ map (fun w => mkFinding w (countMatches tl w))
             (filter (fresh acc)
                (dedup (filter (fun w => truthy w && includes tl w)
                          (map normalize ws)))).
Proof.
  revert acc. induction ws as [|w ws IH]; intros acc; simpl.
  - now rewrite app_nil_r.
  - unfold addStopWord at 2. fold (normalize w).
    destruct (truthy (normalize w) && includes tl (normalize w)) eqn:Hocc; simpl.
    + destruct (hasWord acc (normalize w)) eqn:Hin.
      * rewrite IH. unfold fresh at 2. rewrite Hin. simpl.
        rewrite filter_weaken; [reflexivity|].
        intros y Hy. unfold fresh in Hy.
        destruct (String.eqb_spec y (normalize w)) as [-> | _]; [|reflexivity].
        rewrite Hin in Hy. discriminate.
      * rewrite IH. unfold fresh at 2. rewrite Hin. simpl.
        rewrite <- app_assoc. simpl. do 3 f_equal.
        rewrite fresh_snoc. reflexivity.
    + apply IH.
Qed.

Lemma filter_fresh_nil (l : list string) : filter (fresh []) l = l.
Proof.
  induction l as [|y l IH]; simpl; [reflexivity | now rewrite IH].
Qed.

Lemma startsWith_empty_text (w : string) :
  truthy w = true -> startsWith ""%string w = false.
Proof. destruct w; simpl; [discriminate | reflexivity]. Qed.

Lemma occursIn_empty_text (w : string) : occursIn ""%string w = false.
Proof.
  unfold occursIn. simpl. destruct w; simpl; reflexivity.
Qed.

Lemma matchedWords_empty_text (ws : list string) : matchedWords ""%string ws = [].
Proof.
  unfold matchedWords.
  replace (filter (occursIn ""%string) (map normalize ws)) with (@nil string); [reflexivity|].
  induction (map normalize ws) as [|x l IH]; simpl; [reflexivity|].
  now rewrite occursIn_empty_text.
Qed.

(** [found] lists the unique matched words, in the order of the stop-word
    list, each with its number of occurrences. *)
Lemma checkStopWords_found (text : string) (ws : list string) :
  found (checkStopWords text ws)
  = map (fun w => mkFinding w (occurrences text w)) (matchedWords text ws).
Proof.
  unfold checkStopWords.
  destruct text as [|c text]; simpl negb; simpl orb.
  - now rewrite matchedWords_empty_text.
  - destruct ws as [|w ws]; [reflexivity|].
    cbn [List.length Nat.eqb orb found].
    rewrite forEach_found. cbn [app].
    unfold matchedWords, occurrences, occursIn.
    rewrite filter_fresh_nil. reflexivity.
Qed.


Lemma dedup_In (l : list string) (x : string) : In x (dedup l) <-> In x l.
Proof.
  induction l as [|y l IH]; simpl; [tauto|].
  rewrite filter_In, IH.
  destruct (String.eqb_spec x y) as [-> | N]; simpl; intuition congruence.
Qed.

Lemma NoDup_filter (A : Type) (p : A -> bool) (l : list A) :
  NoDup l -> NoDup (filter p l).
Proof.
  induction 1 as [|x l Hx Hl IH]; simpl; [constructor|].
  destruct (p x); [constructor|]; auto.
  rewrite filter_In. tauto.
Qed.

Lemma dedup_NoDup (l : list string) : NoDup (dedup l).
Proof.
  induction l as [|y l IH]; simpl; constructor.
  - rewrite filter_In, String.eqb_refl. simpl. intros [_ H]. discriminate.
  - now apply NoDup_filter.
Qed.

Lemma dedup_nil (l : list string) : dedup l = [] <-> l = [].
Proof. destruct l; simpl; split; congruence. Qed.

(** No unique match exactly when no stop word occurs in the text. *)
Lemma uniqueMatches_zero (text : string) (ws : list string) :
  uniqueMatches text ws = 0%nat
  <-> forall w, In w ws -> occursIn text (normalize w) = false.
Proof.
  unfold uniqueMatches, matchedWords.
  rewrite length_zero_iff_nil, dedup_nil. split.
  - intros E w Hw.
    destruct (occursIn text (normalize w)) eqn:Ho; [|reflexivity].
    assert (In (normalize w) (filter (occursIn text) (map normalize ws))) as Hin.
    { apply filter_In. split; [now apply in_map | exact Ho]. }
    rewrite E in Hin. destruct Hin.
  - intros H.
    destruct (filter (occursIn text) (map normalize ws)) as [|x l] eqn:E; [reflexivity|].
    assert (In x (filter (occursIn text) (map normalize ws))) as Hin
      by (rewrite E; now left).
    apply filter_In in Hin. destruct Hin as [Hm Ho].
    apply in_map_iff in Hm. destruct Hm as [w [<- Hw]].
    rewrite (H w Hw) in Ho. discriminate.
Qed.

Lemma checkStopWords_score (text : string) (ws : list string) :
  score (checkStopWords text ws)
  = specScore (Z.of_nat (uniqueMatches text ws)) (Z.of_nat (totalMatches text ws)).
Proof.
  pose proof (checkStopWords_found text ws) as Hf.
  unfold uniqueMatches, totalMatches.
  assert (Hs : score (checkStopWords text ws) = scoreOf (found (checkStopWords text ws))).
  { unfold checkStopWords.
    destruct (negb (truthy text) || (List.length ws =? 0)%nat); cbn [score found].
    - reflexivity.
    - apply round_times_ten. }
  rewrite Hs, scoreOf_specScore, totalOccurrences_sum, Hf.
  rewrite length_map, map_map. reflexivity.
Qed.

Lemma checkStopWords_count (text : string) (ws : list string) :
  foundCount (checkStopWords text ws) = uniqueMatches text ws.
Proof.
  pose proof (checkStopWords_found text ws) as Hf.
  unfold uniqueMatches. rewrite <- (length_map (fun w => mkFinding w (occurrences text w))).
  rewrite <- Hf. unfold checkStopWords.
  destruct (negb (truthy text) || (List.length ws =? 0)%nat); reflexivity.
Qed.

(** **** C4 *)

(** C4. For every text and stop-word list, [checkStopWords] lists the
    unique stop words that occur in the text with their occurrence
    counts, and its score is 0 when no stop word occurs and otherwise
    min(10, uniqueMatches*2), raised by 2 (capped at 10) when the total
    number of occurrences exceeds 5 and forced to 10 when it exceeds 10.
    On "this casino is great, visit our casino today" with the single
    stop word "casino" it returns found = [{casino, 2}] and score 2. *)
Theorem checkStopWords_score_rule :
  (forall (text : string) (stopWords : list string),
      let r := checkStopWords text stopWords in
      found r
      = map (fun w => mkFinding w (occurrences text w)) (matchedWords text stopWords)
      /\ foundCount r = uniqueMatches text stopWords
      /\ score r = specScore (Z.of_nat (uniqueMatches text stopWords))
                             (Z.of_nat (totalMatches text stopWords))
      /\ (uniqueMatches text stopWords = 0%nat
          <-> forall w, In w stopWords -> occursIn text (normalize w) = false)
      /\ (uniqueMatches text stopWords = 0%nat -> score r = 0%Z))
  /\ checkStopWords "this casino is great, visit our casino today"%string
       ["casino"%string]
     = mkStopWordsCheck [mkFinding "casino"%string 2] 1 2.
Proof.
  split; [|reflexivity].
  intros text ws r.
  repeat split.
  - apply checkStopWords_found.
  - apply checkStopWords_count.
  - apply checkStopWords_score.
  - apply uniqueMatches_zero.
  - apply uniqueMatches_zero.
  - intros E. subst r. rewrite checkStopWords_score, E. reflexivity.
Qed.


(** *** Bounds and monotonicity *)

Lemma specScore_bounds (u t : Z) : (0 <= u)%Z -> (0 <= specScore u t <= 10)%Z.
Proof.
  intros Hu. unfold specScore.
  destruct (Z.eqb_spec u 0); [lia|].
  destruct (Z.ltb_spec 10 t); [lia|].
  destruct (Z.ltb_spec 5 t); lia.
Qed.

(** The rule never loses points when matches are added: it is monotone
    in the number of unique words and in the number of occurrences. *)
Lemma specScore_monotone (u u' t t' : Z) :
  (0 <= u <= u')%Z -> (t <= t')%Z -> (specScore u t <= specScore u' t')%Z.
Proof.
  intros Hu Ht. unfold specScore.
  destruct (Z.eqb_spec u 0), (Z.eqb_spec u' 0);
    destruct (Z.ltb_spec 10 t), (Z.ltb_spec 10 t'),
             (Z.ltb_spec 5 t), (Z.ltb_spec 5 t'); lia.
Qed.

Lemma startsWith_app (t post w : string) :
  startsWith t w = true -> startsWith (t ++ post)%string w = true.
Proof.
  revert t. induction w as [|a w IH]; intros t; [now destruct t, post|].
  destruct t as [|b t]; simpl; [congruence|].
  rewrite !andb_true_iff. intros [E H]. auto.
Qed.

Lemma includes_app (t post w : string) :
  includes t w = true -> includes (t ++ post)%string w = true.
Proof.
  induction t as [|b t IH].
  - simpl. rewrite orb_false_r. intros H.
    destruct w; [|discriminate]. now destruct post.
  - cbn [append includes]. rewrite !orb_true_iff. intros [H | H].
    + left. now apply (startsWith_app (String b t)).
    + right. auto.
Qed.

Lemma includes_prepend (pre t w : string) :
  includes t w = true -> includes (pre ++ t)%string w = true.
Proof.
  intros H. induction pre as [|c pre IH]; [exact H|].
  cbn [append includes]. rewrite IH. apply orb_true_r.
Qed.

(** Summing a pointwise larger weight over a larger set of words. *)
Lemma list_sum_incl (A : Type) (f g : A -> nat) (l l' : list A) :
  NoDup l -> incl l l' -> (forall x, (f x <= g x)%nat) ->
  (list_sum (map f l) <= list_sum (map g l'))%nat.
Proof.
  intros Hnd. revert l'. induction Hnd as [|x l Hx Hnd IH]; intros l' Hincl Hfg.
  - simpl. lia.
  - assert (In x l') as Hin by (apply Hincl; now left).
    apply in_split in Hin. destruct Hin as [l1 [l2 ->]].
    assert (incl l (l1 ++ l2)) as Hincl'.
    { intros y Hy. assert (In y (l1 ++ x :: l2)) as H by (apply Hincl; now right).
      rewrite in_app_iff in *. simpl in H.
      destruct H as [H | [H | H]]; auto. subst y. contradiction. }
    specialize (IH _ Hincl' Hfg).
    rewrite map_app, list_sum_app in *. simpl.
    specialize (Hfg x). lia.
Qed.

End StopWords.

(** ** Stop-word scoring on UTF-16 strings *)

Section UnicodeStopWords.

Import Unicode.

Variable toLowerCase : ustring -> ustring.
Variable canonicalize : N -> N.

Local Abbreviation addWord := (addStopWord toLowerCase canonicalize).
Local Abbreviation check := (checkStopWords toLowerCase canonicalize).
Local Abbreviation matches := (countMatches canonicalize).
Local Abbreviation normal := (fun w : ustring => trim (toLowerCase w)).

Lemma ustring_eqb_eq (a b : ustring) : eqb a b = true <-> a = b.
Proof.
  revert b. induction a as [|x a IH]; intros [|y b]; cbn [eqb];
    try (split; [discriminate | congruence]); [tauto|].
  rewrite andb_true_iff, N.eqb_eq, IH. split; [intros [-> ->] | intros [= -> ->]]; auto.
Qed.

Lemma uhasWord_In (l : list Finding) (w : ustring) :
  hasWord l w = true <-> In w (map word l).
Proof.
  unfold hasWord. rewrite existsb_exists, in_map_iff.
  split; intros [f [H1 H2]]; exists f.
  - apply ustring_eqb_eq in H2. tauto.
  - split; [tauto|]. apply ustring_eqb_eq. tauto.
Qed.

(** *** A longer text *)

Lemma ustartsWith_app (t post w : ustring) :
  startsWith t w = true -> startsWith (t ++ post) w = true.
Proof.
  revert t. induction w as [|a w IH]; intros t; [now destruct t, post|].
  destruct t as [|b t]; cbn [app startsWith]; [congruence|].
  rewrite !andb_true_iff. intros [E H]. auto.
Qed.

Lemma uincludes_app (t post w : ustring) :
  includes t w = true -> includes (t ++ post) w = true.
Proof.
  induction t as [|b t IH].
  - cbn [includes app]. rewrite orb_false_r. intros H.
    destruct w; [|discriminate]. now destruct post.
  - cbn [app includes]. rewrite !orb_true_iff. intros [H | H].
    + left. now apply (ustartsWith_app (b :: t)).
    + right. auto.
Qed.

Lemma uincludes_prepend (pre t w : ustring) :
  includes t w = true -> includes (pre ++ t) w = true.
Proof.
  intros H. induction pre as [|c pre IH]; [exact H|].
  cbn [app includes]. rewrite IH. apply orb_true_r.
Qed.

Lemma umatchesHere_app (t post w : ustring) :
  matchesHere canonicalize t w = true ->
  matchesHere canonicalize (t ++ post) w = true.
Proof.
  revert t. induction w as [|a w IH]; intros t; [now destruct t, post|].
  destruct t as [|b t]; cbn [app matchesHere]; [congruence|].
  rewrite !andb_true_iff. intros [E H]. auto.
Qed.

(** Starting the scan later never finds more matches, and skipping at
    most one pattern length loses at most one match. *)
Lemma ucountMatchesFrom_skip (w t : ustring) :
  (forall k k', (k <= k')%nat ->
      (countMatchesFrom canonicalize w t k' <= countMatchesFrom canonicalize w t k)%nat)
  /\ (forall k j, (j <= List.length w)%nat ->
      (countMatchesFrom canonicalize w t k
       <= S (countMatchesFrom canonicalize w t (k + j)))%nat).
Proof.
  induction t as [|c t [IHB IHA]]; [split; intros; simpl; lia|].
  split.
  - intros [|k] [|k'] Hk; try lia.
    + cbn [countMatchesFrom].
      destruct (matchesHere canonicalize (c :: t) w).
      * specialize (IHB 0%nat k' ltac:(lia)).
        specialize (IHA 0%nat (List.length w - 1)%nat ltac:(lia)).
        simpl in IHA. lia.
      * apply IHB. lia.
    + cbn [countMatchesFrom]. apply IHB. lia.
  - intros [|k] j Hj.
    + destruct j as [|m].
      * rewrite Nat.add_0_r. lia.
      * cbn [countMatchesFrom Nat.add].
        destruct (matchesHere canonicalize (c :: t) w).
        -- specialize (IHB m (List.length w - 1)%nat ltac:(lia)). lia.
        -- apply (IHA 0%nat m). lia.
    + cbn [countMatchesFrom Nat.add]. apply IHA. exact Hj.
Qed.

Lemma ucountMatchesFrom_app (w t post : ustring) (k : nat) :
  (countMatchesFrom canonicalize w t k
   <= countMatchesFrom canonicalize w (t ++ post) k)%nat.
Proof.
  revert k. induction t as [|c t IH]; intros k; [simpl; lia|].
  cbn [app countMatchesFrom]. destruct k as [|k]; [|apply IH].
  destruct (matchesHere canonicalize (c :: t) w) eqn:M.
  - change (c :: t ++ post) with ((c :: t) ++ post).
    rewrite (umatchesHere_app _ post _ M).
    apply le_n_S, IH.
  - destruct (matchesHere canonicalize (c :: t ++ post) w); [|apply IH].
    pose proof (IH 0%nat) as H0.
    destruct (ucountMatchesFrom_skip w (t ++ post)) as [_ HA].
    specialize (HA 0%nat (List.length w - 1)%nat ltac:(lia)).
    simpl in HA. lia.
Qed.

Lemma ucountMatchesFrom_prepend (w pre t : ustring) :
  (countMatchesFrom canonicalize w t 0
   <= countMatchesFrom canonicalize w (pre ++ t) 0)%nat.
Proof.
  induction pre as [|c pre IH]; [simpl; lia|].
  cbn [app countMatchesFrom].
  destruct (matchesHere canonicalize (c :: pre ++ t) w); [|exact IH].
  destruct (ucountMatchesFrom_skip w (pre ++ t)) as [_ HA].
  specialize (HA 0%nat (List.length w - 1)%nat ltac:(lia)).
  simpl in HA. lia.
Qed.

(** A text that contains another includes the words it includes and
    has at least as many matches of each. *)
Lemma uincludes_extend (before t after w : ustring) :
  includes t w = true -> includes (before ++ t ++ after) w = true.
Proof. intros H. now apply uincludes_prepend, uincludes_app. Qed.

Lemma ucountMatches_extend (before t after w : ustring) :
  (matches t w <= matches (before ++ t ++ after) w)%nat.
Proof.
  unfold countMatches.
  etransitivity; [apply (ucountMatchesFrom_app w t after)|].
  apply ucountMatchesFrom_prepend.
Qed.

(** *** What the loop collects *)

Lemma NoDup_snoc (A : Type) (l : list A) (x : A) :
  NoDup l -> ~ In x l -> NoDup (l ++ [x]).
Proof.
  induction 1 as [|y l Hy Hl IH]; intros Hx; cbn [app].
  - constructor; [intros [] | constructor].
  - constructor.
    + rewrite in_app_iff. cbn [In]. intros [H | [H | []]]; [auto|].
      apply Hx. now left.
    + apply IH. intros H. apply Hx. now right.
Qed.

(** The findings of the [forEach] loop over [ws], started from [acc]:
    the words stay distinct; the words are those of [acc] and the
    normalised stop words that the text includes; and every new finding
    carries the number of matches of its word. *)
Lemma uforEach_words (tl : ustring) (ws : list ustring) (acc : list Finding) :
  let out := fold_left (addWord tl) ws acc in
  (NoDup (map word acc) -> NoDup (map word out))
  /\ (forall x, In x (map word out) <->
                In x (map word acc)
                \/ exists w, In w ws /\ x = normal w
                             /\ truthy x = true /\ includes tl x = true)
  /\ (forall f, In f out -> In f acc \/ count f = matches tl (word f)).
Proof.
  revert acc. induction ws as [|w ws IH]; intros acc; cbn [fold_left].
  - repeat split; auto.
    + intros [H | [w [[] _]]]. exact H.
  - destruct (IH (addWord tl acc w)) as (IH1 & IH2 & IH3).
    unfold addStopWord in IH1, IH2, IH3 |- *.
    destruct (truthy (normal w) && includes tl (normal w)) eqn:Hocc.
    + apply andb_true_iff in Hocc. destruct Hocc as [Ht Hi].
      destruct (hasWord acc (normal w)) eqn:Hin.
      * apply uhasWord_In in Hin. repeat split.
        -- exact IH1.
        -- rewrite IH2. intros [H | [v [Hv H]]]; [now left | right].
           exists v. split; [now right | exact H].
        -- rewrite IH2. intros [H | [v [[<- | Hv] H]]]; [now left | |].
           ++ left. destruct H as [-> _]. exact Hin.
           ++ right. exists v. tauto.
        -- exact IH3.
      * assert (Hnot : ~ In (normal w) (map word acc)).
        { intros H. apply uhasWord_In in H. congruence. }
        rewrite map_app in IH1, IH2. cbn [map word] in IH1, IH2.
        repeat split.
        -- intros Hnd. apply IH1. now apply NoDup_snoc.
        -- rewrite IH2, in_app_iff. cbn [In].
           intros [[H | [<- | []]] | [v [Hv H]]].
           ++ now left.
           ++ right. exists w. repeat split; auto.
           ++ right. exists v. split; [now right | exact H].
        -- rewrite IH2, in_app_iff. cbn [In].
           intros [H | [v [[<- | Hv] H]]].
           ++ left. now left.
           ++ left. right. left. symmetry. tauto.
           ++ right. exists v. tauto.
        -- intros f Hf. destruct (IH3 f Hf) as [H | H]; [|now right].
           apply in_app_iff in H. destruct H as [H | [<- | []]]; [now left | now right].
    + repeat split.
      * exact IH1.
      * rewrite IH2. intros [H | [v [Hv H]]]; [now left | right].
        exists v. split; [now right | exact H].
      * rewrite IH2. intros [H | [v [[<- | Hv] H]]]; [now left | |].
        -- exfalso. destruct H as (-> & Ht & Hi). rewrite Ht, Hi in Hocc. discriminate.
        -- right. exists v. tauto.
      * exact IH3.
Qed.

(** [found] for any text and stop words. *)
Lemma ufound_spec (text : ustring) (ws : list ustring) :
  let out := found (check text ws) in
  NoDup (map word out)
  /\ (forall x, In x (map word out) <->
                truthy text = true
                /\ exists w, In w ws /\ x = normal w /\ truthy x = true
                             /\ includes (toLowerCase text) x = true)
  /\ (forall f, In f out -> count f = matches (toLowerCase text) (word f)).
Proof.
  unfold checkStopWords.
  destruct (truthy text) eqn:Ht; cbn [negb orb].
  - destruct ws as [|w0 ws0] eqn:Ews.
    + cbn. repeat split; try tauto; try constructor.
      intros (_ & w & [] & _).
    + rewrite <- Ews.
      replace (List.length ws =? 0)%nat with false by (subst ws; reflexivity).
      cbn [found].
      destruct (uforEach_words (toLowerCase text) ws []) as (H1 & H2 & H3).
      split; [apply H1; constructor|]. split.
      * intros x. rewrite H2. cbn [map In]. split.
        -- intros [[] | H]. split; [reflexivity | exact H].
        -- intros (_ & H). now right.
      * intros f Hf. destruct (H3 f Hf) as [[] | H]. exact H.
  - cbn [found map]. split; [constructor|]. split.
    + intros x. split; [intros [] | intros (H & _); discriminate H].
    + intros f [].
Qed.

Lemma ufold_count_shift (l : list Finding) (a : nat) :
  fold_left (fun sum item => (sum + count item)%nat) l a
  = (a + list_sum (map count l))%nat.
Proof.
  revert a. induction l as [|f l IH]; intros a; simpl; [lia|].
  rewrite IH. lia.
Qed.

(** The score is the scoring rule applied to the number of findings and
    to the sum of their counts. *)
Lemma ucheck_score (text : ustring) (ws : list ustring) :
  score (check text ws)
  = HtmlParser.specScore
      (Z.of_nat (List.length (found (check text ws))))
      (Z.of_nat (list_sum (map count (found (check text ws)))))
  /\ foundCount (check text ws) = List.length (found (check text ws)).
Proof.
  unfold checkStopWords.
  destruct (negb (truthy text) || (List.length ws =? 0)%nat); [split; reflexivity|].
  cbn [score found foundCount]. split; [|reflexivity].
  rewrite round_times_ten.
  set (l := fold_left _ ws []).
  unfold scoreOf, HtmlParser.specScore, totalOccurrences.
  rewrite ufold_count_shift. cbn [Nat.add].
  destruct (Nat.ltb_spec 0 (List.length l)) as [Hpos | Hzero].
  - destruct (Z.eqb_spec (Z.of_nat (List.length l)) 0) as [E | _]; [lia|].
    rewrite (Z.gtb_ltb _ 10), (Z.gtb_ltb _ 5).
    destruct (Z.ltb_spec 10 (Z.of_nat (list_sum (map count l))));
      destruct (Z.ltb_spec 5 (Z.of_nat (list_sum (map count l))));
      try reflexivity; lia.
  - destruct (Z.eqb_spec (Z.of_nat (List.length l)) 0) as [_ | N]; [reflexivity | lia].
Qed.

Lemma ucounts_of_words (text : ustring) (ws : list ustring) :
  map count (found (check text ws))
  = map (matches (toLowerCase text)) (map word (found (check text ws))).
Proof.
  destruct (ufound_spec text ws) as (_ & _ & H).
  rewrite map_map. apply map_ext_in. exact H.
Qed.

(** Extending the stop-word list and the text, when the lower-cased
    longer text contains the lower-cased text. *)
Lemma ucheck_monotone
  (text pre post before after : ustring) (stopWords stopWords' : list ustring) :
  incl stopWords stopWords' ->
  toLowerCase (pre ++ text ++ post) = before ++ toLowerCase text ++ after ->
  (foundCount (check text stopWords)
   <= foundCount (check (pre ++ text ++ post) stopWords'))%nat
  /\ (score (check text stopWords)
      <= score (check (pre ++ text ++ post) stopWords'))%Z.
Proof.
  set (text' := pre ++ text ++ post).
  destruct (ucheck_score text stopWords) as [Es Ec].
  destruct (ucheck_score text' stopWords') as [Es' Ec'].
  intros Hincl Hlow.
  destruct (ufound_spec text stopWords) as (Hnd & Hw & _).
  destruct (ufound_spec text' stopWords') as (_ & Hw' & _).
  assert (Hsub : incl (map word (found (check text stopWords)))
                      (map word (found (check text' stopWords')))).
  { intros x Hx. apply Hw in Hx. destruct Hx as (Ht & w & Hin & Hx & Htx & Hi).
    apply Hw'. split.
    - subst text'. destruct text; [discriminate Ht|]. now destruct pre.
    - exists w. repeat split; auto.
      rewrite Hlow. now apply uincludes_extend. }
  assert (Hlen : (List.length (found (check text stopWords))
                  <= List.length (found (check text' stopWords')))%nat).
  { rewrite <- (length_map word (found (check text stopWords))).
    rewrite <- (length_map word (found (check text' stopWords'))).
    now apply NoDup_incl_length. }
  assert (Hsum : (list_sum (map count (found (check text stopWords)))
                  <= list_sum (map count (found (check text' stopWords'))))%nat).
  { rewrite !ucounts_of_words. apply list_sum_incl; [exact Hnd | exact Hsub |].
    intros x. rewrite Hlow. apply ucountMatches_extend. }
  split.
  - rewrite Ec, Ec'. exact Hlen.
  - rewrite Es, Es'. apply specScore_monotone; lia.
Qed.

Lemma ucheck_bounds (text : ustring) (stopWords : list ustring) :
  (0 <= score (check text stopWords) <= 10)%Z.
Proof.
  destruct (ucheck_score text stopWords) as [Es _].
  rewrite Es. apply specScore_bounds. lia.
Qed.

End UnicodeStopWords.

Section UnicodeCase.

Import Unicode.

(** Without a capital sigma the conversion goes character by
    character, whatever stands before. *)
Lemma lowerFrom_ascii (before s : ustring) :
  isAscii s = true ->
  lowerFrom before s = map (fun c => if isUpperLatin c then (c + 32)%N else c) s.
Proof.
  revert before. induction s as [|c r IH]; intros before; [reflexivity|].
  cbn [isAscii forallb]. rewrite andb_true_iff. intros [Hc Hr].
  cbn [lowerFrom map]. rewrite (IH (c :: before) Hr).
  apply N.ltb_lt in Hc.
  destruct (N.eqb_spec c capitalSigma) as [E | _]; [|reflexivity].
  unfold capitalSigma in E. lia.
Qed.

(** Lower-casing ASCII text around ASCII text leaves the lower-cased
    text in place. *)
Lemma lowerCase_ascii_extend (pre text post : ustring) :
  isAscii (pre ++ text ++ post) = true ->
  lowerCase (pre ++ text ++ post) = lowerCase pre ++ lowerCase text ++ lowerCase post.
Proof.
  intros H. unfold lowerCase. rewrite (lowerFrom_ascii [] _ H).
  unfold isAscii in H. rewrite !forallb_app, !andb_true_iff in H.
  destruct H as (H1 & H2 & H3).
  rewrite !lowerFrom_ascii by assumption. now rewrite !map_app.
Qed.

(** **** C5 *)

(** C5. For all stop-word lists and texts the score of [checkStopWords]
    lies in [0,10].  When the stop-word list is extended, and the text
    is extended on either side in such a way that the lower-cased longer
    text contains the lower-cased text, the number of unique matched
    words does not decrease and neither does the score.  Extending ASCII
    text by ASCII text is such a way. *)
Theorem checkStopWords_score_bounded_monotone
  (toLowerCase : ustring -> ustring) (canonicalize : N -> N)
  (text pre post before after : ustring) (stopWords stopWords' : list ustring) :
  let check := checkStopWords toLowerCase canonicalize in
  let text' := pre ++ text ++ post in
  (0 <= score (check text stopWords) <= 10)%Z
  /\ (incl stopWords stopWords' ->
      toLowerCase text' = before ++ toLowerCase text ++ after ->
      (foundCount (check text stopWords) <= foundCount (check text' stopWords'))%nat
      /\ (score (check text stopWords) <= score (check text' stopWords'))%Z)
  /\ (isAscii text' = true ->
      lowerCase text' = lowerCase pre ++ lowerCase text ++ lowerCase post).
Proof.
  intros check text'. split; [apply ucheck_bounds|]. split.
  - now apply ucheck_monotone.
  - apply lowerCase_ascii_extend.
Qed.

End UnicodeCase.

(** ** Domain metrics *)

Section DomainMetrics.

Import Js Metrics.

Lemma add_NaN_l (n : num) : add NaN n = NaN.
Proof. reflexivity. Qed.

Lemma addFactor_NaN (v : value) (term : num) (k : nat) :
  fst (addFactor v term (NaN, k)) = NaN.
Proof. unfold addFactor. destruct (notNull v); reflexivity. Qed.

Lemma addFactor_count (v : value) (term : num) (acc : num * nat) :
  (snd acc <= snd (addFactor v term acc))%nat.
Proof. unfold addFactor. destruct (notNull v); simpl; lia. Qed.

(** **** C1 *)

(** C1 (the code departs from it). When the domain-rank lookup fails,
    [getDomainMetrics] counts the missing rating as a sub-metric and
    returns [NaN] as overallQualityScore, whatever the other two lookups
    gave; with domain authority 45 and trust flow 20 the mean of the
    obtained sub-metrics is 33. *)
Theorem getDomainMetrics_rank_lookup_failed :
  (forall (daMetrics : option DaMetrics) (tfMetrics : option TfMetrics),
      overallQualityScore (getDomainMetrics None daMetrics tfMetrics) = VNum NaN)
  /\ specQualityScore
       (obtainedSubMetrics None (Some (mkDaMetrics 45)) (Some (mkTfMetrics 20 18)))
     = Some 33%Z.
Proof.
  split; [|reflexivity].
  intros da tf. unfold getDomainMetrics.
  cbn [toNumber mul min].
  unfold addFactor at 3. cbn [notNull fst snd add].
  destruct (addFactor _ _ (addFactor _ _ (NaN, 1%nat))) as [q f] eqn:E.
  assert (Hq : q = NaN).
  { change q with (fst (q, f)). rewrite <- E.
    set (inner := addFactor _ _ (NaN, 1%nat)).
    assert (Hi : fst inner = NaN) by apply addFactor_NaN.
    destruct inner as [a b]. simpl in Hi. subst a. apply addFactor_NaN. }
  assert (Hf : (1 <= f)%nat).
  { change f with (snd (q, f)). rewrite <- E.
    etransitivity; [|apply addFactor_count].
    apply (addFactor_count _ _ (NaN, 1%nat)). }
  subst q. cbn [overallQualityScore].
  destruct (Nat.ltb_spec 0 f); [reflexivity | lia].
Qed.

(** When the rank service answers (with a rating or with none) and the
    two estimates are there, the score is the rounded mean of the
    sub-metrics obtained: a rating that is [null] is skipped. *)
Lemma getDomainMetrics_rank_answered (o : OprMetrics) (d : DaMetrics) (t : TfMetrics) :
  (oprDomainRating o = VNull \/ exists q, oprDomainRating o = VNum (Fin q)) ->
  exists z,
    specQualityScore (obtainedSubMetrics (Some o) (Some d) (Some t)) = Some z
    /\ overallQualityScore (getDomainMetrics (Some o) (Some d) (Some t))
       = VNum (Fin (inject_Z z)).
Proof.
  intros [Hn | [q Hq]]; unfold getDomainMetrics, obtainedSubMetrics, specQualityScore.
  - rewrite Hn.
    cbn [addFactor notNull toNumber add fst snd Nat.ltb Nat.leb app obtained
         finiteNumber daDomainAuthority tfTrustFlow List.length div roundNum
         overallQualityScore].
    assert (N : Qeq_bool (inject_Z (Z.of_nat 2)) 0 = false) by reflexivity.
    rewrite N. eexists. split; [reflexivity|].
    cbn [roundNum]. do 3 f_equal. unfold Js.round. apply Qfloor_comp.
    unfold Qsum. cbn [fold_right]. field.
  - rewrite Hq.
    cbn [addFactor notNull toNumber add mul min fst snd Nat.ltb Nat.leb app obtained
         finiteNumber daDomainAuthority tfTrustFlow List.length div roundNum
         overallQualityScore].
    assert (N : Qeq_bool (inject_Z (Z.of_nat 3)) 0 = false) by reflexivity.
    rewrite N. eexists. split; [reflexivity|].
    cbn [roundNum]. do 3 f_equal. unfold Js.round. apply Qfloor_comp.
    unfold Qsum. cbn [fold_right]. field.
Qed.

End DomainMetrics.

(** ** Risk aggregation *)

Section Risk.

Import Js Adapter.

Lemma Qmin_spec (x y : Q) : Js.Qmin x y <= x /\ Js.Qmin x y <= y
                            /\ (Js.Qmin x y = x \/ Js.Qmin x y = y).
Proof.
  unfold Js.Qmin. destruct (Qle_bool x y) eqn:E.
  - apply Qle_bool_iff in E. split; [lra | split; [lra | now left]].
  - assert (~ x <= y) by (rewrite <- Qle_bool_iff; congruence).
    split; [lra | split; [lra | now right]].
Qed.

Lemma Qmax_spec (x y : Q) : x <= Js.Qmax x y /\ y <= Js.Qmax x y.
Proof.
  unfold Js.Qmax. destruct (Qle_bool x y) eqn:E.
  - apply Qle_bool_iff in E. split; lra.
  - assert (~ x <= y) by (rewrite <- Qle_bool_iff; congruence).
    split; lra.
Qed.

Lemma clamp_bounds (x : Q) : 0 <= clamp x <= 100.
Proof.
  unfold clamp.
  destruct (Qmin_spec 100 (Js.Qmax 0 x)) as [H1 [H2 [E | E]]];
    destruct (Qmax_spec 0 x) as [H3 H4]; rewrite E in *; split; lra.
Qed.

Lemma Qle_bool_false (x y : Q) : Qle_bool x y = false <-> y < x.
Proof.
  split; intros H.
  - apply Qnot_le_lt. rewrite <- Qle_bool_iff. congruence.
  - destruct (Qle_bool x y) eqn:E; [|reflexivity].
    apply Qle_bool_iff in E. lra.
Qed.

(** The score handed to the decision chain is the clamped value: the
    branch for a non-finite score is never taken. *)
Lemma aggregateRisk_score_clamped
  (maxSpam averageQuality overallQuality stability : Js.value)
  (redFlags : list Topic.RedFlag) :
  exists x, overallRiskScore
              (aggregateRisk maxSpam averageQuality overallQuality stability redFlags)
            = clamp x.
Proof.
  unfold aggregateRisk.
  destruct (fold_left _ _ _) as [weighted totalWeight].
  match goal with
  | |- context [Js.min (Fin 100) (Js.max (Fin 0) ?s)] => set (score := s)
  end.
  assert (Hs : exists x, score = Fin x).
  { subst score. destruct (negb (Qle_bool totalWeight 0)); [eauto|].
    destruct (spamRiskOf maxSpam); eauto. }
  destruct Hs as [x Hx]. rewrite Hx. cbn [Js.max Js.min isFinite negb].
  destruct (baseRecommendation _ _ _) as [rec0 reason0].
  destruct (additionalFactor _ _ _ _) as [rcm reasons].
  exists x. reflexivity.
Qed.

Lemma riskLevelOf_AVOID (v : Q) : riskLevelOf v AVOID = HIGH.
Proof.
  unfold riskLevelOf. cbn [recommendation_eqb]. rewrite orb_true_r. reflexivity.
Qed.

Lemma aggregateRisk_level
  (maxSpam averageQuality overallQuality stability : Js.value)
  (redFlags : list Topic.RedFlag) :
  let r := aggregateRisk maxSpam averageQuality overallQuality stability redFlags in
  riskLevel r = riskLevelOf (overallRiskScore r) (recommendation r).
Proof.
  unfold aggregateRisk.
  destruct (fold_left _ _ _) as [weighted totalWeight].
  destruct (baseRecommendation _ _ _) as [rec0 reason0].
  destruct (additionalFactor _ _ _ _) as [rcm reasons].
  reflexivity.
Qed.

(** **** C3 *)

(** C3. For every combination of present and absent scores and every
    list of red flags, the aggregation returns an overallRiskScore that
    is a finite number between 0 and 100, and a riskLevel that is HIGH
    whenever the recommendation is AVOID. *)
Theorem aggregateRisk_score_range_and_level
  (maxSpam averageQuality overallQuality stability : Js.value)
  (redFlags : list Topic.RedFlag) :
  let r := aggregateRisk maxSpam averageQuality overallQuality stability redFlags in
  0 <= overallRiskScore r <= 100
  /\ (recommendation r = AVOID -> riskLevel r = HIGH).
Proof.
  intros r. split.
  - destruct (aggregateRisk_score_clamped maxSpam averageQuality overallQuality
                stability redFlags) as [x Hx].
    subst r. rewrite Hx. apply clamp_bounds.
  - intros Hr. subst r. rewrite aggregateRisk_level, Hr. apply riskLevelOf_AVOID.
Qed.

Lemma aggregateRisk_score_range_and_level_witness :
  let r := aggregateRisk (VNum (Fin 9)) (VNum (Fin 80)) VNull (VNum NaN) [] in
  recommendation r = AVOID /\ riskLevel r = HIGH.
Proof.
  split; [reflexivity|].
  apply (aggregateRisk_score_range_and_level
           (VNum (Fin 9)) (VNum (Fin 80)) VNull (VNum NaN) []).
  reflexivity.
Defined.

(** *** The recommendation *)

Lemma baseRecommendation_precedence (spamRisk : option Q) (penalty : Z) (score : Q) :
  Precedence spamRisk penalty score (fst (baseRecommendation spamRisk penalty score)).
Proof.
  unfold baseRecommendation.
  destruct spamRisk as [r|].
  - destruct (Qle_bool 80 r) eqn:E80.
    { apply Qle_bool_iff in E80. apply P_spam with r; [reflexivity | lra]. }
    destruct (Qle_bool 50 r) eqn:E50.
    { apply Qle_bool_iff in E50. now apply P_spam with r. }
    apply Qle_bool_false in E50.
    assert (Hs : forall r', Some r = Some r' -> r' < 50)
      by (intros r' [= <-]; exact E50).
    destruct (Z.geb_spec penalty 20); [now apply P_flags|].
    destruct (Qle_bool 70 score) eqn:E70.
    { apply Qle_bool_iff in E70. now apply P_high. }
    apply Qle_bool_false in E70.
    destruct (Qle_bool 55 score) eqn:E55.
    { apply Qle_bool_iff in E55. now apply P_caution. }
    apply Qle_bool_false in E55.
    destruct (Qle_bool 40 score) eqn:E40.
    { apply Qle_bool_iff in E40. apply P_review; auto; lra. }
    destruct (Qle_bool 25 score) eqn:E25.
    { apply Qle_bool_iff in E25. apply P_review; auto. }
    apply Qle_bool_false in E25. now apply P_buy.
  - assert (Hs : forall r', @None Q = Some r' -> r' < 50) by (intros r' [=]).
    destruct (Z.geb_spec penalty 20); [now apply P_flags|].
    destruct (Qle_bool 70 score) eqn:E70.
    { apply Qle_bool_iff in E70. now apply P_high. }
    apply Qle_bool_false in E70.
    destruct (Qle_bool 55 score) eqn:E55.
    { apply Qle_bool_iff in E55. now apply P_caution. }
    apply Qle_bool_false in E55.
    destruct (Qle_bool 40 score) eqn:E40.
    { apply Qle_bool_iff in E40. apply P_review; auto; lra. }
    destruct (Qle_bool 25 score) eqn:E25.
    { apply Qle_bool_iff in E25. apply P_review; auto. }
    apply Qle_bool_false in E25. now apply P_buy.
Qed.

(** What an "additional factor" does to the recommendation. *)
Lemma additionalFactor_recommendation (risk : option Q) (bound : Q) (note : string)
  (rc : Recommendation) (reasons : list string) :
  (exceeds risk bound ->
   fst (additionalFactor risk bound note (rc, reasons))
   = if recommendation_eqb rc BUY then REVIEW else rc)
  /\ (~ exceeds risk bound ->
      fst (additionalFactor risk bound note (rc, reasons)) = rc).
Proof.
  unfold additionalFactor, exceeds. destruct risk as [r|].
  - destruct (Qle_bool r bound) eqn:E; cbn [negb fst].
    + apply Qle_bool_iff in E. split; [|reflexivity].
      intros [r' [[= <-] H]]. lra.
    + apply Qle_bool_false in E. split; [reflexivity|].
      intros H. exfalso. apply H. eauto.
  - split; [|reflexivity]. intros [r' [[=] _]].
Qed.

Lemma exceeds_dec (risk : option Q) (bound : Q) :
  exceeds risk bound \/ ~ exceeds risk bound.
Proof.
  unfold exceeds. destruct risk as [r|].
  - destruct (Qlt_le_dec bound r); [left; eauto|].
    right. intros [r' [[= <-] H]]. lra.
  - right. intros [r' [[=] _]].
Qed.

(** The recommendation returned, in terms of the decision chain. *)
Lemma aggregateRisk_recommendation
  (maxSpam averageQuality overallQuality stability : Js.value)
  (redFlags : list Topic.RedFlag) :
  let r := aggregateRisk maxSpam averageQuality overallQuality stability redFlags in
  let base := fst (baseRecommendation (spamRiskOf maxSpam) (redFlagPenaltyOf redFlags)
                     (overallRiskScore r)) in
  recommendation r
  = fst (additionalFactor (invertedRisk averageQuality) 60 "Low backlink quality detected"
           (additionalFactor (invertedRisk overallQuality) 70 "Poor domain metrics detected"
              (base, [snd (baseRecommendation (spamRiskOf maxSpam)
                             (redFlagPenaltyOf redFlags) (overallRiskScore r))]))).
Proof.
  unfold aggregateRisk.
  destruct (fold_left _ _ _) as [weighted totalWeight].
  match goal with
  | |- context [baseRecommendation ?a ?b ?c] =>
      destruct (baseRecommendation a b c) as [rec0 reason0] eqn:EB
  end.
  destruct (additionalFactor _ _ _ (additionalFactor _ _ _ _)) as [rcm reasons] eqn:EA.
  cbn [recommendation overallRiskScore]. cbv zeta. rewrite EB. cbn [fst snd].
  rewrite EA. reflexivity.
Qed.

(** **** C2 *)

(** C2 (amended). The decision chain gives AVOID for spam-risk >= 80, for
    spam-risk >= 50, for redFlagPenalty >= 20 and for overallRiskScore
    >= 70, CAUTION from 55, REVIEW from 40 and from 25, and BUY otherwise,
    the first match winning; the recommendation returned is that one,
    except that BUY is turned into REVIEW when the domain-metrics risk
    exceeds 70 or the backlink risk exceeds 60.  In particular an
    analysis with spam-risk below 50, redFlagPenalty below 20 and
    overallRiskScore below 25 receives BUY when neither of these two
    risks exceeds its bound, and REVIEW otherwise. *)
Theorem aggregateRisk_recommendation_precedence
  (maxSpam averageQuality overallQuality stability : Js.value)
  (redFlags : list Topic.RedFlag) :
  let r := aggregateRisk maxSpam averageQuality overallQuality stability redFlags in
  let spamRisk := spamRiskOf maxSpam in
  let redFlagPenalty := redFlagPenaltyOf redFlags in
  let downgraded :=
    exceeds (invertedRisk overallQuality) 70 \/ exceeds (invertedRisk averageQuality) 60 in
  (exists base,
      Precedence spamRisk redFlagPenalty (overallRiskScore r) base
      /\ (base <> BUY -> recommendation r = base)
      /\ (base = BUY -> downgraded -> recommendation r = REVIEW)
      /\ (base = BUY -> ~ downgraded -> recommendation r = BUY))
  /\ ((forall s, spamRisk = Some s -> s < 50) ->
      (redFlagPenalty < 20)%Z ->
      overallRiskScore r < 25 ->
      (~ downgraded -> recommendation r = BUY)
      /\ (downgraded -> recommendation r = REVIEW)).
Proof.
  intros r spamRisk redFlagPenalty downgraded.
  pose proof (aggregateRisk_recommendation maxSpam averageQuality overallQuality
                stability redFlags) as Hrec.
  cbv zeta in Hrec. fold r spamRisk redFlagPenalty in Hrec.
  pose proof (baseRecommendation_precedence spamRisk redFlagPenalty (overallRiskScore r))
    as Hprec.
  set (base := fst (baseRecommendation spamRisk redFlagPenalty (overallRiskScore r))) in *.
  set (reason := snd (baseRecommendation spamRisk redFlagPenalty (overallRiskScore r))) in *.
  assert (Hcases :
            (base <> BUY -> recommendation r = base)
            /\ (base = BUY -> downgraded -> recommendation r = REVIEW)
            /\ (base = BUY -> ~ downgraded -> recommendation r = BUY)).
  { rewrite Hrec.
    destruct (additionalFactor (invertedRisk overallQuality) 70
                "Poor domain metrics detected" (base, [reason])) as [rc1 rs1] eqn:E1.
    pose proof (additionalFactor_recommendation (invertedRisk overallQuality) 70
                  "Poor domain metrics detected" base [reason]) as [M1 M2].
    rewrite E1 in M1, M2. cbn [fst] in M1, M2.
    pose proof (additionalFactor_recommendation (invertedRisk averageQuality) 60
                  "Low backlink quality detected" rc1 rs1) as [B1 B2].
    subst downgraded.
    destruct (exceeds_dec (invertedRisk overallQuality) 70) as [Hm | Hm];
      destruct (exceeds_dec (invertedRisk averageQuality) 60) as [Hb | Hb];
      [ rewrite (B1 Hb), (M1 Hm) | rewrite (B2 Hb), (M1 Hm)
      | rewrite (B1 Hb), (M2 Hm) | rewrite (B2 Hb), (M2 Hm) ];
      destruct base; cbn [recommendation_eqb];
      repeat split; intros; try congruence; try tauto. }
  split.
  - exists base. split; [exact Hprec | exact Hcases].
  - intros Hs Hp Hscore.
    assert (Hb : base = BUY).
    { inversion Hprec as [s Es Hle | _ Hge | _ _ Hge | _ _ Hge _ | _ _ Hge _ | _ _ _];
        try reflexivity; try lia; try lra.
      specialize (Hs s Es). lra. }
    destruct Hcases as [_ [H1 H2]]. split; auto.
Qed.

Lemma aggregateRisk_recommendation_precedence_witness :
  recommendation
    (aggregateRisk (VNum (Fin 1)) (VNum (Fin 90)) (VNum (Fin 60)) (VNum (Fin 95)) [])
  = BUY.
Proof.
  apply (aggregateRisk_recommendation_precedence
           (VNum (Fin 1)) (VNum (Fin 90)) (VNum (Fin 60)) (VNum (Fin 95)) []).
  - intros s [= <-]. reflexivity.
  - reflexivity.
  - reflexivity.
  - intros [[x [[= <-] H]] | [x [[= <-] H]]]; discriminate H.
Defined.

(** The claim as first stated fails: with no spam, no red flag and an
    overall score of 18, poor domain metrics turn BUY into REVIEW. *)
Lemma low_risk_is_not_always_BUY :
  ~ (forall (maxSpam averageQuality overallQuality stability : Js.value)
            (redFlags : list Topic.RedFlag),
        let r := aggregateRisk maxSpam averageQuality overallQuality stability redFlags in
        (forall s, spamRiskOf maxSpam = Some s -> s < 50) ->
        (redFlagPenaltyOf redFlags < 20)%Z ->
        overallRiskScore r < 25 ->
        recommendation r = BUY).
Proof.
  intros H.
  specialize (H (VNum (Fin 0)) (VNum (Fin 100)) (VNum (Fin 29)) (VNum (Fin 100)) []).
  cbv zeta in H.
  assert (E : recommendation
                (aggregateRisk (VNum (Fin 0)) (VNum (Fin 100)) (VNum (Fin 29))
                   (VNum (Fin 100)) []) = REVIEW) by reflexivity.
  rewrite E in H.
  discriminate H.
  - intros s [= <-]. reflexivity.
  - reflexivity.
  - reflexivity.
Qed.

End Risk.

(** ** The spam pipeline of one domain *)

Section SpamPipelineFacts.

Import Js Adapter.

Variable getSnapshots : string -> nat -> Client.Outcome (list Client.Snapshot).
Variable getSnapshotHtml : Client.Snapshot -> Client.Outcome HtmlResult.
Variable extractTextContent : string -> option string -> string.
Variable extractMetaTags : string -> option string -> HtmlParser.MetaTags.
Variable domainNameOf : string -> string.

Variable stopWords : list string.
Variable domainName : string.

Local Abbreviation step := (analyzeSnapshot getSnapshotHtml extractTextContent extractMetaTags
              stopWords domainName).
Local Abbreviation isAnalyzed := (analyzed getSnapshotHtml extractTextContent extractMetaTags
                    stopWords domainName).
Local Abbreviation scores := (analyzedScores getSnapshotHtml extractTextContent extractMetaTags
                stopWords domainName).
Local Abbreviation skipped := (skippedCaptures getSnapshotHtml extractTextContent extractMetaTags
                 stopWords domainName).

Local Abbreviation outcome := (fetchAndAnalyze getSnapshotHtml extractTextContent extractMetaTags
                 stopWords domainName).

(** An iteration whose [try] block completes. *)
Lemma step_analyzed (st : Loop.State) (s : Client.Snapshot) (a : HtmlParser.SpamAnalysis) :
  outcome s = Client.Return a ->
  Loop.successfullyAnalyzed (step st s) = S (Loop.successfullyAnalyzed st)
  /\ Loop.failedSnapshots (step st s) = Loop.failedSnapshots st
  /\ Loop.snapshotErrors (step st s) = Loop.snapshotErrors st
  /\ Loop.maxSpamScore (step st s)
     = Z.max (Loop.maxSpamScore st) (HtmlParser.spamScore a).
Proof.
  intros H. unfold analyzeSnapshot. rewrite H.
  destruct (HtmlParser.isSpam a); cbn [Loop.successfullyAnalyzed Loop.failedSnapshots
                                       Loop.snapshotErrors Loop.maxSpamScore];
    destruct (Z.gtb_spec (HtmlParser.spamScore a) (Loop.maxSpamScore st));
    repeat split; lia.
Qed.

(** An iteration that lands in the [catch] clause. *)
Lemma step_failed (st : Loop.State) (s : Client.Snapshot) (e : Client.JsError) :
  outcome s = Client.Throw e ->
  Loop.successfullyAnalyzed (step st s) = Loop.successfullyAnalyzed st
  /\ Loop.failedSnapshots (step st s) = S (Loop.failedSnapshots st)
  /\ Loop.snapshotErrors (step st s)
     = (Loop.snapshotErrors st
        ++ [mkSnapshotError (Client.timestamp s) (Client.originalUrl s) (errorText e)])%list
  /\ Loop.maxSpamScore (step st s) = Loop.maxSpamScore st.
Proof.
  intros H. unfold analyzeSnapshot. rewrite H.
  repeat split.
Qed.

(** What the loop does to the counters, from any state. *)
Lemma loop_counters (snapshots : list Client.Snapshot) (st : Loop.State) :
  (0 <= Loop.maxSpamScore st)%Z ->
  let st' := fold_left step snapshots st in
  Loop.successfullyAnalyzed st'
  = (Loop.successfullyAnalyzed st + List.length (filter isAnalyzed snapshots))%nat
  /\ Loop.failedSnapshots st'
     = (Loop.failedSnapshots st
        + (List.length snapshots - List.length (filter isAnalyzed snapshots)))%nat
  /\ Loop.snapshotErrors st' = (Loop.snapshotErrors st ++ skipped snapshots)%list
  /\ Loop.maxSpamScore st'
     = Z.max (Loop.maxSpamScore st) (maxScore (scores snapshots)).
Proof.
  revert st. induction snapshots as [|s l IH]; intros st Hpos; cbn [fold_left].
  - cbn. rewrite app_nil_r. repeat split; lia.
  - pose proof (filter_length_le isAnalyzed l) as Hle.
    unfold analyzed, analyzedScores, skippedCaptures in *.
    cbn [filter flat_map List.length].
    destruct (outcome s) as [a | e] eqn:E.
    + destruct (step_analyzed st s E) as [S1 [S2 [S3 S4]]].
      destruct (IH (step st s)) as [IH1 [IH2 [IH3 IH4]]]; [lia|].
      rewrite IH1, IH2, IH3, IH4, S1, S2, S3, S4.
      cbn [List.length app]. unfold maxScore. cbn [fold_right].
      repeat split; lia.
    + destruct (step_failed st s E) as [S1 [S2 [S3 S4]]].
      destruct (IH (step st s)) as [IH1 [IH2 [IH3 IH4]]]; [lia|].
      rewrite IH1, IH2, IH3, IH4, S1, S2, S3, S4.
      cbn [List.length app]. rewrite <- app_assoc.
      repeat split; lia.
Qed.

End SpamPipelineFacts.

Section SpamPipelineResult.

Import Js Adapter.

Lemma maxScore_nonneg (l : list Z) : (0 <= maxScore l)%Z.
Proof. unfold maxScore. induction l as [|x l IH]; cbn [fold_right]; lia. Qed.

Lemma finalStatusOf_specStatus (k : nat) (m : Z) :
  (1 <= k)%nat -> finalStatusOf k m = specStatus m.
Proof.
  intros Hk. unfold finalStatusOf, specStatus.
  destruct (Nat.eqb_spec k 0); [lia|].
  destruct (Z.geb_spec m 8), (Z.geb_spec m 5), (Z.ltb_spec m 5), (Z.ltb_spec m 8);
    try reflexivity; lia.
Qed.

Lemma specStatus_cases (m : Z) :
  (specStatus m = CLEAN /\ (m < 5)%Z)
  \/ (specStatus m = SUSPICIOUS /\ (5 <= m < 8)%Z)
  \/ (specStatus m = SPAM /\ (8 <= m)%Z).
Proof.
  unfold specStatus.
  destruct (Z.ltb_spec m 5); [left; split; [reflexivity | lia]|].
  destruct (Z.ltb_spec m 8); [right; left | right; right]; split; try reflexivity; lia.
Qed.

Lemma skippedCaptures_length getSnapshotHtml extractTextContent extractMetaTags
  (stopWords : list string) (domainName : string) (snapshots : list Client.Snapshot) :
  List.length (skippedCaptures getSnapshotHtml extractTextContent extractMetaTags
                 stopWords domainName snapshots)
  = (List.length snapshots
     - List.length (filter (analyzed getSnapshotHtml extractTextContent extractMetaTags
                              stopWords domainName) snapshots))%nat.
Proof.
  induction snapshots as [|s l IH]; [reflexivity|].
  pose proof (filter_length_le
                (analyzed getSnapshotHtml extractTextContent extractMetaTags
                   stopWords domainName) l) as Hle.
  unfold skippedCaptures, analyzed in *. cbn [flat_map filter].
  destruct (fetchAndAnalyze _ _ _ _ _ s); cbn [List.length app];
    rewrite ?length_app, IH; cbn [List.length]; lia.
Qed.

(** **** C6 *)

(** C6. When the capture listing of a domain returns n > 0 captures of
    which k are fetched and analyzed and the others fail, the result of
    [analyzeDomainForSpam] has snapshotsFound = n, snapshotsAnalyzed = k
    and failedSnapshots = n - k; the failed captures are recorded, in
    order, each with its error note, and the run still returns a result;
    with k >= 1 the status is CLEAN, SUSPICIOUS or SPAM according to the
    largest score (< 5, 5 to 7.9, >= 8), never UNAVAILABLE, which is the
    status exactly when k = 0. *)
Theorem analyzeDomainForSpam_partial_failures
  (getSnapshots : string -> nat -> Client.Outcome (list Client.Snapshot))
  (getSnapshotHtml : Client.Snapshot -> Client.Outcome HtmlResult)
  (extractTextContent : string -> option string -> string)
  (extractMetaTags : string -> option string -> HtmlParser.MetaTags)
  (domainNameOf : string -> string)
  (dom : string) (stopWords : list string) (maxSnapshots : nat)
  (snapshots : list Client.Snapshot) :
  getSnapshots dom maxSnapshots = Client.Return snapshots ->
  (0 < List.length snapshots)%nat ->
  let r := analyzeDomainForSpam getSnapshots getSnapshotHtml extractTextContent
             extractMetaTags domainNameOf dom stopWords maxSnapshots in
  let n := List.length snapshots in
  let k := List.length
             (filter (analyzed getSnapshotHtml extractTextContent extractMetaTags
                        stopWords (domainNameOf dom)) snapshots) in
  let skipped := skippedCaptures getSnapshotHtml extractTextContent extractMetaTags
                   stopWords (domainNameOf dom) snapshots in
  let top := maxScore (analyzedScores getSnapshotHtml extractTextContent extractMetaTags
                         stopWords (domainNameOf dom) snapshots) in
  snapshotsFound r = n
  /\ snapshotsAnalyzed r = k
  /\ failedSnapshots r = Some (n - k)%nat
  /\ List.length skipped = (n - k)%nat
  /\ snapshotErrors r = (if (0 <? n - k)%nat then Some skipped else None)
  /\ ((1 <= k)%nat ->
      status r = specStatus top
      /\ (status r = CLEAN \/ status r = SUSPICIOUS \/ status r = SPAM)
      /\ status r <> UNAVAILABLE)
  /\ (status r = UNAVAILABLE <-> k = 0%nat).
Proof.
  intros Hget Hn r n k skipped top.
  assert (Hlen : List.length skipped = (n - k)%nat) by apply skippedCaptures_length.
  subst r. unfold analyzeDomainForSpam. rewrite Hget.
  destruct (Nat.eqb_spec (List.length snapshots) 0) as [E | _]; [lia|].
  destruct (loop_counters getSnapshotHtml extractTextContent extractMetaTags
              stopWords (domainNameOf dom) snapshots Loop.init)
    as [L1 [L2 [L3 L4]]]; [cbn; lia|].
  cbn [Loop.init Loop.successfullyAnalyzed Loop.failedSnapshots Loop.snapshotErrors
       Loop.maxSpamScore Nat.add app] in L1, L2, L3, L4.
  fold k in L1, L2. fold n in L2. fold skipped in L3. fold top in L4.
  pose proof (maxScore_nonneg
                (analyzedScores getSnapshotHtml extractTextContent extractMetaTags
                   stopWords (domainNameOf dom) snapshots)) as Htop.
  fold top in Htop. rewrite Z.max_r in L4 by lia.
  unfold spamReport.
  cbn [snapshotsFound snapshotsAnalyzed failedSnapshots snapshotErrors status].
  rewrite L1, L2, L3, L4, Hlen.
  repeat split.
  - apply finalStatusOf_specStatus. assumption.
  - rewrite finalStatusOf_specStatus by assumption.
    destruct (specStatus_cases top) as [[-> _] | [[-> _] | [-> _]]]; auto.
  - rewrite finalStatusOf_specStatus by assumption.
    destruct (specStatus_cases top) as [[-> _] | [[-> _] | [-> _]]]; discriminate.
  - unfold finalStatusOf. destruct (Nat.eqb_spec k 0); [auto|].
    destruct (top >=? 8)%Z; [discriminate|].
    destruct (top >=? 5)%Z; discriminate.
  - intros ->. reflexivity.
Qed.

End SpamPipelineResult.

(** ** The capture index client *)

Section ClientFacts.

Import Js Client.

(** *** Characters of a decimal rendering *)

Lemma charIn_app (c : ascii) (a b : string) :
  charIn c (a ++ b)%string = charIn c a || charIn c b.
Proof.
  induction a as [|d a IH]; [reflexivity|].
  cbn [append charIn]. rewrite IH. now rewrite orb_assoc.
Qed.

Lemma startsWith_app_disjoint (a b w : string) :
  disjointChars w b = true ->
  startsWith (a ++ b)%string w = true -> startsWith a w = true.
Proof.
  revert a. induction w as [|c w IH]; intros a Hd H; [now destruct a|].
  cbn [disjointChars] in Hd. apply andb_true_iff in Hd. destruct Hd as [Hc Hd].
  destruct a as [|x a].
  - cbn [append] in H. destruct b as [|y b]; [discriminate H|].
    cbn [startsWith] in H. apply andb_true_iff in H. destruct H as [E _].
    cbn [charIn] in Hc. rewrite E in Hc. discriminate Hc.
  - cbn [append startsWith] in *. apply andb_true_iff in H. destruct H as [E H].
    rewrite E. cbn [andb]. now apply IH.
Qed.

Lemma includes_only_chars (b w : string) :
  truthy w = true -> disjointChars w b = true -> includes b w = false.
Proof.
  intros Hw Hd. destruct w as [|c w]; [discriminate Hw|].
  cbn [disjointChars] in Hd. apply andb_true_iff in Hd. destruct Hd as [Hc _].
  induction b as [|y b IH]; [reflexivity|].
  cbn [charIn] in Hc. rewrite negb_orb in Hc. apply andb_true_iff in Hc.
  destruct Hc as [Hy Hb].
  cbn [includes startsWith]. rewrite IH by exact Hb.
  destruct (Ascii.eqb c y); [discriminate Hy | reflexivity].
Qed.

(** A word sharing no character with [b] occurs in [a ++ b] only where
    it occurs in [a]. *)
Lemma includes_app_disjoint (a b w : string) :
  truthy w = true -> disjointChars w b = true ->
  includes (a ++ b)%string w = includes a w.
Proof.
  intros Hw Hd. induction a as [|x a IH].
  - cbn [append]. rewrite (includes_only_chars b w Hw Hd).
    destruct w; [discriminate Hw | reflexivity].
  - cbn [append includes]. rewrite IH.
    destruct (startsWith (String x a) w) eqn:E.
    + change (String x (a ++ b)%string) with (String x a ++ b)%string.
      now rewrite (startsWith_app (String x a) b w E).
    + destruct (startsWith (String x (a ++ b)%string) w) eqn:E'; [|reflexivity].
      change (String x (a ++ b)%string) with (String x a ++ b)%string in E'.
      rewrite (startsWith_app_disjoint _ _ _ Hd E') in E. discriminate E.
Qed.

Lemma string_of_uint_chars (d : Decimal.uint) :
  onlyChars decimalChars (NilEmpty.string_of_uint d) = true.
Proof. induction d; cbn [NilEmpty.string_of_uint onlyChars]; auto. Qed.

Lemma showZ_chars (z : Z) : onlyChars decimalChars (showZ z) = true.
Proof.
  unfold showZ. destruct (Z.to_int z) as [d | d]; cbn [NilEmpty.string_of_int].
  - apply string_of_uint_chars.
  - cbn [onlyChars]. apply string_of_uint_chars.
Qed.

Lemma disjointChars_only (w allowed s : string) :
  disjointChars w allowed = true -> onlyChars allowed s = true ->
  disjointChars w s = true.
Proof.
  intros Hw Hs. induction w as [|c w IH]; [reflexivity|].
  cbn [disjointChars] in *. apply andb_true_iff in Hw. destruct Hw as [Hc Hw].
  rewrite (IH Hw), andb_true_r.
  clear IH Hw. induction s as [|y s IHs]; [reflexivity|].
  cbn [onlyChars] in Hs. apply andb_true_iff in Hs. destruct Hs as [Hy Hs].
  cbn [charIn]. rewrite negb_orb. rewrite (IHs Hs), andb_true_r.
  destruct (Ascii.eqb_spec c y) as [-> | _]; [|reflexivity].
  rewrite Hy in Hc. discriminate Hc.
Qed.

Lemma append_assoc (a b c : string) :
  ((a ++ b) ++ c)%string = (a ++ (b ++ c))%string.
Proof. induction a as [|x a IH]; cbn [append]; [reflexivity | now rewrite IH]. Qed.

(** Behind any context that does not itself read as a timeout, the
    message of an HTTP failure does not either: the status only adds
    digits. *)
Lemma http_message_no_timeout (context : string) (z : Z) :
  includes (context ++ httpFailure)%string "timeout" = false ->
  includes (context ++ httpFailure ++ showZ z)%string "timeout" = false.
Proof.
  intros H. rewrite <- append_assoc, includes_app_disjoint; [exact H | reflexivity |].
  apply disjointChars_only with decimalChars; [reflexivity | apply showZ_chars].
Qed.

Variable timeout : Z.
Variable fetchIndex : string -> nat -> nat -> Outcome Response.
Variable normalizeTarget : string -> string.
Variable target : string.
Variable limit : nat.

Local Abbreviation reply := (fetchIndex (normalizeTarget target) limit).
Local Abbreviation loop := (getSnapshotsLoop timeout fetchIndex normalizeTarget target limit).

(** The [catch] clause wraps the message of an HTTP failure. *)
Lemma rethrow_http (context : string) (z : Z) :
  includes (context ++ httpFailure)%string "timeout" = false ->
  rethrow timeout (newError (context ++ httpFailure ++ showZ z)%string)
  = newError ("Failed to fetch snapshots: " ++ context ++ httpFailure ++ showZ z)%string.
Proof.
  intros H. unfold rethrow, newError. cbn [name message].
  rewrite (http_message_no_timeout context z H). reflexivity.
Qed.

Lemma isIndexUnavailable_http (context : string) (z : Z) :
  isIndexUnavailable (newError (context ++ httpFailure ++ showZ z)%string) = true.
Proof.
  unfold isIndexUnavailable, newError. cbn [message].
  apply includes_prepend. apply (includes_app httpFailure (showZ z)). reflexivity.
Qed.

Lemma ok_not_429 (r : Response) : ok r = true -> (status r =? 429)%Z = false.
Proof.
  unfold ok. rewrite andb_true_iff, !Z.leb_le. intros [_ H].
  apply Z.eqb_neq. lia.
Qed.

(** Rate-limited [j] times, then answered: the delays double from 2000
    ms and the captures of the answer are returned. *)
Lemma loop_retry_then_answer (maxRetries j : nat) (r : Response) (data : CdxData) :
  forall retryCount retriesLeft,
    (j <= retriesLeft)%nat ->
    (forall i, (i < j)%nat ->
               exists r', reply (retryCount + i)%nat = Return r' /\ status r' = 429%Z) ->
    reply (retryCount + j)%nat = Return r ->
    ok r = true -> json r = Return data ->
    loop retryCount maxRetries retriesLeft
    = (map waitTime (seq retryCount j), Return (parseRows data)).
Proof.
  induction j as [|j IH]; intros rc left Hj H429 Hr Hok Hjson.
  - rewrite Nat.add_0_r in Hr.
    destruct left; cbn [getSnapshotsLoop]; rewrite Hr, (ok_not_429 r Hok), Hok, Hjson;
      reflexivity.
  - destruct left as [|left]; [lia|].
    destruct (H429 0%nat ltac:(lia)) as [r0 [E0 S0]].
    rewrite Nat.add_0_r in E0.
    cbn [getSnapshotsLoop]. rewrite E0, S0. cbn [Z.eqb Pos.eqb].
    rewrite (IH (S rc) left); [reflexivity | lia | | | exact Hok | exact Hjson].
    + intros i Hi. destruct (H429 (S i) ltac:(lia)) as [r' Hr'].
      exists r'. rewrite Nat.add_succ_r in Hr'. exact Hr'.
    + rewrite Nat.add_succ_r in Hr. exact Hr.
Qed.

(** The steps of the next proof: the answer [r], neither 429 nor [ok],
    raises the HTTP failure, which every enclosing call wraps. *)
Ltac http_failure r Hr Hs Hok :=
  rewrite Hr;
  destruct (Z.eqb_spec (status r) 429) as [E | _]; [contradiction|];
  rewrite Hok; cbn [negb fst snd];
  fold httpFailure.

Ltac wrapped context r :=
  let R := fresh "R" in
  pose proof (rethrow_http context (status r) eq_refl) as R;
  cbn [append] in R; cbn [append]; rewrite R; clear R.

Ltac index_unavailable context r :=
  let U := fresh "U" in
  pose proof (isIndexUnavailable_http context (status r)) as U;
  cbn [append] in U; cbn [append]; exact U.

(** Rate-limited [j] times (at most three), then refused with a status
    outside 200-299: the index-unavailable failure comes out, after the
    same delays. *)
Lemma getSnapshots_retry_then_refused (j : nat) (r : Response) :
  (j <= 3)%nat ->
  (forall i, (i < j)%nat -> exists r', reply i = Return r' /\ status r' = 429%Z) ->
  reply j = Return r -> status r <> 429%Z -> ok r = false ->
  let call := getSnapshots timeout fetchIndex normalizeTarget target limit 0 3 in
  fst call = map waitTime (seq 0 j)
  /\ exists e, snd call = Throw e /\ isIndexUnavailable e = true.
Proof.
  intros Hj H429 Hr Hs Hok call. subst call. unfold getSnapshots. cbn [Nat.sub].
  assert (H0 : forall i, (i < j)%nat ->
                         exists r', reply i = Return r' /\ (status r' =? 429)%Z = true).
  { intros i Hi. destruct (H429 i Hi) as [r' [E S]]. exists r'. now rewrite S. }
  destruct j as [|[|[|[|j]]]]; [| | | |lia].
  - cbn [getSnapshotsLoop]. http_failure r Hr Hs Hok.
    split; [reflexivity|]. eexists. split; [reflexivity|].
    wrapped (""%string) r.
    index_unavailable ("Failed to fetch snapshots: "%string) r.
  - destruct (H0 0%nat ltac:(lia)) as [r0 [E0 S0]].
    cbn [getSnapshotsLoop]. rewrite E0, S0. http_failure r Hr Hs Hok.
    split; [reflexivity|]. eexists. split; [reflexivity|].
    wrapped (""%string) r.
    wrapped ("Failed to fetch snapshots: "%string) r.
    index_unavailable ("Failed to fetch snapshots: Failed to fetch snapshots: "%string) r.
  - destruct (H0 0%nat ltac:(lia)) as [r0 [E0 S0]].
    destruct (H0 1%nat ltac:(lia)) as [r1 [E1 S1]].
    cbn [getSnapshotsLoop]. rewrite E0, S0, E1, S1. http_failure r Hr Hs Hok.
    split; [reflexivity|]. eexists. split; [reflexivity|].
    wrapped (""%string) r.
    wrapped ("Failed to fetch snapshots: "%string) r.
    wrapped ("Failed to fetch snapshots: Failed to fetch snapshots: "%string) r.
    index_unavailable
      ("Failed to fetch snapshots: Failed to fetch snapshots: "
       ++ "Failed to fetch snapshots: ")%string r.
  - destruct (H0 0%nat ltac:(lia)) as [r0 [E0 S0]].
    destruct (H0 1%nat ltac:(lia)) as [r1 [E1 S1]].
    destruct (H0 2%nat ltac:(lia)) as [r2 [E2 S2]].
    cbn [getSnapshotsLoop]. rewrite E0, S0, E1, S1, E2, S2. http_failure r Hr Hs Hok.
    split; [reflexivity|]. eexists. split; [reflexivity|].
    wrapped (""%string) r.
    wrapped ("Failed to fetch snapshots: "%string) r.
    wrapped ("Failed to fetch snapshots: Failed to fetch snapshots: "%string) r.
    wrapped ("Failed to fetch snapshots: Failed to fetch snapshots: "
             ++ "Failed to fetch snapshots: ")%string r.
    index_unavailable
      ("Failed to fetch snapshots: Failed to fetch snapshots: "
       ++ "Failed to fetch snapshots: Failed to fetch snapshots: ")%string r.
Qed.

(** **** C7 *)

(** C7 (amended). A call [getSnapshots(target, limit)] that is answered
    429 waits 2000, 4000 and 8000 ms (2^attempt * 2000) before its three
    retries; answered 429 a fourth time it fails with the rate-limit
    error.  Answered, at the first request or at a retry, with a status
    that is neither 429 nor in 200-299, it fails with the
    index-unavailable error; answered with a status in 200-299 it
    returns the captures of the answer, and the empty list when the
    answer holds no record (an empty array, something that is not an
    array, or the header row alone). *)
Theorem getSnapshots_error_handling :
  let call := getSnapshots timeout fetchIndex normalizeTarget target limit 0 3 in
  ((forall i, (i <= 3)%nat -> exists r, reply i = Return r /\ status r = 429%Z) ->
   fst call = [2000; 4000; 8000]%Z
   /\ exists e, snd call = Throw e /\ isRateLimited e = true)
  /\ (forall (j : nat) (r : Response),
         (j <= 3)%nat ->
         (forall i, (i < j)%nat -> exists r', reply i = Return r' /\ status r' = 429%Z) ->
         reply j = Return r -> status r <> 429%Z -> ok r = false ->
         fst call = map waitTime (seq 0 j)
         /\ exists e, snd call = Throw e /\ isIndexUnavailable e = true)
  /\ (forall r : Response,
         reply 0%nat = Return r -> status r <> 429%Z -> ok r = false ->
         snd call
         = Throw (newError ("Failed to fetch snapshots: CDX API returned HTTP "
                            ++ showZ (status r))%string))
  /\ (forall (j : nat) (r : Response) (data : CdxData),
         (j <= 3)%nat ->
         (forall i, (i < j)%nat -> exists r', reply i = Return r' /\ status r' = 429%Z) ->
         reply j = Return r -> ok r = true -> json r = Return data ->
         call = (map waitTime (seq 0 j), Return (parseRows data))
         /\ (data = Rows [] \/ data = NotAnArray
             \/ data = Rows [[Some "timestamp"; Some "original"; Some "statuscode";
                              Some "mimetype"; Some "length"]%string] ->
             call = (map waitTime (seq 0 j), Return []))).
Proof.
  intros call. unfold call.
  repeat apply conj.
  - intros H. unfold getSnapshots. cbn [Nat.sub].
    destruct (H 0%nat ltac:(lia)) as [r0 [E0 S0]].
    destruct (H 1%nat ltac:(lia)) as [r1 [E1 S1]].
    destruct (H 2%nat ltac:(lia)) as [r2 [E2 S2]].
    destruct (H 3%nat ltac:(lia)) as [r3 [E3 S3]].
    cbn [getSnapshotsLoop]. rewrite E0, S0, E1, S1, E2, S2, E3, S3.
    cbn [Z.eqb Pos.eqb fst snd]. split; [reflexivity|].
    eexists. split; [reflexivity | reflexivity].
  - intros j r Hj H429 Hr Hs Hok.
    now apply getSnapshots_retry_then_refused with r.
  - intros r Hr Hs Hok. unfold getSnapshots. cbn [Nat.sub getSnapshotsLoop].
    http_failure r Hr Hs Hok.
    wrapped (""%string) r. reflexivity.
  - intros j r data Hj H429 Hr Hok Hjson.
    assert (Hcall : getSnapshots timeout fetchIndex normalizeTarget target limit 0 3
                    = (map waitTime (seq 0 j), Return (parseRows data))).
    { unfold getSnapshots. apply loop_retry_then_answer with r; auto. }
    split; [exact Hcall|].
    intros Hdata. rewrite Hcall. destruct Hdata as [-> | [-> | ->]]; reflexivity.
Qed.

End ClientFacts.

Section ClientExamples.

Import Js Client.

(** An index that always answers 429. *)
Lemma getSnapshots_error_handling_witness :
  let always429 := fun (_ : string) (_ _ : nat) =>
                     Return (mkResponse 429 (Throw (newError "Unexpected token"))) in
  fst (getSnapshots 120000 always429 (fun t => t) "example.com" 10 0 3)
  = [2000; 4000; 8000]%Z.
Proof.
  intros always429.
  apply (getSnapshots_error_handling 120000 always429 (fun t => t) "example.com" 10).
  intros i _. eexists. split; reflexivity.
Defined.

(** The claim as first stated fails: a 202 answer is not a 200 answer,
    yet it is read like one and the call returns its (empty) list. *)
Lemma accepted_status_is_not_an_error :
  ~ (forall (timeout : Z) (fetchIndex : string -> nat -> nat -> Outcome Response)
            (normalizeTarget : string -> string) (target : string) (limit : nat)
            (r : Response),
        fetchIndex (normalizeTarget target) limit 0%nat = Return r ->
        status r <> 200%Z -> status r <> 429%Z ->
        exists e,
          snd (getSnapshots timeout fetchIndex normalizeTarget target limit 0 3) = Throw e
          /\ isIndexUnavailable e = true).
Proof.
  intros H.
  destruct (H 120000%Z
              (fun _ _ _ => Return (mkResponse 202 (Return (Rows []))))
              (fun t => t) "example.com"%string 10%nat
              (mkResponse 202 (Return (Rows []))) eq_refl)
    as [e [He _]]; [discriminate | discriminate | discriminate He].
Qed.

End ClientExamples.

(** ** Topic stability *)

Section TopicFacts.

Import Js Topic.

(** The consecutive pairs of a list, read by index as the loops do. *)
Lemma adjacentPairs_by_index (A : Type) (d : A) (l : list A) :
  adjacentPairs l
  = map (fun i => (nth (i - 1) l d, nth i l d)) (seq 1 (List.length l - 1)).
Proof.
  induction l as [|x [|y r] IH]; [reflexivity | reflexivity |].
  change (adjacentPairs (x :: y :: r)) with ((x, y) :: adjacentPairs (y :: r)).
  rewrite IH.
  replace (List.length (x :: y :: r) - 1)%nat with (S (List.length (y :: r) - 1))
    by (cbn [List.length]; lia).
  set (n := (List.length (y :: r) - 1)%nat).
  change (seq 1 (S n)) with (1%nat :: seq 2 n).
  rewrite map_cons. f_equal.
  rewrite <- (seq_shift n 1), map_map.
  apply map_ext_in. intros i Hi. apply in_seq in Hi.
  destruct i as [|i]; [lia|].
  replace (S (S i) - 1)%nat with (S (S i - 1)) by lia.
  reflexivity.
Qed.

Lemma adjacentPairs_length (A : Type) (l : list A) :
  List.length (adjacentPairs l) = (List.length l - 1)%nat.
Proof.
  destruct l as [|d r]; [reflexivity|].
  rewrite (adjacentPairs_by_index d), length_map, length_seq. reflexivity.
Qed.

Lemma sum_loop (f : nat -> Z) (idx : list nat) (a : Z) (c : nat) :
  fold_left (fun acc i => ((fst acc + f i)%Z, S (snd acc))) idx (a, c)
  = ((a + fold_right Z.add 0%Z (map f idx))%Z, (c + List.length idx)%nat).
Proof.
  revert a c. induction idx as [|i idx IH]; intros a c; cbn [fold_left].
  - cbn. f_equal; lia.
  - rewrite IH. cbn [fst snd map fold_right List.length]. f_equal; lia.
Qed.

(** The second loop adds up the similarities of the adjacent pairs. *)
Lemma sumSimilarities_pairs (tas : list TopicAnalysisEntry) :
  sumSimilarities tas
  = (fold_right Z.add 0%Z (map pairSim (adjacentPairs (map topics tas))),
     List.length (adjacentPairs (map topics tas))).
Proof.
  unfold sumSimilarities.
  rewrite (sum_loop (pairSimilarity (map topics tas))).
  rewrite (adjacentPairs_by_index emptyTopics), !length_map, length_seq, map_map.
  cbn [Z.add Nat.add]. reflexivity.
Qed.

Lemma collectTopics_filter (extractTopics : string -> Topics)
  (snapshots : list SnapshotWithHtml) :
  map topics (collectTopics extractTopics snapshots)
  = map (fun s => extractTopics (html s)) (filter (fun s => truthy (html s)) snapshots).
Proof.
  induction snapshots as [|s l IH]; [reflexivity|].
  unfold collectTopics in *. cbn [flat_map filter].
  destruct (truthy (html s)); cbn [app map topics]; now rewrite IH.
Qed.

Lemma analyzeTopicStability_spec (extractTopics : string -> Topics)
  (snapshots : list SnapshotWithHtml) :
  stabilityScore (analyzeTopicStability extractTopics snapshots)
  = specStabilityScore (map topics (collectTopics extractTopics snapshots)).
Proof.
  unfold analyzeTopicStability.
  set (tas := collectTopics extractTopics snapshots).
  rewrite sumSimilarities_pairs.
  destruct tas as [|a [|b r]]; [reflexivity | reflexivity |].
  cbn [List.length Nat.eqb stabilityScore].
  rewrite adjacentPairs_length. cbn [map List.length Nat.sub Nat.ltb Nat.leb].
  unfold specStabilityScore, roundedMean, pairSim.
  rewrite !length_map, adjacentPairs_length.
  cbn [List.length Nat.sub]. rewrite length_map. reflexivity.
Qed.

(** **** C8 *)

(** Captures listed in chronological order are their own sorting. *)
Lemma chronological_sorted (l : list SnapshotWithHtml) :
  inChronologicalOrder l = true -> chronological l = l.
Proof.
  induction l as [|a r IH]; [reflexivity|].
  destruct r as [|b r'].
  - reflexivity.
  - change (inChronologicalOrder (a :: b :: r'))
      with (notLater a b && inChronologicalOrder (b :: r')).
    rewrite andb_true_iff. intros [Hab Hr].
    change (chronological (a :: b :: r'))
      with (insertByTime a (chronological (b :: r'))).
    rewrite (IH Hr). cbn [insertByTime]. now rewrite Hab.
Qed.

(** With two captures or more the score is the rounded mean over the
    adjacent pairs. *)
Lemma stabilityScore_adjacent_pairs (extractTopics : string -> Topics)
  (snapshots : list SnapshotWithHtml) :
  let captures :=
    map (fun s => extractTopics (html s)) (filter (fun s => truthy (html s)) snapshots) in
  (2 <= List.length captures)%nat ->
  stabilityScore (analyzeTopicStability extractTopics snapshots)
  = Some (roundedMean
            (map (fun p => calculateTopicSimilarity (fst p) (snd p))
               (adjacentPairs captures))).
Proof.
  intros captures Hlen.
  rewrite analyzeTopicStability_spec, collectTopics_filter. fold captures.
  destruct captures as [|a [|b r]]; cbn [List.length] in Hlen; try lia.
  reflexivity.
Qed.

(** C8. For every list of captures, the stabilityScore returned by
    [analyzeTopicStability] is the rounded mean of the similarity scores
    of the pairs of captures with HTML that are adjacent in the order
    given; it is 100 when exactly one capture has HTML and null when
    none has.  When the captures with HTML are given in chronological
    order, these pairs are the chronologically adjacent ones. *)
Theorem analyzeTopicStability_score (extractTopics : string -> Topics)
  (snapshots : list SnapshotWithHtml) :
  let withHtml := filter (fun s => truthy (html s)) snapshots in
  let captures := map (fun s => extractTopics (html s)) withHtml in
  let score := stabilityScore (analyzeTopicStability extractTopics snapshots) in
  score = specStabilityScore captures
  /\ (List.length captures = 0%nat -> score = None)
  /\ (List.length captures = 1%nat -> score = Some 100%Z)
  /\ ((2 <= List.length captures)%nat ->
      score = Some (roundedMean
                      (map (fun p => calculateTopicSimilarity (fst p) (snd p))
                         (adjacentPairs captures))))
  /\ (inChronologicalOrder withHtml = true ->
      score = specChronologicalScore extractTopics snapshots).
Proof.
  intros withHtml captures score.
  assert (H : score = specStabilityScore captures).
  { subst score captures withHtml. rewrite <- collectTopics_filter.
    apply analyzeTopicStability_spec. }
  rewrite H. repeat split.
  - destruct captures; [reflexivity | discriminate].
  - destruct captures as [|a [|b r]]; try discriminate. reflexivity.
  - destruct captures as [|a [|b r]]; cbn [List.length]; try lia. reflexivity.
  - intros Hs. unfold specChronologicalScore. fold withHtml.
    now rewrite (chronological_sorted withHtml Hs).
Qed.

(** *** Pairs without a computable factor *)

Lemma noFactorComputable_sym (t1 t2 : Topics) :
  noFactorComputable t1 t2 = noFactorComputable t2 t1.
Proof.
  unfold noFactorComputable, titleComparable, headingsComparable,
    descriptionComparable, contentComparable.
  rewrite (andb_comm (truthy (title t1))), (andb_comm (truthy (metaDescription t1))),
    (andb_comm (negb (List.length (headings t1) =? 0)%nat)),
    (andb_comm (negb (List.length (contentWords t1) =? 0)%nat)).
  reflexivity.
Qed.

Lemma positive_length (A : Type) (l : list A) :
  (0 <? List.length l)%nat = negb (List.length l =? 0)%nat.
Proof. destruct l; reflexivity. Qed.

Lemma calculateTopicSimilarity_no_factor (t1 t2 : Topics) :
  noFactorComputable t1 t2 = true -> calculateTopicSimilarity t1 t2 = 0%Z.
Proof.
  unfold noFactorComputable, titleComparable, headingsComparable,
    descriptionComparable, contentComparable.
  rewrite !andb_true_iff, !negb_true_iff. intros [[[H1 H2] H3] H4].
  unfold calculateTopicSimilarity. rewrite !positive_length, H1, H2, H3, H4.
  reflexivity.
Qed.


Lemma round_zero (q : Q) : q == 0 -> Js.round q = 0%Z.
Proof.
  intros H. unfold Js.round.
  assert (E : q + (1 # 2) == 1 # 2) by (rewrite H; reflexivity).
  rewrite (Qfloor_comp _ _ E). reflexivity.
Qed.

Lemma roundedMean_zeros (l : list Z) :
  (forall z, In z l -> z = 0%Z) -> l <> [] -> roundedMean l = 0%Z.
Proof.
  intros Hz Hne. unfold roundedMean. apply round_zero.
  assert (Hs : fold_right Z.add 0%Z l = 0%Z).
  { induction l as [|z l IH]; [reflexivity|].
    cbn [fold_right]. rewrite (Hz z (or_introl eq_refl)).
    destruct l as [|z' l']; [reflexivity|].
    rewrite IH; [reflexivity | | discriminate].
    intros y Hy. apply Hz. now right. }
  rewrite Hs. destruct l as [|z l]; [contradiction|].
  unfold Qdiv. apply Qmult_0_l.
Qed.

(** The flag raised by a low similarity to the previous capture stays
    in the list returned. *)
Lemma detectRedFlags_shift (t : Topics) (history : list Topics) :
  (0 < List.length history)%nat ->
  let recent :=
    calculateTopicSimilarity t (nth (List.length history - 1) history emptyTopics) in
  (recent < 30)%Z ->
  exists flag,
    In flag (detectRedFlags t history)
    /\ type flag = major_topic_shift /\ severity flag = high
    /\ similarity flag = Some recent.
Proof.
  intros Hlen recent Hlow.
  eexists (mkRedFlag major_topic_shift high _ None (Some recent) None).
  split; [|repeat split].
  unfold detectRedFlags.
  match goal with
  | |- context [fold_left ?f suspiciousKeywords ?init] =>
      set (F2 := fold_left f suspiciousKeywords init)
  end.
  apply Nat.ltb_lt in Hlen. rewrite Hlen.
  fold recent. apply Z.ltb_lt in Hlow. rewrite Hlow.
  repeat match goal with
         | |- context [if ?c then _ else _] => destruct c
         end;
    unfold push; rewrite ?in_app_iff; cbn [In]; auto.
Qed.

Lemma nth_last_removelast (A : Type) (d : A) (l : list A) :
  (2 <= List.length l)%nat ->
  nth (List.length (removelast l) - 1) (removelast l) d = nth (List.length l - 2) l d.
Proof.
  intros H. rewrite removelast_firstn_len, length_firstn, nth_firstn.
  replace (Nat.min (pred (List.length l)) (List.length l)) with (pred (List.length l))
    by lia.
  destruct (Nat.ltb_spec (pred (List.length l) - 1) (pred (List.length l))); [|lia].
  f_equal. lia.
Qed.

Lemma last_pair_adjacent (A : Type) (d : A) (l : list A) :
  (2 <= List.length l)%nat ->
  In (nth (List.length l - 2) l d, nth (List.length l - 1) l d) (adjacentPairs l).
Proof.
  intros H. rewrite (adjacentPairs_by_index d).
  apply in_map_iff. exists (List.length l - 1)%nat. split.
  - f_equal. f_equal. lia.
  - apply in_seq. lia.
Qed.

Lemma analyzeTopicStability_redFlags (extractTopics : string -> Topics)
  (snapshots : list SnapshotWithHtml) :
  let history := map topics (collectTopics extractTopics snapshots) in
  (1 <= List.length history)%nat ->
  redFlags (analyzeTopicStability extractTopics snapshots)
  = detectRedFlags (nth (List.length history - 1) history emptyTopics)
      (removelast history).
Proof.
  intros history H. unfold analyzeTopicStability. fold history.
  subst history. rewrite length_map in *.
  destruct (Nat.eqb_spec (List.length (collectTopics extractTopics snapshots)) 0); [lia|].
  destruct (sumSimilarities _) as [total comparisons]. reflexivity.
Qed.

(** **** C10 *)

(** C10. When none of the four comparison factors of a pair of topic
    summaries is computable, their similarity is 0.  Consequently, when
    at least two captures have HTML and no adjacent pair among them has a
    computable factor, the stabilityScore is 0 and the red flags of the
    latest capture contain a major-topic-shift flag of high severity
    (with similarity 0). *)
Theorem no_computable_factor_counts_as_zero (extractTopics : string -> Topics)
  (snapshots : list SnapshotWithHtml) :
  let captures :=
    map (fun s => extractTopics (html s)) (filter (fun s => truthy (html s)) snapshots) in
  let result := analyzeTopicStability extractTopics snapshots in
  (forall t1 t2, noFactorComputable t1 t2 = true -> calculateTopicSimilarity t1 t2 = 0%Z)
  /\ ((2 <= List.length captures)%nat ->
      (forall p, In p (adjacentPairs captures) ->
                 noFactorComputable (fst p) (snd p) = true) ->
      stabilityScore result = Some 0%Z
      /\ exists flag,
           In flag (redFlags result)
           /\ type flag = major_topic_shift /\ severity flag = high
           /\ similarity flag = Some 0%Z).
Proof.
  intros captures result.
  split; [exact calculateTopicSimilarity_no_factor|].
  intros Hlen Hpairs. split.
  - subst result. rewrite (stabilityScore_adjacent_pairs extractTopics snapshots Hlen).
    fold captures. f_equal.
    apply roundedMean_zeros.
    + intros z Hz. apply in_map_iff in Hz. destruct Hz as [p [<- Hp]].
      apply calculateTopicSimilarity_no_factor. now apply Hpairs.
    + pose proof (adjacentPairs_length captures) as L.
      destruct (adjacentPairs captures); [cbn in L; lia | discriminate].
  - subst result.
    rewrite analyzeTopicStability_redFlags by (rewrite collectTopics_filter; fold captures; lia).
    rewrite collectTopics_filter. fold captures.
    assert (Hlast : calculateTopicSimilarity
                      (nth (List.length captures - 1) captures emptyTopics)
                      (nth (List.length (removelast captures) - 1)
                         (removelast captures) emptyTopics) = 0%Z).
    { rewrite nth_last_removelast by exact Hlen.
      apply calculateTopicSimilarity_no_factor. rewrite noFactorComputable_sym.
      apply (Hpairs (nth (List.length captures - 2) captures emptyTopics,
                     nth (List.length captures - 1) captures emptyTopics)).
      now apply last_pair_adjacent. }
    destruct (detectRedFlags_shift
                (nth (List.length captures - 1) captures emptyTopics)
                (removelast captures)) as [flag [Hin [Ht [Hs Hsim]]]].
    + rewrite removelast_firstn_len, length_firstn. lia.
    + rewrite Hlast. lia.
    + exists flag. rewrite Hlast in Hsim. auto.
Qed.

Lemma no_computable_factor_counts_as_zero_witness :
  stabilityScore
    (analyzeTopicStability (fun _ => emptyTopics)
       [mkSnapshotWithHtml "20200101000000" "http://example.com/" "<html></html>";
        mkSnapshotWithHtml "20210101000000" "http://example.com/" "<html></html>"])
  = Some 0%Z.
Proof.
  apply (no_computable_factor_counts_as_zero (fun _ => emptyTopics)
           [mkSnapshotWithHtml "20200101000000" "http://example.com/" "<html></html>";
            mkSnapshotWithHtml "20210101000000" "http://example.com/" "<html></html>"]).
  - cbn. lia.
  - intros p [<- | []]. reflexivity.
Defined.

End TopicFacts.

(** ** Batches *)

Section BatchFacts.

Import Js Adapter.

Variable Result : Type.
Variable domainOf : Result -> string.
Variable placeholder : string -> Result.

(** The placeholder carries the domain it stands for. *)
Hypothesis placeholder_domain : forall d, domainOf (placeholder d) = d.

Lemma sortResults_domains (domainList : list string) (results : list Result) :
  map domainOf (sortResults domainOf placeholder domainList results) = domainList.
Proof.
  unfold sortResults. rewrite map_map.
  rewrite <- (map_id domainList) at 2. apply map_ext. intros d.
  destruct (find _ results) as [r|] eqn:E.
  - apply find_some in E. destruct E as [_ E]. now apply String.eqb_eq in E.
  - apply placeholder_domain.
Qed.

Lemma sortResults_entry (domainList : list string) (results : list Result)
  (i : nat) (d : string) :
  nth_error domainList i = Some d ->
  (forall r, In r results -> domainOf r <> d) ->
  nth_error (sortResults domainOf placeholder domainList results) i
  = Some (placeholder d).
Proof.
  intros Hd Hnone. unfold sortResults.
  rewrite nth_error_map, Hd. cbn [option_map].
  destruct (find _ results) as [r|] eqn:E; [|reflexivity].
  apply find_some in E. destruct E as [Hin E]. apply String.eqb_eq in E.
  now destruct (Hnone r Hin).
Qed.

Lemma sortResults_recorded (domainList : list string) (results : list Result)
  (i : nat) (d : string) :
  nth_error domainList i = Some d ->
  (exists r, In r results /\ domainOf r = d) ->
  exists r, nth_error (sortResults domainOf placeholder domainList results) i = Some r
            /\ In r results /\ domainOf r = d.
Proof.
  intros Hd [r0 [Hin0 E0]]. unfold sortResults.
  rewrite nth_error_map, Hd. cbn [option_map].
  destruct (find _ results) as [r|] eqn:E.
  - apply find_some in E. destruct E as [Hin E]. apply String.eqb_eq in E. eauto.
  - apply find_none with (x := r0) in E; [|exact Hin0].
    apply String.eqb_neq in E. contradiction.
Qed.

(** The entry of a domain is the first result recorded for it. *)
Lemma sortResults_first (domainList : list string)
  (before : list Result) (r : Result) (after : list Result) (i : nat) (d : string) :
  nth_error domainList i = Some d ->
  domainOf r = d ->
  (forall r', In r' before -> domainOf r' <> d) ->
  nth_error (sortResults domainOf placeholder domainList (before ++ r :: after)) i
  = Some r.
Proof.
  intros Hd Hr Hbefore. unfold sortResults.
  rewrite nth_error_map, Hd. cbn [option_map]. f_equal.
  induction before as [|b before IH]; cbn [app find].
  - apply String.eqb_eq in Hr. now rewrite Hr.
  - destruct (String.eqb_spec (domainOf b) d) as [E | _].
    + destruct (Hbefore b (or_introl eq_refl) E).
    + apply IH. intros r' Hr'. apply Hbefore. now right.
Qed.

(** With one result per domain, the order of completion does not show
    in what [find] returns. *)
Lemma find_permutation (d : string) (l l' : list Result) :
  Permutation l l' -> NoDup (map domainOf l) ->
  find (fun r => String.eqb (domainOf r) d) l
  = find (fun r => String.eqb (domainOf r) d) l'.
Proof.
  induction 1 as [| x l l' Hp IH | x y l | l l' l'' H1 IH1 H2 IH2]; intros Hnd.
  - reflexivity.
  - cbn [find]. inversion Hnd; subst. rewrite IH by assumption. reflexivity.
  - cbn [find].
    destruct (String.eqb_spec (domainOf y) d) as [Ey | _];
      destruct (String.eqb_spec (domainOf x) d) as [Ex | _]; try reflexivity.
    exfalso. inversion Hnd as [| ? ? Hy _]; subst. apply Hy. left. congruence.
  - rewrite IH1 by assumption. apply IH2.
    apply (Permutation_NoDup (Permutation_map domainOf H1) Hnd).
Qed.

Lemma sortResults_permutation (domainList : list string) (results results' : list Result) :
  Permutation results results' -> NoDup (map domainOf results) ->
  sortResults domainOf placeholder domainList results
  = sortResults domainOf placeholder domainList results'.
Proof.
  intros Hp Hnd. unfold sortResults. apply map_ext. intros d.
  now rewrite (find_permutation d Hp Hnd).
Qed.

End BatchFacts.

Section BatchResults.

Import Js Adapter.

(** **** C9 *)

(** C9. For every input list, [analyzeDomainsForSpam] and
    [analyzeDomainsComplete] return one entry per trimmed non-empty input
    domain, in the order of the input, whatever results were recorded and
    in whatever order.  The entry of a domain is the first result that
    was recorded for it, wherever it stands among the recorded results;
    a domain without a recorded result gets the UNAVAILABLE placeholder;
    and when each domain has at most one recorded result, the order in
    which the results were recorded does not change what is returned. *)
Theorem batch_results_in_input_order (domains : list string)
  (spamResults spamResults' : list SpamResult)
  (completeResults completeResults' : list CompleteResult) :
  let domainList := filter (fun d => (0 <? String.length d)%nat) (map trim domains) in
  map domain (analyzeDomainsForSpam domains spamResults) = domainList
  /\ map completeDomain (analyzeDomainsComplete domains completeResults) = domainList
  /\ (forall i d before r after,
         nth_error domainList i = Some d ->
         spamResults = before ++ r :: after ->
         domain r = d ->
         (forall r', In r' before -> domain r' <> d) ->
         nth_error (analyzeDomainsForSpam domains spamResults) i = Some r)
  /\ (forall i d before r after,
         nth_error domainList i = Some d ->
         completeResults = before ++ r :: after ->
         completeDomain r = d ->
         (forall r', In r' before -> completeDomain r' <> d) ->
         nth_error (analyzeDomainsComplete domains completeResults) i = Some r)
  /\ (forall i d,
         nth_error domainList i = Some d ->
         (forall r, In r spamResults -> domain r <> d) ->
         nth_error (analyzeDomainsForSpam domains spamResults) i = Some (spamPlaceholder d)
         /\ status (spamPlaceholder d) = UNAVAILABLE)
  /\ (forall i d,
         nth_error domainList i = Some d ->
         (forall r, In r completeResults -> completeDomain r <> d) ->
         nth_error (analyzeDomainsComplete domains completeResults) i
         = Some (completePlaceholder d)
         /\ completeStatus (completePlaceholder d) = UNAVAILABLE)
  /\ (Permutation spamResults spamResults' -> NoDup (map domain spamResults) ->
      analyzeDomainsForSpam domains spamResults
      = analyzeDomainsForSpam domains spamResults')
  /\ (Permutation completeResults completeResults' ->
      NoDup (map completeDomain completeResults) ->
      analyzeDomainsComplete domains completeResults
      = analyzeDomainsComplete domains completeResults').
Proof.
  intros domainList. unfold analyzeDomainsForSpam, analyzeDomainsComplete.
  fold (domainListOf domains) in domainList. subst domainList.
  repeat apply conj.
  - now apply sortResults_domains.
  - now apply sortResults_domains.
  - intros i d before r after Hd -> Hr Hbefore.
    now apply sortResults_first with (d := d).
  - intros i d before r after Hd -> Hr Hbefore.
    now apply sortResults_first with (d := d).
  - intros i d Hd Hnone. split; [|reflexivity]. now apply sortResults_entry.
  - intros i d Hd Hnone. split; [|reflexivity]. now apply sortResults_entry.
  - apply sortResults_permutation.
  - apply sortResults_permutation.
Qed.

End BatchResults.

(** ** The full pipeline *)

Section CompletePipelineFacts.

Import Js Adapter.

(** A completed analysis carries the assessment the aggregation
    computes from its four parts: what holds of [aggregateRisk] on all
    inputs holds of every completed analysis. *)
Lemma analyzeDomainComplete_assessment
  (getSnapshots : string -> nat -> Client.Outcome (list Client.Snapshot))
  (getSnapshotHtml : Client.Snapshot -> Client.Outcome HtmlResult)
  (extractTextContent : string -> option string -> string)
  (extractMetaTags : string -> option string -> HtmlParser.MetaTags)
  (domainNameOf : string -> string)
  (extractTopics : string -> Topic.Topics)
  (analyzeBacklinksHistory :
     list Topic.SnapshotWithHtml -> list string -> string ->
     Client.Outcome Metrics.BacklinkData)
  (rankReply : string -> Metrics.OprReply) (httpsOk : string -> bool)
  (randomDraw : string -> Z)
  (dom : string) (stopWords : list string) (maxSnapshots : nat)
  (d : string) (report : CompleteReport) :
  analyzeDomainComplete getSnapshots getSnapshotHtml extractTextContent extractMetaTags
    domainNameOf extractTopics analyzeBacklinksHistory rankReply httpsOk randomDraw
    dom stopWords maxSnapshots
  = CompleteOk d report ->
  assessment report
  = aggregateRisk (maxSpamScore (spamAnalysis report))
      (Metrics.averageQualityScore (backlinkAnalysis report))
      (Metrics.overallQualityScore (metrics report))
      (scoreValue (Topic.stabilityScore (topicAnalysis report)))
      (Topic.redFlags (topicAnalysis report)).
Proof.
  unfold analyzeDomainComplete.
  destruct (getSnapshots dom maxSnapshots) as [snapshots | e]; [|discriminate].
  destruct (List.length snapshots =? 0)%nat; [discriminate|].
  destruct (analyzeBacklinksHistory _ _ _) as [backlinks | e]; [|discriminate].
  intros [= <- <-]. reflexivity.
Qed.

(** The run of the scenario: eight captures analyzed out of ten, a low
    spam score, and a REVIEW for an overall risk of 28. *)
Example scenario_complete_run :
  exists report,
    Scenario.completeRun = CompleteOk "example.com" report
    /\ snapshotsAnalyzed (spamAnalysis report) = 8%nat
    /\ Metrics.overallQualityScore (metrics report) = VNum (Fin (inject_Z 38))
    /\ overallRiskScore (assessment report) = inject_Z 28
    /\ recommendation (assessment report) = REVIEW
    /\ riskLevel (assessment report) = LOW.
Proof. eexists. repeat split. Qed.

End CompletePipelineFacts.

(** ** Worked instances *)

Section Instances.

Import Js.

(** A text without any stop word scores 0. *)
Lemma checkStopWords_score_rule_witness :
  HtmlParser.score
    (HtmlParser.checkStopWords "a page about gardening"%string
       ["casino"%string; "poker"%string])
  = 0%Z.
Proof.
  destruct (proj1 checkStopWords_score_rule "a page about gardening"%string
              ["casino"%string; "poker"%string]) as [_ [_ [_ [_ H]]]].
  apply H. reflexivity.
Defined.

(** Ten captures, eight analyzed, two skipped. *)
Lemma analyzeDomainForSpam_partial_failures_witness :
  Adapter.snapshotsFound Scenario.run = 10%nat
  /\ Adapter.snapshotsAnalyzed Scenario.run = 8%nat
  /\ Adapter.failedSnapshots Scenario.run = Some 2%nat
  /\ Adapter.status Scenario.run = Adapter.CLEAN.
Proof.
  pose proof (analyzeDomainForSpam_partial_failures
                Scenario.getSnapshots Scenario.getSnapshotHtml
                Scenario.extractTextContent Scenario.extractMetaTags
                Scenario.domainNameOf "example.com"%string
                ["casino"%string; "poker"%string] 10 (snapshots := Scenario.captures)
                eq_refl ltac:(cbn; lia)) as H.
  cbv zeta in H. destruct H as [H1 [H2 [H3 [_ [_ [H6 _]]]]]].
  split; [exact H1 | split; [exact H2 | split; [exact H3|]]].
  apply H6. cbn. lia.
Defined.

(** ASCII text extended on both sides, and one more stop word. *)
Lemma checkStopWords_score_bounded_monotone_witness :
  let check := Unicode.checkStopWords Unicode.lowerCase Unicode.foldCase in
  let text := Unicode.ofString "Casino night" in
  let text' := Unicode.ofString "Poker and Casino night!" in
  let words := [Unicode.ofString "casino"] in
  let words' := [Unicode.ofString "casino"; Unicode.ofString "poker"] in
  (Unicode.foundCount (check text words) <= Unicode.foundCount (check text' words'))%nat
  /\ (Unicode.score (check text words) <= Unicode.score (check text' words'))%Z
  /\ Unicode.score (check text words) = 2%Z
  /\ Unicode.score (check text' words') = 4%Z.
Proof.
  intros check text text' words words'.
  destruct (checkStopWords_score_bounded_monotone
              Unicode.lowerCase Unicode.foldCase
              text (Unicode.ofString "Poker and ") (Unicode.ofString "!")
              (Unicode.lowerCase (Unicode.ofString "Poker and "))
              (Unicode.lowerCase (Unicode.ofString "!"))
              words words')
    as (_ & Hmono & Hascii).
  destruct Hmono as [Hcount Hscore].
  - intros w [<- | []]. now left.
  - apply Hascii. reflexivity.
  - split; [exact Hcount|]. split; [exact Hscore|]. split; reflexivity.
Defined.

(** A text that ends in a capital sigma, which lower-cases to the final
    sigma: the first stop word matches it, eleven times under the [i]
    flag, and the score is 10.  With the letter B appended the sigma
    lower-cases to the small sigma: the first stop word no longer occurs,
    the two others match once each; two unique words match instead of
    one, and the score is 4. *)
Lemma final_sigma_lowers_the_score :
  let check := Unicode.checkStopWords Unicode.lowerCase Unicode.foldCase in
  let text := Unicode.sigmaText in
  let text' := Unicode.sigmaText ++ Unicode.ofString "B" in
  Unicode.foundCount (check text Unicode.sigmaWords) = 1%nat
  /\ Unicode.score (check text Unicode.sigmaWords) = 10%Z
  /\ Unicode.foundCount (check text' Unicode.sigmaWords) = 2%nat
  /\ Unicode.score (check text' Unicode.sigmaWords) = 4%Z.
Proof. repeat split. Qed.

(** Three captures in chronological order: the shop twice (similarity
    100), then the casino (similarity 0); the score is 50, the mean over
    the chronologically adjacent pairs. *)
Lemma analyzeTopicStability_score_witness :
  Topic.inChronologicalOrder Scenario.orderedCaptures = true
  /\ Topic.stabilityScore
       (Topic.analyzeTopicStability Scenario.pageTopics Scenario.orderedCaptures)
     = Topic.specChronologicalScore Scenario.pageTopics Scenario.orderedCaptures
  /\ Topic.specChronologicalScore Scenario.pageTopics Scenario.orderedCaptures
     = Some 50%Z.
Proof.
  split; [reflexivity|]. split; [|reflexivity].
  destruct (analyzeTopicStability_score Scenario.pageTopics Scenario.orderedCaptures)
    as (_ & _ & _ & _ & H).
  apply H. reflexivity.
Defined.

(** The same captures listed as 2020, 2022, 2021: the analyzer compares
    2020 with 2022 and 2022 with 2021 and returns 0, whereas the
    chronologically adjacent pairs (2020 with 2021, 2021 with 2022) give
    50. *)
Lemma captures_out_of_order_are_compared_as_listed :
  Topic.stabilityScore
    (Topic.analyzeTopicStability Scenario.pageTopics Scenario.shuffledCaptures)
  = Some 0%Z
  /\ Topic.specChronologicalScore Scenario.pageTopics Scenario.shuffledCaptures
     = Some 50%Z.
Proof. split; reflexivity. Qed.

(** Three domains, of which the last completed first and the second
    left no result: the first and the last get their results, at their
    places, the second the placeholder. *)
Lemma batch_results_in_input_order_witness :
  let clean d := Adapter.mkSpamResult d Adapter.CLEAN 3 3 (Some 0%nat) (Some 0%nat)
                   (VNum (Fin 0)) (VNum (Fin 0)) (Some false) (Some 0%nat) []
                   None None None None in
  let recorded := [clean "c.com"%string; clean "a.com"%string] in
  let out := Adapter.analyzeDomainsForSpam
               [" a.com "; ""; "b.com"; "c.com"]%string recorded in
  nth_error out 0 = Some (clean "a.com"%string)
  /\ nth_error out 1 = Some (Adapter.spamPlaceholder "b.com"%string)
  /\ nth_error out 2 = Some (clean "c.com"%string).
Proof.
  intros clean recorded out.
  destruct (batch_results_in_input_order
              [" a.com "; ""; "b.com"; "c.com"]%string recorded recorded [] [])
    as (_ & _ & Hfirst & _ & Hnone & _).
  split; [|split].
  - apply (Hfirst 0%nat "a.com"%string [clean "c.com"%string]
             (clean "a.com"%string) []); try reflexivity.
    intros r' [<- | []]. discriminate.
  - apply (Hnone 1%nat "b.com"%string); [reflexivity|].
    intros r [<- | [<- | []]]; discriminate.
  - apply (Hfirst 2%nat "c.com"%string [] (clean "c.com"%string)
             [clean "a.com"%string]); try reflexivity.
    intros r' [].
Defined.

(** Matches of a pattern do not overlap, and case is ignored. *)
Example countMatches_non_overlapping :
  countMatches "aaaa AaA"%string "aa"%string = 3%nat.
Proof. reflexivity. Qed.

(** A word listed twice, in two spellings, is found once. *)
Example checkStopWords_duplicate_word :
  HtmlParser.checkStopWords "Poker, poker and POKER"%string
    ["Poker"%string; " poker "%string; ""%string]
  = HtmlParser.mkStopWordsCheck [HtmlParser.mkFinding "poker"%string 3] 1 2.
Proof. reflexivity. Qed.

(** The header row of the index is dropped and incomplete rows are
    filtered out. *)
Example parseRows_header_and_rows :
  Client.parseRows
    (Client.Rows
       [[Some "timestamp"; Some "original"; Some "statuscode"]%string;
        [Some "20150101000000"; Some "http://example.com/"; Some "200"]%string;
        [Some "20160101000000"; None; Some "200"]%string])
  = [Client.mkSnapshot "20150101000000" "http://example.com/"
       (Some (Client.IntOf 200))].
Proof. reflexivity. Qed.

(** One rate-limited request, then an answer: a single delay of two
    seconds. *)
Example getSnapshots_one_retry :
  Client.getSnapshots 120000
    (fun _ _ n =>
       match n with
       | O => Client.Return (Client.mkResponse 429 (Client.Return Client.NotAnArray))
       | _ => Client.Return
                (Client.mkResponse 200
                   (Client.Return
                      (Client.Rows
                         [[Some "20150101000000"; Some "http://example.com/";
                           Some "200"]%string])))
       end)
    (fun t => t) "example.com" 10 0 3
  = ([2000%Z],
     Client.Return
       [Client.mkSnapshot "20150101000000" "http://example.com/"
          (Some (Client.IntOf 200))]).
Proof. reflexivity. Qed.

(** Keywords come by decreasing frequency; among equals, integer-like
    keys first, then the order of first appearance. *)
Example extractKeywords_order :
  map fst (Topic.extractKeywords
             ["tools"; "garden"; "2024"; "garden"; "1999"; "the"; "seeds"]%string 4)
  = ["garden"; "1999"; "2024"; "tools"]%string.
Proof. reflexivity. Qed.

(** Two titles sharing two of their four distinct words. *)
Example calculateTextSimilarity_half :
  Topic.calculateTextSimilarity "Garden tools shop"%string "garden TOOLS store"%string
  == 50.
Proof. reflexivity. Qed.

End Instances.

(* ================================================================== *)
(** ** Means, percentages and rounding to one decimal *)
(* ================================================================== *)

Section RoundingBounds.

(** Rounding to one decimal keeps a number between two integers
    between them. *)
Lemma roundOneDecimal_bounds (a b : Z) (q : Q) :
  inject_Z a <= q <= inject_Z b ->
  inject_Z a <= Adapter.roundOneDecimal q <= inject_Z b.
Proof.
  intros [Ha Hb]. unfold Adapter.roundOneDecimal, Js.round.
  assert (L : (a * 10 <= Qfloor (q * 10 + (1 # 2))%Q)%Z).
  { rewrite <- (Qfloor_Z (a * 10)). apply Qfloor_resp_le.
    rewrite inject_Z_mult. change (inject_Z 10) with 10. lra. }
  assert (U : (Qfloor (q * 10 + (1 # 2))%Q <= b * 10)%Z).
  { rewrite <- (round_inject_Z (b * 10)). unfold Js.round. apply Qfloor_resp_le.
    rewrite inject_Z_mult. change (inject_Z 10) with 10. lra. }
  rewrite Zle_Qle in L, U. rewrite !inject_Z_mult in L, U.
  change (inject_Z 10) with 10 in L, U.
  set (r := inject_Z (Qfloor (q * 10 + (1 # 2))%Q)) in *.
  split.
  - apply Qle_shift_div_l; lra.
  - apply Qle_shift_div_r; lra.
Qed.

Lemma roundOneDecimal_zero (q : Q) : q == 0 -> Adapter.roundOneDecimal q == 0.
Proof.
  intros E. destruct (@roundOneDecimal_bounds 0 0 q) as [H1 H2].
  - change (inject_Z 0) with 0. lra.
  - change (inject_Z 0) with 0 in *. lra.
Qed.

(** A sum of values between [a] and [b]. *)
Lemma fold_sum_bounds (A : Type) (f : A -> Q) (a b : Q) (l : list A) (acc : Q) :
  (forall x, In x l -> a <= f x <= b) ->
  acc + a * inject_Z (Z.of_nat (List.length l))
  <= fold_left (fun sum x => sum + f x) l acc
  <= acc + b * inject_Z (Z.of_nat (List.length l)).
Proof.
  revert acc. induction l as [|x l IH]; intros acc H.
  - cbn [fold_left List.length]. change (inject_Z (Z.of_nat 0)) with 0. lra.
  - cbn [fold_left]. change (List.length (x :: l)) with (S (List.length l)).
    rewrite Nat2Z.inj_succ, <- Z.add_1_r, inject_Z_plus.
    change (inject_Z 1) with 1.
    destruct (H x (or_introl eq_refl)) as [H1 H2].
    destruct (IH (acc + f x) (fun y Hy => H y (or_intror Hy))) as [H3 H4].
    split; lra.
Qed.

(** The mean of values between [a] and [b], of a non-empty list. *)
Lemma meanOr0_bounds (A : Type) (f : A -> Q) (a b : Q) (l : list A) :
  l <> [] ->
  (forall x, In x l -> a <= f x <= b) ->
  a <= Backlinks.meanOr0 f l <= b.
Proof.
  intros Hne H. unfold Backlinks.meanOr0.
  destruct l as [|x l']; [congruence|]. set (l := x :: l') in *.
  cbn [List.length Nat.ltb Nat.leb].
  replace (0 <? List.length l)%nat with true by reflexivity.
  assert (Hn : 0 < inject_Z (Z.of_nat (List.length l))).
  { change 0 with (inject_Z 0). rewrite <- Zlt_Qlt. subst l. cbn [List.length]. lia. }
  destruct (@fold_sum_bounds A f a b l 0 H) as [H1 H2].
  split.
  - apply Qle_shift_div_l; [exact Hn | lra].
  - apply Qle_shift_div_r; [exact Hn | lra].
Qed.

Lemma meanOr0_nil (A : Type) (f : A -> Q) : Backlinks.meanOr0 f [] = 0.
Proof. reflexivity. Qed.

Lemma percentage_bounds (count total : nat) :
  (count <= total)%nat -> 0 <= Backlinks.percentage count total <= 100.
Proof.
  intros H. unfold Backlinks.percentage.
  destruct (Nat.ltb_spec 0 total) as [Hp | _]; [|lra].
  assert (Hn : 0 < inject_Z (Z.of_nat total)).
  { change 0 with (inject_Z 0). rewrite <- Zlt_Qlt. lia. }
  assert (Hc : 0 <= inject_Z (Z.of_nat count)).
  { change 0 with (inject_Z 0). rewrite <- Zle_Qle. lia. }
  assert (Hct : inject_Z (Z.of_nat count) <= inject_Z (Z.of_nat total)).
  { rewrite <- Zle_Qle. lia. }
  set (c := inject_Z (Z.of_nat count)) in *. set (t := inject_Z (Z.of_nat total)) in *.
  assert (H0 : 0 <= c / t) by (apply Qle_shift_div_l; lra).
  assert (H1 : c / t <= 1) by (apply Qle_shift_div_r; lra).
  split; lra.
Qed.

End RoundingBounds.

(* ================================================================== *)
(** ** The stop-word lists *)
(* ================================================================== *)

Section StopWordLists.

Import Js StopWords.

Lemma lowerChar_idem c : lowerChar (lowerChar c) = lowerChar c.
Proof. destruct c as [[] [] [] [] [] [] [] []]; reflexivity. Qed.

Lemma lowerChar_isSpace c : isSpace (lowerChar c) = isSpace c.
Proof. destruct c as [[] [] [] [] [] [] [] []]; reflexivity. Qed.

Lemma lowerChar_isSeparator c : isSeparator c = false -> isSeparator (lowerChar c) = false.
Proof. destruct c as [[] [] [] [] [] [] [] []]; intros H; try reflexivity; discriminate H. Qed.

Lemma toLowerCase_idem s : toLowerCase (toLowerCase s) = toLowerCase s.
Proof. induction s as [|c r IH]; cbn; [reflexivity|]. now rewrite lowerChar_idem, IH. Qed.

Lemma trimStart_toLowerCase s : trimStart (toLowerCase s) = toLowerCase (trimStart s).
Proof.
  induction s as [|c r IH]; cbn [toLowerCase trimStart]; [reflexivity|].
  rewrite lowerChar_isSpace. destruct (isSpace c); [exact IH | reflexivity].
Qed.

Lemma trimEnd_toLowerCase s : trimEnd (toLowerCase s) = toLowerCase (trimEnd s).
Proof.
  induction s as [|c r IH]; cbn [toLowerCase trimEnd]; [reflexivity|].
  rewrite IH, lowerChar_isSpace.
  destruct (trimEnd r); cbn [toLowerCase]; [destruct (isSpace c)|]; reflexivity.
Qed.

Lemma trim_toLowerCase s : trim (toLowerCase s) = toLowerCase (trim s).
Proof. unfold trim. now rewrite trimStart_toLowerCase, trimEnd_toLowerCase. Qed.

Lemma trimStart_headed s : headed (trimStart s) = true.
Proof.
  induction s as [|c r IH]; cbn [trimStart]; [reflexivity|].
  destruct (isSpace c) eqn:E; [exact IH | cbn; now rewrite E].
Qed.

Lemma trimStart_fixed s : headed s = true -> trimStart s = s.
Proof. destruct s as [|c r]; cbn; [reflexivity|]. destruct (isSpace c); [discriminate | reflexivity]. Qed.

Lemma trimEnd_headed s : headed s = true -> headed (trimEnd s) = true.
Proof.
  destruct s as [|c r]; cbn; [trivial|]. intros E.
  destruct (isSpace c) eqn:Ec; [discriminate|].
  destruct (trimEnd r); cbn; now rewrite Ec.
Qed.

Lemma trimEnd_idem s : trimEnd (trimEnd s) = trimEnd s.
Proof.
  induction s as [|c r IH]; cbn [trimEnd]; [reflexivity|].
  destruct (trimEnd r) as [|d r'] eqn:E.
  - destruct (isSpace c) eqn:Ec; cbn [trimEnd]; [reflexivity | now rewrite Ec].
  - cbn [trimEnd] in IH |- *. change (trimEnd (String c (String d r')))
      with (match trimEnd (String d r') with
            | EmptyString => if isSpace c then EmptyString else String c EmptyString
            | r0 => String c r0 end).
    cbn [trimEnd]. rewrite IH. reflexivity.
Qed.

Lemma trim_idem s : trim (trim s) = trim s.
Proof.
  unfold trim.
  rewrite (trimStart_fixed (trimEnd (trimStart s))) by apply trimEnd_headed, trimStart_headed.
  apply trimEnd_idem.
Qed.


Lemma forallChars_trimStart p s :
  forallChars p s = true -> forallChars p (trimStart s) = true.
Proof.
  induction s as [|c r IH]; cbn [trimStart]; [trivial|].
  destruct (isSpace c); [|trivial].
  cbn [forallChars]. rewrite andb_true_iff. intros [_ H]. auto.
Qed.

Lemma forallChars_trimEnd p s :
  forallChars p s = true -> forallChars p (trimEnd s) = true.
Proof.
  induction s as [|c r IH]; cbn [trimEnd forallChars]; [trivial|].
  rewrite andb_true_iff. intros [Hc Hr]. specialize (IH Hr).
  destruct (trimEnd r) as [|d r'].
  - destruct (isSpace c); cbn [forallChars]; [reflexivity | now rewrite Hc].
  - cbn [forallChars] in *. now rewrite Hc, IH.
Qed.

Lemma forallChars_lower s :
  forallChars (fun c => negb (isSeparator c)) s = true ->
  forallChars (fun c => negb (isSeparator c)) (toLowerCase s) = true.
Proof.
  induction s as [|c r IH]; cbn [toLowerCase forallChars]; [trivial|].
  rewrite !andb_true_iff, !negb_true_iff. intros [Hc Hr].
  split; [now apply lowerChar_isSeparator | auto].
Qed.

Lemma splitBy_pieces p s :
  Forall (fun w => forallChars (fun c => negb (p c)) w = true) (splitBy p s).
Proof.
  induction s as [|c r IH]; cbn [splitBy]; [now constructor|].
  destruct (p c) eqn:E; [now constructor|].
  destruct (splitBy p r) as [|h t]; [constructor; [cbn; now rewrite E | constructor]|].
  inversion IH; subst. constructor; [|assumption].
  cbn [forallChars]. now rewrite E.
Qed.

Lemma length_truthy w : (0 <? String.length w)%nat = truthy w.
Proof. now destruct w. Qed.

Lemma toLowerCase_truthy w : truthy (toLowerCase w) = truthy w.
Proof. now destruct w. Qed.

(** What one piece of the split becomes. *)
Lemma parsed_piece w :
  forallChars (fun c => negb (isSeparator c)) w = true ->
  truthy (trim w) = true ->
  parsedWord (toLowerCase (trim w)) = true.
Proof.
  intros Hs Ht. unfold parsedWord.
  rewrite toLowerCase_truthy, Ht, trim_toLowerCase, trim_idem, String.eqb_refl.
  rewrite toLowerCase_idem, String.eqb_refl. cbn [andb].
  apply forallChars_lower. unfold trim.
  now apply forallChars_trimEnd, forallChars_trimStart.
Qed.

Lemma parsedWord_spec w :
  parsedWord w = true ->
  truthy w = true /\ trim w = w /\ toLowerCase w = w /\
  forallChars (fun c => negb (isSeparator c)) w = true.
Proof.
  unfold parsedWord. rewrite !andb_true_iff, !String.eqb_eq. tauto.
Qed.

Lemma parsed_words_fixed ws :
  forallb parsedWord ws = true ->
  map toLowerCase (filter (fun w => (0 <? String.length w)%nat) (map trim ws)) = ws.
Proof.
  induction ws as [|w ws IH]; cbn [forallb map filter]; [reflexivity|].
  rewrite andb_true_iff. intros [Hw Hr].
  destruct (parsedWord_spec _ Hw) as (Ht & E1 & E2 & _).
  rewrite E1, length_truthy, Ht. cbn [map]. now rewrite E2, IH.
Qed.

Lemma splitBy_word p w :
  forallChars (fun c => negb (p c)) w = true -> splitBy p w = [w].
Proof.
  induction w as [|c r IH]; cbn [splitBy forallChars]; [reflexivity|].
  rewrite andb_true_iff, negb_true_iff. intros [-> Hr]. now rewrite IH.
Qed.

Lemma splitBy_word_sep p w c rest :
  forallChars (fun c => negb (p c)) w = true -> p c = true ->
  splitBy p (w ++ String c rest) = w :: splitBy p rest.
Proof.
  intros Hw Hc. induction w as [|d r IH]; cbn [append splitBy].
  - now rewrite Hc.
  - cbn [forallChars] in Hw. apply andb_true_iff in Hw. destruct Hw as [Hd Hr].
    apply negb_true_iff in Hd. now rewrite Hd, IH.
Qed.

Lemma splitBy_joinWith p c w ws :
  p c = true ->
  Forall (fun w => forallChars (fun c => negb (p c)) w = true) (w :: ws) ->
  splitBy p (joinWith (String c EmptyString) (w :: ws)) = w :: ws.
Proof.
  intros Hc. revert w. induction ws as [|v ws IH]; intros w H.
  - cbn [joinWith]. apply splitBy_word. now inversion H.
  - inversion H as [|? ? Hw Hr]; subst.
    change (joinWith (String c EmptyString) (w :: v :: ws))
      with (w ++ String c (joinWith (String c EmptyString) (v :: ws)))%string.
    rewrite splitBy_word_sep by assumption. now rewrite IH.
Qed.

Lemma filter_twice (A : Type) (f g : A -> bool) (l : list A) :
  filter f (filter g l) = filter (fun y => g y && f y) l.
Proof.
  induction l as [|y l IH]; [reflexivity|]. cbn [filter].
  destruct (g y); cbn [andb filter]; [destruct (f y)|]; now rewrite IH.
Qed.

Lemma filter_none (A : Type) (f : A -> bool) (l : list A) :
  (forall y, In y l -> f y = false) -> filter f l = [].
Proof.
  induction l as [|y l IH]; intros H; [reflexivity|]. cbn [filter].
  rewrite (H y (or_introl eq_refl)). apply IH. intros z Hz. apply H. now right.
Qed.

Lemma dedup_app (a b : list string) :
  HtmlParser.dedup (a ++ b) =
  HtmlParser.dedup a ++
  filter (fun y => negb (existsb (String.eqb y) a)) (HtmlParser.dedup b).
Proof.
  induction a as [|x a IH]; cbn [app HtmlParser.dedup existsb].
  - symmetry. apply forallb_filter_id. now apply forallb_forall.
  - rewrite IH, filter_app, filter_twice. f_equal. f_equal.
    apply filter_ext. intros y. rewrite negb_orb. apply andb_comm.
Qed.

Lemma dedup_fixed (l : list string) : NoDup l -> HtmlParser.dedup l = l.
Proof.
  induction 1 as [|x l Hx Hl IH]; cbn [HtmlParser.dedup]; [reflexivity|].
  rewrite IH. f_equal. apply forallb_filter_id, forallb_forall.
  intros y Hy. apply negb_true_iff, String.eqb_neq. congruence.
Qed.

(** X1.  Every word [parseStopWords] returns is non-empty, trimmed, in
    lower case and free of commas and line feeds, whatever the input;
    such a word is left alone by the normalisation of the stop-word
    check. *)
Theorem parseStopWords_words_are_normal (input : Input) :
  forallb parsedWord (parseStopWords input) = true /\
  map HtmlParser.normalize (parseStopWords input) = parseStopWords input.
Proof.
  assert (H : forallb parsedWord (parseStopWords input) = true).
  { destruct input as [s | l | b]; try reflexivity.
    unfold parseStopWords. destruct (negb (truthy s)); [reflexivity|].
    generalize (splitBy_pieces isSeparator s).
    induction 1 as [|w ws Hw _ IH]; [reflexivity|].
    cbn [map filter]. rewrite length_truthy.
    destruct (truthy (trim w)) eqn:Ht; [|exact IH].
    cbn [map forallb]. now rewrite parsed_piece, IH. }
  split; [exact H|].
  induction (parseStopWords input) as [|w ws IH]; [reflexivity|].
  cbn [forallb] in H. apply andb_true_iff in H. destruct H as [Hw Hr].
  destruct (parsedWord_spec _ Hw) as (_ & E1 & E2 & _).
  cbn [map]. unfold HtmlParser.normalize at 1. now rewrite E2, E1, IH.
Qed.

(** X2.  Joining words of that kind with a comma or a line feed and
    parsing the result gives the words back. *)
Theorem parseStopWords_joinWith (c : ascii) (ws : list string) :
  isSeparator c = true ->
  forallb parsedWord ws = true ->
  parseStopWords (IString (joinWith (String c EmptyString) ws)) = ws.
Proof.
  intros Hc Hws. destruct ws as [|w ws]; [reflexivity|].
  unfold parseStopWords.
  assert (Hj : truthy (joinWith (String c EmptyString) (w :: ws)) = true).
  { cbn [forallb] in Hws. apply andb_true_iff in Hws. destruct Hws as [Hw _].
    destruct (parsedWord_spec _ Hw) as (Ht & _).
    destruct w; [discriminate Ht|]. now destruct ws. }
  rewrite Hj. cbn [negb].
  rewrite splitBy_joinWith; [now apply parsed_words_fixed | exact Hc |].
  apply Forall_forall. intros v Hv.
  rewrite forallb_forall in Hws. now destruct (parsedWord_spec _ (Hws v Hv)).
Qed.

Lemma dedup_app_again (d c : list string) :
  HtmlParser.dedup (d ++ HtmlParser.dedup (d ++ c)) = HtmlParser.dedup (d ++ c).
Proof.
  rewrite (dedup_app d (HtmlParser.dedup (d ++ c))).
  rewrite (dedup_fixed (dedup_NoDup (d ++ c))).
  rewrite (dedup_app d c), filter_app.
  set (out := fun y => negb (existsb (String.eqb y) d)).
  rewrite (filter_none out (HtmlParser.dedup d)).
  - cbn [app]. f_equal. apply forallb_filter_id, forallb_forall.
    intros y Hy. now apply filter_In in Hy.
  - intros y Hy. apply (proj1 (dedup_In _ _)) in Hy.
    apply negb_false_iff, existsb_exists. exists y.
    split; [exact Hy | apply String.eqb_refl].
Qed.

Lemma parseStopWords_joinWith_witness :
  parseStopWords (IString "casino,free money,act now"%string)
  = ["casino"; "free money"; "act now"]%string.
Proof.
  apply (parseStopWords_joinWith ","%char ["casino"; "free money"; "act now"]%string);
    reflexivity.
Defined.

(** X3.  [combineStopWords] lists every word once: the default words
    first, in their order, then the custom words that are no default
    words, in the order of their first occurrence.  Combining the
    result again changes nothing. *)
Theorem combineStopWords_defaults_then_custom (custom : list string) :
  combineStopWords (Some (IArray custom)) =
    combineStopWords None ++
    filter (fun w => negb (existsb (String.eqb w) defaultStopWords))
      (HtmlParser.dedup custom) /\
  NoDup (combineStopWords (Some (IArray custom))) /\
  (forall w, In w (combineStopWords (Some (IArray custom))) <->
             In w defaultStopWords \/ In w custom) /\
  combineStopWords (Some (IArray (combineStopWords (Some (IArray custom))))) =
    combineStopWords (Some (IArray custom)).
Proof.
  unfold combineStopWords. rewrite app_nil_r.
  generalize defaultStopWords. intros d.
  split; [apply dedup_app|]. split; [apply dedup_NoDup|]. split.
  - intros w. now rewrite dedup_In, in_app_iff.
  - apply dedup_app_again.
Qed.

(** X4.  The request handler of the spam analysis searches the default
    words and every custom word it was sent, as a string or as an
    array.  The handler of the complete analysis passes the custom words
    as a second argument, which [combineStopWords] does not have: it
    searches the default words only, whatever it was sent. *)
Theorem request_stop_words (stopWords : Input) :
  (forall w, In w defaultStopWords -> In w (spamRequestStopWords stopWords))
  /\ (forall w, In w (parseStopWords stopWords) -> In w (spamRequestStopWords stopWords))
  /\ (forall l w, stopWords = IArray l -> In w l -> In w (spamRequestStopWords stopWords))
  /\ completeRequestStopWords stopWords = combineStopWords None.
Proof.
  unfold spamRequestStopWords, completeRequestStopWords, combineStopWords.
  rewrite app_nil_r. generalize defaultStopWords. intros d.
  repeat split.
  - intros w Hw. destruct (truthyInput stopWords); [|exact Hw].
    destruct stopWords; [| |exact Hw]; apply dedup_In, in_app_iff; now left.
  - intros w Hw. destruct stopWords as [s | l | b]; [|destruct Hw|destruct Hw].
    cbn [truthyInput]. destruct (truthy s) eqn:Hs.
    + apply dedup_In, in_app_iff. now right.
    + unfold parseStopWords in Hw. rewrite Hs in Hw. destruct Hw.
  - intros l w -> Hw. cbn [truthyInput]. apply dedup_In, in_app_iff. now right.
  - rewrite (dedup_app d d).
    rewrite filter_none; [apply app_nil_r|]. intros y Hy. apply (proj1 (dedup_In _ _)) in Hy.
    apply negb_false_iff, existsb_exists. exists y.
    split; [exact Hy | apply String.eqb_refl].
Qed.

End StopWordLists.

(* ================================================================== *)
(** ** Links and their quality *)
(* ================================================================== *)


Section LinkQuality.

Import Js Backlinks.

(** The score of a link stays within the clamp. *)
Lemma qualityScore_range (l : Link) :
  (20 <= qualityScore (analyzeLinkQuality l) <= 100)%Z.
Proof.
  unfold analyzeLinkQuality. cbn [qualityScore].
  set (nf := truthy (rel l) && includes (rel l) "nofollow").
  set (sp := truthy (rel l) && includes (rel l) "sponsored").
  set (ug := truthy (rel l) && includes (rel l) "ugc").
  destruct (anchor l) as [|c s].
  - cbn [truthy andb negb String.length Nat.ltb Nat.leb].
    destruct nf, sp, ug; cbn; lia.
  - cbn [truthy andb negb].
    replace (0 <? String.length (String c s))%nat with true by reflexivity.
    cbn [negb]. set (n := String.length (String c s)). clearbody n.
    destruct (Nat.ltb_spec 100 n), (Nat.ltb_spec n 3); try lia;
      destruct nf, sp, ug; cbn; lia.
Qed.

(** X5.  The quality score of a link lies between 20 and 100 (the clamp
    to [0,100] of the source never acts): an empty anchor costs 20, the
    three [rel] markers cost 30, 20 and 10, an anchor longer than 100
    characters costs 10 and one of one or two characters 5.  The score
    is 100 exactly for a link without any of the three markers whose
    anchor has between 3 and 100 characters. *)
Theorem analyzeLinkQuality_score (l : Link) :
  let q := analyzeLinkQuality l in
  let n := String.length (anchor l) in
  (20 <= qualityScore q <= 100)%Z
  /\ qualityScore q
     = (100 - (if isNofollow q then 30 else 0) - (if isSponsored q then 20 else 0)
        - (if isUgc q then 10 else 0)
        - (if (n =? 0)%nat then 20 else if (n <? 3)%nat then 5
           else if (100 <? n)%nat then 10 else 0))%Z
  /\ (qualityScore q = 100%Z <->
      isNofollow q = false /\ isSponsored q = false /\ isUgc q = false
      /\ (3 <= n <= 100)%nat).
Proof.
  intros q n. subst q n. unfold analyzeLinkQuality.
  cbn [qualityScore isNofollow isSponsored isUgc].
  set (nf := truthy (rel l) && includes (rel l) "nofollow").
  set (sp := truthy (rel l) && includes (rel l) "sponsored").
  set (ug := truthy (rel l) && includes (rel l) "ugc").
  assert (T : forall (x y : Z) (P : Prop),
             (20 <= x <= 100)%Z -> x = y -> (x = 100%Z <-> P) ->
             (20 <= x <= 100)%Z /\ x = y /\ (x = 100%Z <-> P)) by tauto.
  destruct (anchor l) as [|c s] eqn:Ea.
  - cbn [truthy andb negb String.length Nat.ltb Nat.leb Nat.eqb].
    destruct nf, sp, ug; cbn; apply T; try lia;
      (split; [intros Hq; exfalso; lia | intros (H1 & H2 & H3 & H4); lia]).
  - cbn [truthy andb negb].
    replace (0 <? String.length (String c s))%nat with true by reflexivity.
    cbn [negb]. set (n := String.length (String c s)).
    assert (Hn : (n =? 0)%nat = false) by reflexivity. rewrite Hn. clearbody n.
    destruct (Nat.ltb_spec 100 n), (Nat.ltb_spec n 3); try lia;
      destruct nf, sp, ug; cbn; apply T; try lia;
        (split; [intros Hq; try (exfalso; lia); repeat split; (reflexivity || lia)
                | intros (H1 & H2 & H3 & H4); try discriminate; lia]).
Qed.

End LinkQuality.

Section BacklinkAnalysis.

Import Js Backlinks.

Variable anchorsOf : string -> Client.Outcome (list Anchor).
Variable hostnameOf : string -> option string.

Local Abbreviation analyze := (analyzeBacklinks anchorsOf hostnameOf).
Local Abbreviation history := (analyzeBacklinksHistory anchorsOf hostnameOf).

Lemma filter_partition_length (A : Type) (p : A -> bool) (l : list A) :
  (List.length (filter p l) + List.length (filter (fun x => negb (p x)) l))%nat
  = List.length l.
Proof.
  induction l as [|x l IH]; [reflexivity|]. cbn [filter].
  destruct (p x); cbn [negb List.length]; lia.
Qed.

Lemma dedup_length_le (l : list string) :
  (List.length (HtmlParser.dedup l) <= List.length l)%nat.
Proof.
  induction l as [|x l IH]; [reflexivity|]. cbn [HtmlParser.dedup List.length].
  pose proof (filter_length_le (fun y => negb (y =? x)%string) (HtmlParser.dedup l)).
  lia.
Qed.

Lemma hostsOf_length_le (links : list LinkWithQuality) :
  (List.length (hostsOf hostnameOf links) <= List.length links)%nat.
Proof.
  induction links as [|l links IH]; [reflexivity|].
  unfold hostsOf in *. cbn [flat_map]. rewrite length_app. cbn [List.length].
  destruct (startsWith (href (link l)) "http"); [|cbn [List.length]; lia].
  destruct (hostnameOf (href (link l))); cbn [List.length]; lia.
Qed.

(** The quality of the external links of a page. *)
Lemma averageQuality_bounds (links : list LinkWithQuality) :
  (forall l, In l links -> quality l = analyzeLinkQuality (link l)) ->
  links <> [] ->
  20 <= meanOr0 (fun l => inject_Z (qualityScore (quality l))) links <= 100.
Proof.
  intros Hq Hne. apply meanOr0_bounds; [exact Hne|].
  intros l Hl. rewrite (Hq l Hl).
  destruct (qualityScore_range (link l)) as [H1 H2].
  change 20 with (inject_Z 20). change 100 with (inject_Z 100).
  rewrite <- !Zle_Qle. split; assumption.
Qed.

(** The average quality of a page: 0 without external links, the mean
    of scores in [20,100] otherwise. *)
Lemma averageQualityScore_cases (html : string) (spamKeywords : list string)
  (domain : option string) :
  let a := analyze html spamKeywords domain in
  (externalLinks a = 0%nat -> averageQualityScore a == 0)
  /\ ((0 < externalLinks a)%nat -> 20 <= averageQualityScore a <= 100).
Proof.
  intros a. subst a. unfold analyzeBacklinks.
  cbn [externalLinks averageQualityScore].
  set (ext := map (withQuality spamKeywords) _).
  split.
  - intros E. apply length_zero_iff_nil in E. rewrite E.
    apply roundOneDecimal_zero. reflexivity.
  - intros Hpos. change 20 with (inject_Z 20). change 100 with (inject_Z 100).
    apply roundOneDecimal_bounds.
    change (inject_Z 20) with 20. change (inject_Z 100) with 100.
    apply averageQuality_bounds.
    + intros l Hl. subst ext. apply in_map_iff in Hl.
      destruct Hl as [x [<- _]]. reflexivity.
    + intros E. rewrite E in Hpos. cbn in Hpos. lia.
Qed.


(** The analyses of the history are those of the captures that have
    HTML. *)
Lemma analyses_filter (snapshots : list Topic.SnapshotWithHtml)
  (spamKeywords : list string) (domain : option string) :
  flat_map (fun snapshot =>
              if truthy (Topic.html snapshot)
              then [(Topic.timestamp snapshot,
                     analyze (Topic.html snapshot) spamKeywords domain)]
              else [])
    snapshots
  = map (fun snapshot => (Topic.timestamp snapshot,
                          analyze (Topic.html snapshot) spamKeywords domain))
      (filter (fun snapshot => truthy (Topic.html snapshot)) snapshots).
Proof.
  induction snapshots as [|s r IH]; [reflexivity|]. cbn [flat_map filter].
  destruct (truthy (Topic.html s)); cbn [app map]; now rewrite IH.
Qed.

(** The average over the captures, the analysed captures being
    [withHtml]: in [0,100], and 0 when none of them has an external
    link. *)
Lemma historyAverage_bounds (withHtml : list Topic.SnapshotWithHtml)
  (spamKeywords : list string) (domain : option string) :
  withHtml <> [] ->
  let scores := map (fun s => (Topic.timestamp s,
                               analyze (Topic.html s) spamKeywords domain)) withHtml in
  0 <= meanOr0 (fun a => averageQualityScore (snd a)) scores <= 100
  /\ ((forall s, In s withHtml ->
                 externalLinks (analyze (Topic.html s) spamKeywords domain) = 0%nat) ->
      meanOr0 (fun a => averageQualityScore (snd a)) scores == 0).
Proof.
  intros Hne scores.
  assert (Hne' : scores <> []).
  { subst scores. destruct withHtml; [now elim Hne | discriminate]. }
  split.
  - apply (meanOr0_bounds _ Hne'). intros a Ha. subst scores.
    apply in_map_iff in Ha. destruct Ha as [s [<- _]]. cbn [snd].
    destruct (averageQualityScore_cases (Topic.html s) spamKeywords domain) as [H0 H1].
    destruct (externalLinks (analyze (Topic.html s) spamKeywords domain)) eqn:En.
    + rewrite (H0 eq_refl). lra.
    + assert (P : (0 < S n)%nat) by lia. specialize (H1 P). lra.
  - intros Hnone.
    assert (Hz : forall a, In a scores -> 0 <= averageQualityScore (snd a) <= 0).
    { intros a Ha. subst scores. apply in_map_iff in Ha.
      destruct Ha as [s [<- Hs]]. cbn [snd].
      destruct (averageQualityScore_cases (Topic.html s) spamKeywords domain) as [H0 _].
      rewrite (H0 (Hnone s Hs)). lra. }
    pose proof (meanOr0_bounds _ Hne' Hz). lra.
Qed.

(** The average quality over the captures is 0 when no analysed capture
    has an external link. *)
Lemma historyQualityScore_zero (snapshots : list Topic.SnapshotWithHtml)
  (spamKeywords : list string) (domain : option string) :
  (forall s, In s snapshots -> truthy (Topic.html s) = true ->
             externalLinks (analyze (Topic.html s) spamKeywords domain) = 0%nat) ->
  historyQualityScore (history snapshots spamKeywords domain) == 0.
Proof.
  intros Hnone. unfold analyzeBacklinksHistory. rewrite analyses_filter.
  set (withHtml := filter (fun s => truthy (Topic.html s)) snapshots).
  destruct withHtml as [|s0 r0] eqn:E; [reflexivity|].
  rewrite <- E.
  set (scores := map _ withHtml).
  replace (List.length scores =? 0)%nat with false
    by (subst scores; rewrite E; reflexivity).
  cbn [historyQualityScore]. apply roundOneDecimal_zero.
  apply historyAverage_bounds; [rewrite E; discriminate|].
  intros s Hs. subst withHtml. apply filter_In in Hs. now apply Hnone.
Qed.

(** X7.  The summary over the captures: the captures analysed are
    those that have HTML, each with one entry in the trend; the average
    quality lies in [0,100]; and it is 0 when no analysed capture has an
    external link (in particular when no capture has HTML). *)
Theorem analyzeBacklinksHistory_summary (snapshots : list Topic.SnapshotWithHtml)
  (spamKeywords : list string) (domain : option string) :
  let h := analyzeBacklinksHistory anchorsOf hostnameOf snapshots spamKeywords domain in
  snapshotsAnalyzed h
  = List.length (filter (fun s => truthy (Topic.html s)) snapshots)
  /\ List.length (spamAnchorsTrend h) = snapshotsAnalyzed h
  /\ 0 <= historyQualityScore h <= 100
  /\ ((forall s, In s snapshots -> truthy (Topic.html s) = true ->
                 externalLinks (analyzeBacklinks anchorsOf hostnameOf (Topic.html s)
                                  spamKeywords domain) = 0%nat) ->
      historyQualityScore h == 0).
Proof.
  intros h. subst h. unfold analyzeBacklinksHistory. rewrite analyses_filter.
  set (withHtml := filter (fun s => truthy (Topic.html s)) snapshots).
  set (f := fun snapshot : Topic.SnapshotWithHtml =>
              (Topic.timestamp snapshot,
               analyze (Topic.html snapshot) spamKeywords domain)).
  destruct withHtml as [|s0 r0] eqn:E.
  - cbn. repeat split; try lra; try (intros _; reflexivity).
  - rewrite <- E.
    replace (List.length (map f withHtml) =? 0)%nat with false
      by (rewrite E; reflexivity).
    cbn [snapshotsAnalyzed spamAnchorsTrend historyQualityScore].
    rewrite !length_map.
    assert (Hne : map f withHtml <> []) by (rewrite E; discriminate).
    destruct (@historyAverage_bounds withHtml spamKeywords domain) as [Hq _];
      [rewrite E; discriminate|].
    split; [reflexivity|]. split; [reflexivity|]. split.
    + change 0 with (inject_Z 0). change 100 with (inject_Z 100).
      apply roundOneDecimal_bounds.
      change (inject_Z 0) with 0. change (inject_Z 100) with 100.
      exact Hq.
    + intros Hnone. apply roundOneDecimal_zero.
      apply historyAverage_bounds; [rewrite E; discriminate|].
      intros s Hs. subst withHtml. apply filter_In in Hs. now apply Hnone.
Qed.

End BacklinkAnalysis.

Section BacklinksInThePipeline.

Import Js Adapter.

Lemma clamp_above (x b : Q) : b < x -> b < 100 -> b < clamp x.
Proof.
  intros Hx Hb. unfold clamp.
  destruct (Qmin_spec 100 (Js.Qmax 0 x)) as (_ & _ & [E | E]); rewrite E; [exact Hb|].
  destruct (Qmax_spec 0 x) as [_ H]. lra.
Qed.

(** An average link quality below 40 rules BUY out. *)
Lemma low_link_quality_is_not_BUY
  (maxSpam overallQuality stability : Js.value) (q : Q)
  (redFlags : list Topic.RedFlag) :
  q < 40 ->
  recommendation (aggregateRisk maxSpam (VNum (Fin q)) overallQuality stability redFlags)
  <> BUY.
Proof.
  intros Hq. rewrite aggregateRisk_recommendation.
  destruct (additionalFactor (invertedRisk overallQuality) 70 _ _) as [rc reasons].
  destruct (additionalFactor_recommendation (invertedRisk (VNum (Fin q))) 60
              "Low backlink quality detected" rc reasons) as [H _].
  rewrite H.
  - destruct rc; discriminate.
  - exists (clamp (100 - q)). split; [reflexivity|]. apply clamp_above; lra.
Qed.

Lemma fetchAll_In (getSnapshotHtml : Client.Snapshot -> Client.Outcome HtmlResult)
  (snapshots : list Client.Snapshot) (s : Topic.SnapshotWithHtml) :
  In s (fetchAll getSnapshotHtml snapshots) ->
  exists snapshot page,
    getSnapshotHtml snapshot = Client.Return page /\ Topic.html s = html page.
Proof.
  unfold fetchAll. rewrite in_flat_map. intros [snapshot [_ H]].
  destruct (getSnapshotHtml snapshot) as [page | e] eqn:E; [|destruct H].
  destruct H as [<- | []]. exists snapshot, page. split; [exact E | reflexivity].
Qed.

(** X8.  A completed analysis of a domain whose fetched pages have no
    external link is never recommended BUY: the average link quality of
    such a domain is 0, which counts as a backlink risk of 100. *)
Theorem no_external_links_never_BUY
  (getSnapshots : string -> nat -> Client.Outcome (list Client.Snapshot))
  (getSnapshotHtml : Client.Snapshot -> Client.Outcome HtmlResult)
  (extractTextContent : string -> option string -> string)
  (extractMetaTags : string -> option string -> HtmlParser.MetaTags)
  (domainNameOf : string -> string)
  (extractTopics : string -> Topic.Topics)
  (anchorsOf : string -> Client.Outcome (list Backlinks.Anchor))
  (hostnameOf : string -> option string)
  (rankReply : string -> Metrics.OprReply) (httpsOk : string -> bool)
  (randomDraw : string -> Z)
  (dom : string) (stopWords : list string) (maxSnapshots : nat)
  (d : string) (report : CompleteReport) :
  analyzeDomainComplete getSnapshots getSnapshotHtml extractTextContent extractMetaTags
    domainNameOf extractTopics (Backlinks.backlinkData anchorsOf hostnameOf)
    rankReply httpsOk randomDraw dom stopWords maxSnapshots
  = CompleteOk d report ->
  (forall snapshot page,
      getSnapshotHtml snapshot = Client.Return page ->
      Backlinks.externalLinks
        (Backlinks.analyzeBacklinks anchorsOf hostnameOf (html page) stopWords (Some dom))
      = 0%nat) ->
  recommendation (assessment report) <> BUY
  /\ exists q, Metrics.averageQualityScore (backlinkAnalysis report) = VNum (Fin q)
               /\ q == 0.
Proof.
  intros Hrun Hnone.
  pose proof (analyzeDomainComplete_assessment _ _ _ _ _ _ _ _ _ _ _ _ _ Hrun) as Ha.
  unfold analyzeDomainComplete in Hrun.
  destruct (getSnapshots dom maxSnapshots) as [snapshots | e]; [|discriminate].
  destruct (List.length snapshots =? 0)%nat; [discriminate|].
  unfold Backlinks.backlinkData in Hrun. injection Hrun as _ <-.
  cbn [backlinkAnalysis Metrics.averageQualityScore] in *.
  set (h := Backlinks.analyzeBacklinksHistory anchorsOf hostnameOf
              (fetchAll getSnapshotHtml snapshots) stopWords (Some dom)) in *.
  assert (Hz : Backlinks.historyQualityScore h == 0).
  { apply historyQualityScore_zero. intros s Hs _. apply fetchAll_In in Hs.
    destruct Hs as (snapshot & page & Hp & ->). now apply Hnone with snapshot. }
  split.
  - cbn [assessment] in *. rewrite Ha. apply low_link_quality_is_not_BUY. lra.
  - exists (Backlinks.historyQualityScore h). split; [reflexivity | exact Hz].
Qed.

(** The scenario's pages hold no link: its run is completed, and not
    with BUY. *)
Lemma no_external_links_never_BUY_witness :
  match LinklessScenario.run with
  | CompleteOk _ report => recommendation (assessment report) <> BUY
  | _ => False
  end.
Proof.
  destruct LinklessScenario.run as [d report | d | d e] eqn:E.
  - apply (no_external_links_never_BUY _ _ _ _ _ _ _ _ _ _ _ _ _ _ E).
    intros snapshot page _. reflexivity.
  - vm_compute in E. discriminate E.
  - vm_compute in E. discriminate E.
Defined.

End BacklinksInThePipeline.

(* ================================================================== *)
(** ** Spam detection over the captures of a domain *)
(* ================================================================== *)

Section SpamDetection.

Import Js Adapter Invariant.

Variable getSnapshots : string -> nat -> Client.Outcome (list Client.Snapshot).
Variable getSnapshotHtml : Client.Snapshot -> Client.Outcome HtmlResult.
Variable extractTextContent : string -> option string -> string.
Variable extractMetaTags : string -> option string -> HtmlParser.MetaTags.
Variable domainNameOf : string -> string.

Variable stopWords : list string.
Variable domainName : string.

Local Abbreviation step :=
  (analyzeSnapshot getSnapshotHtml extractTextContent extractMetaTags stopWords domainName).
Local Abbreviation outcome :=
  (fetchAndAnalyze getSnapshotHtml extractTextContent extractMetaTags stopWords domainName).

(** The score of a text is 0 when no stop word is found in it and
    between 2 and 10 otherwise. *)
Lemma checkStopWords_flag (text : string) (ws : list string) :
  let chk := HtmlParser.checkStopWords text ws in
  ((0 <? HtmlParser.foundCount chk)%nat = false -> HtmlParser.score chk = 0%Z)
  /\ ((0 <? HtmlParser.foundCount chk)%nat = true -> (2 <= HtmlParser.score chk <= 10)%Z).
Proof.
  intros chk. subst chk. rewrite checkStopWords_score, checkStopWords_count.
  set (u := HtmlParser.uniqueMatches text ws).
  set (t := Z.of_nat (HtmlParser.totalMatches text ws)).
  unfold HtmlParser.specScore. split; intros H.
  - apply Nat.ltb_ge in H. replace u with 0%nat by lia. reflexivity.
  - apply Nat.ltb_lt in H.
    destruct (Z.eqb_spec (Z.of_nat u) 0); [lia|].
    destruct (Z.ltb_spec 10 t); [lia|].
    destruct (Z.ltb_spec 5 t); lia.
Qed.

(** A capture that was analysed is flagged exactly when its score is
    not 0, and then the score is at least 2. *)
Lemma analysis_flag (s : Client.Snapshot) (a : HtmlParser.SpamAnalysis) :
  outcome s = Client.Return a ->
  (HtmlParser.isSpam a = false -> HtmlParser.spamScore a = 0%Z)
  /\ (HtmlParser.isSpam a = true -> (2 <= HtmlParser.spamScore a <= 10)%Z).
Proof.
  unfold fetchAndAnalyze. destruct (getSnapshotHtml s) as [page | e]; [|discriminate].
  destruct (negb (truthy (html page))); [discriminate|].
  intros [= <-]. unfold HtmlParser.analyzeHtmlForSpam.
  cbn [HtmlParser.isSpam HtmlParser.spamScore]. apply checkStopWords_flag.
Qed.

Lemma step_counted (st : Loop.State) (s : Client.Snapshot) :
  counted st -> counted (step st s).
Proof.
  unfold counted. intros (H1 & H2 & H3 & H4 & H5). unfold analyzeSnapshot.
  destruct (outcome s) as [a | e] eqn:E.
  - destruct (analysis_flag s E) as [Hclean Hspam].
    destruct (HtmlParser.isSpam a) eqn:Ha.
    + specialize (Hspam eq_refl).
      cbn [Loop.spamSnapshots Loop.successfullyAnalyzed Loop.maxSpamScore
           Loop.totalSpamScore].
      destruct (Z.gtb_spec (HtmlParser.spamScore a) (Loop.maxSpamScore st));
        repeat split; try lia; try nia.
    + specialize (Hclean eq_refl).
      cbn [Loop.spamSnapshots Loop.successfullyAnalyzed Loop.maxSpamScore
           Loop.totalSpamScore].
      destruct (Z.gtb_spec (HtmlParser.spamScore a) (Loop.maxSpamScore st));
        repeat split; try lia; try nia.
  - cbn [Loop.spamSnapshots Loop.successfullyAnalyzed Loop.maxSpamScore
         Loop.totalSpamScore].
    repeat split; try lia; try nia.
Qed.

Lemma loop_counted (snapshots : list Client.Snapshot) (st : Loop.State) :
  counted st -> counted (fold_left step snapshots st).
Proof.
  revert st. induction snapshots as [|s l IH]; intros st H; [exact H|].
  cbn [fold_left]. apply IH, step_counted, H.
Qed.

End SpamDetection.

Section SpamDetectionResult.

Import Js Adapter.


End SpamDetectionResult.


(* ================================================================== *)
(** ** The penalty for red flags *)
(* ================================================================== *)

Section RedFlagPenalty.

Import Js Adapter Invariant.

Lemma flagPenalty_sum (flags : list Topic.RedFlag) (acc : Z) :
  fold_left (fun sum flag => (sum + flagPenalty flag)%Z) flags acc
  = (acc + 15 * countSeverity Topic.high flags + 8 * countSeverity Topic.medium flags
     + 3 * countSeverity Topic.low flags)%Z.
Proof.
  revert acc. unfold countSeverity.
  induction flags as [|f flags IH]; intros acc; [cbn; lia|].
  cbn [fold_left filter]. rewrite IH. unfold flagPenalty, hasSeverity.
  destruct (Topic.severity f); cbn [List.length]; lia.
Qed.

Lemma redFlagPenaltyOf_sum (flags : list Topic.RedFlag) :
  redFlagPenaltyOf flags
  = Z.min 30 (15 * countSeverity Topic.high flags + 8 * countSeverity Topic.medium flags
              + 3 * countSeverity Topic.low flags).
Proof.
  unfold redFlagPenaltyOf. destruct flags as [|f flags]; [reflexivity|].
  cbn [List.length Nat.ltb Nat.leb]. now rewrite flagPenalty_sum.
Qed.

Lemma countSeverity_app (s : Topic.Severity) (a b : list Topic.RedFlag) :
  countSeverity s (a ++ b) = (countSeverity s a + countSeverity s b)%Z.
Proof. unfold countSeverity. rewrite filter_app, length_app. lia. Qed.

Lemma countSeverity_nonneg (s : Topic.Severity) (a : list Topic.RedFlag) :
  (0 <= countSeverity s a)%Z.
Proof. unfold countSeverity. lia. Qed.

(** A penalty of 20 or more decides for AVOID. *)
Lemma penalty_AVOID (maxSpam averageQuality overallQuality stability : Js.value)
  (redFlags : list Topic.RedFlag) :
  (20 <= redFlagPenaltyOf redFlags)%Z ->
  recommendation (aggregateRisk maxSpam averageQuality overallQuality stability redFlags)
  = AVOID.
Proof.
  intros Hp. rewrite aggregateRisk_recommendation.
  match goal with
  | |- context [baseRecommendation ?a ?b ?c] =>
      pose proof (baseRecommendation_precedence a b c) as HP;
      destruct (baseRecommendation a b c) as [rc reason]
  end.
  cbn [fst snd] in *.
  assert (E : rc = AVOID) by (inversion HP; subst; try reflexivity; lia).
  subst rc.
  assert (K : forall risk bound note reasons,
             fst (additionalFactor risk bound note (AVOID, reasons)) = AVOID).
  { intros risk bound note reasons. unfold additionalFactor.
    destruct risk as [r|]; [|reflexivity].
    destruct (negb (Qle_bool r bound)); reflexivity. }
  destruct (additionalFactor (invertedRisk overallQuality) 70 _ _) as [rc reasons] eqn:E1.
  assert (E2 : rc = AVOID).
  { change rc with (fst (rc, reasons)). rewrite <- E1. apply K. }
  subst rc. apply K.
Qed.

(** X10.  The penalty for the topic red flags is 15 for each flag of
    high severity, 8 for each of medium and 3 for each of low severity,
    capped at 30 however many flags there are; more flags never lower
    it.  Two flags of high severity reach the cap, and the domain is
    then recommended AVOID with risk level HIGH, whatever its scores. *)
Theorem redFlagPenalty_capped (flags : list Topic.RedFlag) :
  redFlagPenaltyOf flags
  = Z.min 30 (15 * countSeverity Topic.high flags + 8 * countSeverity Topic.medium flags
              + 3 * countSeverity Topic.low flags)
  /\ (0 <= redFlagPenaltyOf flags <= 30)%Z
  /\ (forall more, (redFlagPenaltyOf flags <= redFlagPenaltyOf (flags ++ more))%Z)
  /\ ((2 <= countSeverity Topic.high flags)%Z ->
      redFlagPenaltyOf flags = 30%Z
      /\ forall maxSpam averageQuality overallQuality stability,
           let r := aggregateRisk maxSpam averageQuality overallQuality stability flags in
           recommendation r = AVOID /\ riskLevel r = HIGH).
Proof.
  pose proof (countSeverity_nonneg Topic.high flags).
  pose proof (countSeverity_nonneg Topic.medium flags).
  pose proof (countSeverity_nonneg Topic.low flags).
  split; [apply redFlagPenaltyOf_sum|]. split; [rewrite redFlagPenaltyOf_sum; lia|].
  split.
  - intros more. rewrite !redFlagPenaltyOf_sum, !countSeverity_app.
    pose proof (countSeverity_nonneg Topic.high more).
    pose proof (countSeverity_nonneg Topic.medium more).
    pose proof (countSeverity_nonneg Topic.low more). lia.
  - intros Hh.
    assert (E : redFlagPenaltyOf flags = 30%Z) by (rewrite redFlagPenaltyOf_sum; lia).
    split; [exact E|]. intros maxSpam averageQuality overallQuality stability r.
    assert (Hr : recommendation r = AVOID) by (apply penalty_AVOID; lia).
    split; [exact Hr|].
    subst r. rewrite aggregateRisk_level, Hr. apply riskLevelOf_AVOID.
Qed.

End RedFlagPenalty.

(* ================================================================== *)
(** ** Fetching the HTML of a capture *)
(* ================================================================== *)

Section FetcherFacts.

Import Js Fetcher.

Variable timeout : Z.
Variable fetch : list Event -> string -> Client.Outcome Response.
Variable pathnameOf : string -> option string.
Variable load : string -> option (string -> option string).

Local Abbreviation request := (createFetchWithTimeout timeout fetch).
Local Abbreviation content := (tryContent timeout fetch).
Local Abbreviation extract :=
  (extractOriginalHtmlFromWaybackWrapper timeout fetch pathnameOf load).
Local Abbreviation loop := (getSnapshotHtmlLoop timeout fetch pathnameOf load).

Lemma continues_refl (st : Instance) : continues st st.
Proof. split; [reflexivity|]. exists []. now rewrite app_nil_r. Qed.

Lemma continues_trans (a b c : Instance) :
  continues a b -> continues b c -> continues a c.
Proof.
  intros [H1 [m1 E1]] [H2 [m2 E2]]. split; [congruence|].
  exists (m1 ++ m2). now rewrite E2, E1, app_assoc.
Qed.

Lemma continues_grows (a b : Instance) : continues a b -> grows a b.
Proof. intros [H E]. split; [now rewrite H | exact E]. Qed.

Lemma grows_trans (a b c : Instance) : grows a b -> grows b c -> grows a c.
Proof.
  intros [H1 [m1 E1]] [H2 [m2 E2]]. split; [auto|].
  exists (m1 ++ m2). now rewrite E2, E1, app_assoc.
Qed.

Lemma record_continues (e : Event) (st : Instance) : continues st (record e st).
Proof. split; [reflexivity|]. now exists [e]. Qed.

Lemma request_state (url : string) (st : Instance) :
  snd (request url st) = record (Request url) st.
Proof.
  unfold createFetchWithTimeout. destruct (fetch (events st) url) as [r | e];
    [reflexivity|].
  destruct (Client.name e =? "AbortError")%string; reflexivity.
Qed.

Lemma request_continues (url : string) (st : Instance) :
  continues st (snd (request url st)).
Proof. rewrite request_state. apply record_continues. Qed.

Lemma content_continues (url : string) (st : Instance) :
  continues st (snd (content url st)).
Proof.
  unfold tryContent. pose proof (request_continues url st) as H.
  destruct (request url st) as [[response | e] st']; cbn [snd] in *; [|exact H].
  destruct (ok response); [|exact H].
  destruct (text response) as [html | e]; [|exact H].
  destruct (truthy html && (100 <? String.length html)%nat
            && negb (isWaybackWrapperHtml html)); exact H.
Qed.

Lemma selector_continues (select : string -> option string) (selector : string)
  (st : Instance) :
  continues st (snd (trySelector timeout fetch select selector st)).
Proof.
  unfold trySelector. destruct (select selector) as [src|]; [|apply continues_refl].
  destruct (truthy src); [apply content_continues | apply continues_refl].
Qed.

Lemma selectors_continues (select : string -> option string) (selectors : list string)
  (st : Instance) :
  continues st (snd (trySelectors timeout fetch select selectors st)).
Proof.
  revert st. induction selectors as [|selector rest IH]; intros st;
    [apply continues_refl|].
  cbn [trySelectors]. pose proof (selector_continues select selector st) as H.
  destruct (trySelector timeout fetch select selector st) as [[html|] st'];
    cbn [snd] in *; [exact H|].
  apply (continues_trans H), IH.
Qed.

Lemma extract_continues (wrapperHtml snapshotUrl : string) (st : Instance) :
  continues st (snd (extract wrapperHtml snapshotUrl st)).
Proof.
  unfold extractOriginalHtmlFromWaybackWrapper.
  destruct (parseWaybackSnapshotUrl pathnameOf snapshotUrl) as [[timestamp originalUrl]|];
    [|apply continues_refl].
  destruct (load wrapperHtml) as [select|]; [|apply continues_refl].
  pose proof (selector_continues select "#playback" st) as H1.
  destruct (trySelector timeout fetch select "#playback" st) as [[html|] st1];
    cbn [snd] in *; [exact H1|].
  pose proof (content_continues (rawUrlOf timestamp originalUrl) st1) as H2.
  destruct (content (rawUrlOf timestamp originalUrl) st1) as [[html|] st2];
    cbn [snd] in *; [exact (continues_trans H1 H2)|].
  pose proof (selectors_continues select contentSelectors st2) as H3.
  destruct (trySelectors timeout fetch select contentSelectors st2) as [[html|] st3];
    cbn [snd] in *; exact (continues_trans H1 (continues_trans H2 H3)).
Qed.

Lemma unwrap_continues (html url : string) (st : Instance) :
  continues st (snd (unwrap timeout fetch pathnameOf load html url st)).
Proof.
  unfold unwrap. destruct (isWaybackWrapperHtml html); [|apply continues_refl].
  pose proof (extract_continues html url st) as H.
  destruct (extract html url st) as [extracted st']. cbn [snd] in *.
  destruct (truthy extracted && negb (extracted =? html)%string
            && (100 <? String.length (trim extracted))%nat); exact H.
Qed.

(** *** The cache *)

Lemma cacheGet_set (key : string) (value : Adapter.HtmlResult)
  (cache : list (string * Adapter.HtmlResult)) :
  cacheGet key (cacheSet key value cache) = Some value.
Proof.
  induction cache as [|[k v] r IH]; cbn [cacheSet cacheGet].
  - now rewrite String.eqb_refl.
  - destruct (String.eqb_spec k key) as [E | N]; cbn [cacheGet].
    + now rewrite E, String.eqb_refl.
    + destruct (String.eqb_spec k key); [contradiction | exact IH].
Qed.

Lemma cacheGet_set_other (key k' : string) (value : Adapter.HtmlResult)
  (cache : list (string * Adapter.HtmlResult)) :
  k' <> key -> cacheGet k' (cacheSet key value cache) = cacheGet k' cache.
Proof.
  intros N. induction cache as [|[k v] r IH]; cbn [cacheSet cacheGet].
  - destruct (String.eqb_spec key k'); [congruence | reflexivity].
  - destruct (String.eqb_spec k key) as [E | N']; cbn [cacheGet].
    + subst k. destruct (String.eqb_spec key k'); [congruence | reflexivity].
    + destruct (String.eqb_spec k k'); [reflexivity | exact IH].
Qed.

(** Storing under a key that is not in the cache keeps what is. *)
Lemma store_grows (key : string) (value : Adapter.HtmlResult) (st : Instance) :
  cacheGet key (snapshotCache st) = None -> grows st (store key value st).
Proof.
  intros Hmiss. split; [|exists []; cbn; now rewrite app_nil_r].
  intros k v Hk. cbn [store snapshotCache].
  destruct (String.eqb_spec k key) as [-> | N]; [congruence|].
  now rewrite cacheGet_set_other.
Qed.

Lemma continues_miss (key : string) (st st' : Instance) :
  continues st st' ->
  cacheGet key (snapshotCache st) = None -> cacheGet key (snapshotCache st') = None.
Proof. intros [E _]. now rewrite E. Qed.

(** *** A call *)

Section OneLevel.

Variable snapshot : Client.Snapshot.
Variable rateLimited : Instance -> Client.Outcome Adapter.HtmlResult * Instance.

Local Abbreviation key := (cacheKey snapshot).

(** The retry, when there is one, leaves behind what a call does. *)
Hypothesis rateLimited_settled :
  forall st, cacheGet key (snapshotCache st) = None -> settled key st (rateLimited st).

(** The page of a response is stored and returned. *)
Lemma stored_settled (st st1 : Instance) (html url snapshotUrl : string) :
  cacheGet key (snapshotCache st) = None ->
  continues st st1 ->
  settled key st
    (let '(page, st2) := unwrap timeout fetch pathnameOf load html url st1 in
     (Client.Return (Adapter.mkHtmlResult page snapshotUrl),
      store key (Adapter.mkHtmlResult page snapshotUrl) st2)).
Proof.
  intros Hmiss H1. pose proof (unwrap_continues html url st1) as H2.
  destruct (unwrap timeout fetch pathnameOf load html url st1) as [page st2].
  cbn [snd] in H2. pose proof (continues_trans H1 H2) as H.
  split; [|split]; cbn [fst snd].
  - apply (grows_trans (continues_grows H)), store_grows.
    now apply (continues_miss key H).
  - intros r [= <-]. apply cacheGet_set.
  - intros e [=].
Qed.

Lemma failed_settled (st st1 : Instance) (e : Client.JsError) :
  continues st st1 -> settled key st (Client.Throw e, st1).
Proof.
  intros H. split; [now apply continues_grows|]. split; cbn [fst snd].
  - intros r [=].
  - intros _ _. apply H.
Qed.

Lemma retried_settled (st st1 : Instance) :
  cacheGet key (snapshotCache st) = None ->
  continues st st1 -> settled key st (rateLimited st1).
Proof.
  intros Hmiss H. destruct (rateLimited_settled st1 (continues_miss key H Hmiss))
    as (G & R & T).
  split; [exact (grows_trans (continues_grows H) G)|]. split; [exact R|].
  intros e He. rewrite (T e He). apply H.
Qed.

(** Strategy 2 leaves behind what a call does. *)
Lemma wrapperStrategy_settled (st st0 : Instance) :
  cacheGet key (snapshotCache st) = None ->
  continues st st0 ->
  settled key st (wrapperStrategy timeout fetch pathnameOf load snapshot rateLimited st0).
Proof.
  intros Hmiss H0. unfold wrapperStrategy.
  set (url := buildSnapshotUrl _ _).
  pose proof (continues_trans H0 (request_continues url st0)) as H1.
  destruct (request url st0) as [[response | e] st1]; cbn [snd] in H1;
    [|now apply failed_settled].
  destruct (status response =? 429)%Z.
  - pose proof (retried_settled Hmiss H1) as (G & R & T).
    destruct (rateLimited st1) as [[r | e] st2]; cbn [fst snd] in *.
    + split; [exact G|]. split; [exact R | intros e [=]].
    + split; [exact G|]. split; [intros r [=]|]. intros _ _. now apply (T e).
  - destruct (negb (ok response)); [now apply failed_settled|].
    destruct (text response) as [html | e]; [|now apply failed_settled].
    apply (stored_settled html url url Hmiss H1).
Qed.

(** The two strategies with the outer [catch]. *)
Lemma strategies_settled (st : Instance) :
  cacheGet key (snapshotCache st) = None ->
  settled key st (strategies timeout fetch pathnameOf load snapshot rateLimited st).
Proof.
  intros Hmiss. unfold strategies.
  assert (K : forall out : Client.Outcome Adapter.HtmlResult * Instance,
             settled key st out ->
             settled key st
               (match fst out with
                | Client.Return r => (Client.Return r, snd out)
                | Client.Throw error =>
                    if includes (Client.message error) "timeout"
                    then (Client.Throw error, snd out)
                    else (Client.Throw
                            (Client.newError ("Failed to fetch snapshot HTML: "
                                              ++ Client.message error)), snd out)
                end)).
  { intros [[r | e] st'] (G & R & T); cbn [fst snd] in *.
    - split; [exact G|]. split; [exact R | intros e [=]].
    - destruct (includes (Client.message e) "timeout");
        (split; [exact G|]; split; [intros r [=]|]; intros _ _; now apply (T e)). }
  match goal with
  | |- settled _ _ (let '(outcome, st') := ?X in _) =>
      assert (HX : settled key st X); [|specialize (K X HX); destruct X; exact K]
  end.
  unfold rawStrategy.
  set (rawUrl := rawUrlOf _ _).
  pose proof (request_continues rawUrl st) as H1.
  destruct (request rawUrl st) as [[response | e] st1]; cbn [snd] in H1.
  - destruct (status response =? 429)%Z.
    + pose proof (retried_settled Hmiss H1) as (G & R & T).
      destruct (rateLimited st1) as [[r | e] st2]; cbn [fst snd] in *.
      * split; [exact G|]. split; [exact R | intros e [=]].
      * assert (H2 : continues st st2).
        { split; [now apply (T e)|]. apply G. }
        destruct (negb (includes (Client.message e) "timeout"));
          [now apply wrapperStrategy_settled | now apply failed_settled].
    + destruct (ok response).
      * destruct (text response) as [html | e].
        -- pose proof (stored_settled html rawUrl
                         (buildSnapshotUrl (Client.timestamp snapshot)
                            (Client.originalUrl snapshot)) Hmiss H1) as HS.
           destruct (unwrap timeout fetch pathnameOf load html rawUrl st1) as [page st2].
           split; [apply HS|]. split; [|intros e [=]].
           intros r [= <-]. apply HS. reflexivity.
        -- destruct (negb (includes (Client.message e) "timeout"));
             [now apply wrapperStrategy_settled | now apply failed_settled].
      * now apply wrapperStrategy_settled.
  - destruct (negb (includes (Client.message e) "timeout"));
      [now apply wrapperStrategy_settled | now apply failed_settled].
Qed.

End OneLevel.

(** Every call leaves behind what a call does. *)
Lemma loop_settled (snapshot : Client.Snapshot) (maxRetries retriesLeft retryCount : nat)
  (st : Instance) :
  (cacheGet (cacheKey snapshot) (snapshotCache st) = None ->
   settled (cacheKey snapshot) st (loop snapshot retryCount maxRetries retriesLeft st))
  /\ (forall cached, cacheGet (cacheKey snapshot) (snapshotCache st) = Some cached ->
       truthy (Client.timestamp snapshot) = true ->
       truthy (Client.originalUrl snapshot) = true ->
       loop snapshot retryCount maxRetries retriesLeft st = (Client.Return cached, st)).
Proof.
  revert retryCount st. induction retriesLeft as [|fewer IH]; intros retryCount st.
  - split.
    + intros Hmiss. cbn [getSnapshotHtmlLoop].
      destruct (negb (truthy (Client.timestamp snapshot))
                || negb (truthy (Client.originalUrl snapshot)));
        [apply failed_settled, continues_refl|].
      rewrite Hmiss. apply strategies_settled; [|exact Hmiss].
      intros st1 H1. apply failed_settled, continues_refl.
    + intros cached Hc Ht Hu. cbn [getSnapshotHtmlLoop]. now rewrite Ht, Hu, Hc.
  - split.
    + intros Hmiss. cbn [getSnapshotHtmlLoop].
      destruct (negb (truthy (Client.timestamp snapshot))
                || negb (truthy (Client.originalUrl snapshot)));
        [apply failed_settled, continues_refl|].
      rewrite Hmiss. apply strategies_settled; [|exact Hmiss].
      intros st1 H1.
      set (st2 := record (Wait (getBackoffDelay retryCount)) st1).
      assert (H2 : continues st1 st2) by apply record_continues.
      destruct (IH (S retryCount) st2) as [IHm _].
      destruct (IHm (continues_miss _ H2 H1)) as (G & R & T).
      split; [exact (grows_trans (continues_grows H2) G)|]. split; [exact R|].
      intros e He. rewrite (T e He). apply H2.
    + intros cached Hc Ht Hu. cbn [getSnapshotHtmlLoop]. now rewrite Ht, Hu, Hc.
Qed.

End FetcherFacts.

Section FetcherCache.

Import Js Fetcher.

Lemma grows_refl (st : Instance) : grows st st.
Proof. split; [auto|]. exists []. now rewrite app_nil_r. Qed.


End FetcherCache.

(* ================================================================== *)
(** ** A capture behind a persistent rate limit *)
(* ================================================================== *)

Section Separators.

Import Js.

(** A word is not found across a character it does not contain. *)
Lemma startsWith_separator (a b w : string) (c : ascii) :
  charIn c w = false ->
  truthy w = true ->
  startsWith (a ++ String c b) w = startsWith a w.
Proof.
  revert a. induction w as [|x w IH]; intros a Hc Hw; [discriminate Hw|].
  cbn [charIn] in Hc. apply orb_false_iff in Hc. destruct Hc as [Hx Hc].
  destruct a as [|y a]; cbn [append startsWith].
  - rewrite Ascii.eqb_sym, Hx. reflexivity.
  - destruct (Ascii.eqb x y); cbn [andb]; [|reflexivity].
    destruct w as [|z w']; [now destruct a|].
    apply IH; [exact Hc | reflexivity].
Qed.

Lemma includes_separator (a b w : string) (c : ascii) :
  charIn c w = false ->
  truthy w = true ->
  includes (a ++ String c b) w = includes a w || includes b w.
Proof.
  intros Hc Hw. induction a as [|y a IH].
  - cbn [append]. change (includes (String c b) w)
      with (startsWith (String c b) w || includes b w).
    pose proof (startsWith_separator "" b w c Hc Hw) as E. cbn [append] in E.
    rewrite E. destruct w; [discriminate Hw | reflexivity].
  - change (String y a ++ String c b)%string with (String y (a ++ String c b)).
    change (includes (String y (a ++ String c b)) w)
      with (startsWith (String y a ++ String c b) w || includes (a ++ String c b) w).
    rewrite startsWith_separator by assumption. rewrite IH.
    change (includes (String y a) w)
      with (startsWith (String y a) w || includes a w).
    now rewrite orb_assoc.
Qed.

Lemma includes_digits (z : Z) : includes (showZ z) "timeout" = false.
Proof.
  apply includes_only_chars; [reflexivity|].
  apply disjointChars_only with decimalChars; [reflexivity | apply showZ_chars].
Qed.

End Separators.

Section RateLimit.

Import Js Fetcher.

Variable timeout : Z.
Variable fetch : list Event -> string -> Client.Outcome Response.
Variable pathnameOf : string -> option string.
Variable load : string -> option (string -> option string).
Variable snapshot : Client.Snapshot.
Variable maxRetries : nat.

Local Abbreviation loop := (getSnapshotHtmlLoop timeout fetch pathnameOf load snapshot).
Local Abbreviation rawUrl :=
  (rawUrlOf (Client.timestamp snapshot) (Client.originalUrl snapshot)).
Local Abbreviation pageUrl :=
  (buildSnapshotUrl (Client.timestamp snapshot) (Client.originalUrl snapshot)).
Local Abbreviation quiet m := (includes m "timeout" = false).
Local Abbreviation total := (fold_right Z.add 0%Z).

(** Every request is answered 429. *)
Hypothesis always429 : forall h u, exists r, fetch h u = Client.Return r /\ status r = 429%Z.

Hypothesis has_timestamp : truthy (Client.timestamp snapshot) = true.
Hypothesis has_url : truthy (Client.originalUrl snapshot) = true.

(** Neither part of the capture reads as a timeout. *)
Hypothesis quiet_timestamp : quiet (Client.timestamp snapshot).
Hypothesis quiet_url : quiet (Client.originalUrl snapshot).

Lemma request_429 (url : string) (st : Instance) :
  exists r, createFetchWithTimeout timeout fetch url st
            = (Client.Return r, record (Request url) st)
            /\ status r = 429%Z.
Proof.
  destruct (always429 (events st) url) as [r [E Hs]]. exists r.
  unfold createFetchWithTimeout. now rewrite E.
Qed.

Lemma quiet_pageUrl : quiet pageUrl.
Proof.
  unfold buildSnapshotUrl.
  change ("/" ++ Client.timestamp snapshot ++ "/" ++ Client.originalUrl snapshot)%string
    with (String "/" (Client.timestamp snapshot
                      ++ String "/" (Client.originalUrl snapshot)))%string.
  rewrite !includes_separator by reflexivity.
  now rewrite quiet_timestamp, quiet_url.
Qed.

Lemma quiet_rateLimit : quiet (Client.message (rateLimitError maxRetries)).
Proof.
  unfold rateLimitError, Client.newError. cbn [Client.message].
  change ("Rate limit exceeded after " ++ showZ (Z.of_nat maxRetries)
          ++ " retries. Please try again later.")%string
    with ("Rate limit exceeded after"
          ++ String " " (showZ (Z.of_nat maxRetries)
                         ++ String " " "retries. Please try again later."))%string.
  rewrite !includes_separator by reflexivity.
  now rewrite includes_digits.
Qed.

(** The message of the [catch] of strategy 2 for a 429 answer. *)
Lemma quiet_wrapperFailure (e : Client.JsError) :
  quiet (Client.message e) ->
  quiet (Client.message (wrapperFailure snapshot (Some 429%Z) e)).
Proof.
  intros He. unfold wrapperFailure, fetchFailure, Client.newError. cbn [Client.message].
  change (showZ 429) with "429"%string.
  rewrite !append_assoc.
  change ("Failed to fetch snapshot HTML (HTTP " ++ "429" ++ ") for "
          ++ pageUrl ++ ": " ++ Client.message e)%string
    with ("Failed to fetch snapshot HTML (HTTP 429) for"
          ++ String " " (pageUrl ++ String ":" ("" ++ String " " (Client.message e))))%string.
  rewrite !includes_separator by reflexivity.
  now rewrite quiet_pageUrl, He.
Qed.

Lemma quiet_outer (m : string) :
  quiet m ->
  quiet ("Failed to fetch snapshot HTML: " ++ m)
  /\ startsWith ("Failed to fetch snapshot HTML: " ++ m)
       "Failed to fetch snapshot HTML: " = true.
Proof.
  intros Hm. split; [|apply startsWith_app; reflexivity].
  change ("Failed to fetch snapshot HTML: " ++ m)%string
    with ("Failed to fetch snapshot HTML:" ++ String " " m)%string.
  rewrite includes_separator by reflexivity. now rewrite Hm.
Qed.

Lemma requests_app (a b : list Event) : requests (a ++ b) = (requests a + requests b)%nat.
Proof. unfold requests. now rewrite filter_app, length_app. Qed.

Lemma waits_app (a b : list Event) : waits (a ++ b) = waits a ++ waits b.
Proof. unfold waits. apply flat_map_app. Qed.

Lemma total_app (a b : list Z) : total (a ++ b) = (total a + total b)%Z.
Proof. induction a as [|x a IH]; cbn [app fold_right]; lia. Qed.

(** One level of the call, the two retries failing quietly: the events
    are the two requests, each followed by what its retry did. *)
Lemma limited_level (P : list Event -> Prop) (retryCount retriesLeft : nat)
  (st : Instance) :
  cacheGet (cacheKey snapshot) (snapshotCache st) = None ->
  (forall st1,
      cacheGet (cacheKey snapshot) (snapshotCache st1) = None ->
      exists e more,
        match retriesLeft with
        | S fewer => loop (S retryCount) maxRetries fewer
                       (record (Wait (getBackoffDelay retryCount)) st1)
        | O => (Client.Throw (rateLimitError maxRetries), st1)
        end
        = (Client.Throw e, mkInstance (snapshotCache st1) (events st1 ++ more))
        /\ quiet (Client.message e) /\ P more) ->
  exists e more1 more2,
    loop retryCount maxRetries retriesLeft st
    = (Client.Throw e,
       mkInstance (snapshotCache st)
         (events st ++ [Request rawUrl] ++ more1 ++ [Request pageUrl] ++ more2))
    /\ quiet (Client.message e)
    /\ startsWith (Client.message e) "Failed to fetch snapshot HTML: " = true
    /\ P more1 /\ P more2.
Proof.
  intros Hmiss Hagain.
  set (again := fun st1 : Instance =>
                  match retriesLeft with
                  | S fewer => loop (S retryCount) maxRetries fewer
                                 (record (Wait (getBackoffDelay retryCount)) st1)
                  | O => (Client.Throw (rateLimitError maxRetries), st1)
                  end).
  assert (E : loop retryCount maxRetries retriesLeft st
              = strategies timeout fetch pathnameOf load snapshot again st).
  { destruct retriesLeft; cbn [getSnapshotHtmlLoop];
      rewrite has_timestamp, has_url, Hmiss; reflexivity. }
  rewrite E. clear E. unfold strategies, rawStrategy.
  destruct (request_429 rawUrl st) as [r1 [E1 S1]]. rewrite E1, S1. cbn [Z.eqb Pos.eqb].
  set (st1 := record (Request rawUrl) st).
  destruct (Hagain st1 Hmiss) as (e1 & more1 & A1 & Q1 & P1). fold (again st1) in A1.
  rewrite A1, Q1. cbn [negb].
  set (st2 := mkInstance (snapshotCache st1) (events st1 ++ more1)).
  unfold wrapperStrategy.
  destruct (request_429 pageUrl st2) as [r2 [E2 S2]]. rewrite E2, S2. cbn [Z.eqb Pos.eqb].
  set (st3 := record (Request pageUrl) st2).
  destruct (Hagain st3 Hmiss) as (e2 & more2 & A2 & Q2 & P2). fold (again st3) in A2.
  rewrite A2.
  pose proof (quiet_wrapperFailure e2 Q2) as Q3. rewrite Q3.
  destruct (quiet_outer _ Q3) as [Q4 P4].
  eexists _, more1, more2. split.
  { f_equal. f_equal. subst st3 st2 st1. cbn [record events snapshotCache].
    now rewrite <- !app_assoc. }
  split; [exact Q4|]. split; [exact P4|]. split; assumption.
Qed.

(** The whole call: it fails, quietly, and leaves the cache alone; with
    [n] retries left it has sent [2^(n+2) - 2] requests and waited
    [2^(n+1) - 2] times, a third of [4000 * 2^retryCount * (4^n - 1)]
    milliseconds in all. *)
Lemma limited_loop (retriesLeft : nat) :
  forall (retryCount : nat) (st : Instance),
    cacheGet (cacheKey snapshot) (snapshotCache st) = None ->
    exists e more,
      loop retryCount maxRetries retriesLeft st
      = (Client.Throw e, mkInstance (snapshotCache st) (events st ++ more))
      /\ quiet (Client.message e)
      /\ startsWith (Client.message e) "Failed to fetch snapshot HTML: " = true
      /\ (requests more + 2 = 2 ^ (retriesLeft + 2))%nat
      /\ (List.length (waits more) + 2 = 2 ^ (retriesLeft + 1))%nat
      /\ (3 * total (waits more)
          = 4000 * 2 ^ Z.of_nat retryCount * (4 ^ Z.of_nat retriesLeft - 1))%Z.
Proof.
  induction retriesLeft as [|fewer IH]; intros retryCount st Hmiss.
  - destruct (limited_level (fun more => more = []) retryCount 0 st Hmiss)
      as (e & more1 & more2 & E & Q & HS & -> & ->).
    { intros st1 _. exists (rateLimitError maxRetries), [].
      rewrite app_nil_r. split; [now destruct st1|].
      split; [apply quiet_rateLimit | reflexivity]. }
    exists e, [Request rawUrl; Request pageUrl].
    split; [exact E|]. split; [exact Q|]. split; [exact HS|].
    cbn. repeat split; lia.
  - set (d := getBackoffDelay retryCount).
    set (P := fun more : list Event =>
                exists more', more = Wait d :: more'
                  /\ (requests more' + 2 = 2 ^ (fewer + 2))%nat
                  /\ (List.length (waits more') + 2 = 2 ^ (fewer + 1))%nat
                  /\ (3 * total (waits more')
                      = 4000 * 2 ^ Z.of_nat (S retryCount) * (4 ^ Z.of_nat fewer - 1))%Z).
    destruct (limited_level P retryCount (S fewer) st Hmiss)
      as (e & more1 & more2 & E & Q & HS & P1 & P2).
    { intros st1 Hm1.
      destruct (IH (S retryCount) (record (Wait d) st1) Hm1)
        as (e' & more' & E' & Q' & _ & R' & W' & T').
      exists e', (Wait d :: more'). split; [|split; [exact Q'|]].
      - fold d. rewrite E'. f_equal. f_equal. cbn [record events snapshotCache].
        now rewrite <- app_assoc.
      - exists more'. auto. }
    destruct P1 as (m1 & -> & R1 & W1 & T1). destruct P2 as (m2 & -> & R2 & W2 & T2).
    exists e, ([Request rawUrl] ++ (Wait d :: m1) ++ [Request pageUrl] ++ Wait d :: m2).
    split; [exact E|]. split; [exact Q|]. split; [exact HS|].
    rewrite !requests_app, !waits_app, !length_app, !total_app.
    change (requests [Request rawUrl]) with 1%nat.
    change (requests [Request pageUrl]) with 1%nat.
    change (requests (Wait d :: m1)) with (requests m1).
    change (requests (Wait d :: m2)) with (requests m2).
    change (waits [Request rawUrl]) with (@nil Z).
    change (waits [Request pageUrl]) with (@nil Z).
    change (waits (Wait d :: m1)) with (d :: waits m1).
    change (waits (Wait d :: m2)) with (d :: waits m2).
    cbn [List.length fold_right].
    replace (S fewer + 2)%nat with (S (fewer + 2)) by lia.
    replace (S fewer + 1)%nat with (S (fewer + 1)) by lia.
    rewrite !Nat.pow_succ_r'.
    split; [lia|]. split; [lia|].
    rewrite !Nat2Z.inj_succ in *. rewrite !Z.pow_succ_r in * by lia.
    subst d. unfold getBackoffDelay. nia.
Qed.

End RateLimit.

Section PersistentRateLimit.

Import Js Fetcher.

(** X12.  A capture behind a persistent rate limit.  When the archive
    answers every request with status 429, a call of [getSnapshotHtml]
    for a capture that is not in the cache (and whose timestamp and
    address do not contain the word the error handlers look for) fails
    with a message that starts with "Failed to fetch snapshot HTML: "
    and leaves the cache as it was; because both the raw-address branch
    and the page-address branch retry the whole call, it has by then
    sent [2^(maxRetries+2) - 2] requests and slept [2^(maxRetries+1) - 2]
    times, [4000 * (4^maxRetries - 1) / 3] milliseconds in all: 30
    requests and 84 seconds for the default of three retries. *)
Theorem getSnapshotHtml_persistent_rate_limit
  (timeout : Z) (fetch : list Event -> string -> Client.Outcome Response)
  (pathnameOf : string -> option string)
  (load : string -> option (string -> option string))
  (snapshot : Client.Snapshot) (maxRetries : nat) (st : Instance) :
  (forall h u, exists r, fetch h u = Client.Return r /\ status r = 429%Z) ->
  truthy (Client.timestamp snapshot) = true ->
  truthy (Client.originalUrl snapshot) = true ->
  includes (Client.timestamp snapshot) "timeout" = false ->
  includes (Client.originalUrl snapshot) "timeout" = false ->
  cacheGet (cacheKey snapshot) (snapshotCache st) = None ->
  exists e more,
    getSnapshotHtml timeout fetch pathnameOf load snapshot 0 maxRetries st
    = (Client.Throw e, mkInstance (snapshotCache st) (events st ++ more))
    /\ startsWith (Client.message e) "Failed to fetch snapshot HTML: " = true
    /\ (requests more + 2 = 2 ^ (maxRetries + 2))%nat
    /\ (List.length (waits more) + 2 = 2 ^ (maxRetries + 1))%nat
    /\ (3 * fold_right Z.add 0 (waits more) = 4000 * (4 ^ Z.of_nat maxRetries - 1))%Z
    /\ (maxRetries = 3%nat ->
        requests more = 30%nat /\ List.length (waits more) = 14%nat
        /\ fold_right Z.add 0%Z (waits more) = 84000%Z).
Proof.
  intros H429 Ht Hu Qt Qu Hmiss. unfold getSnapshotHtml.
  rewrite Nat.sub_0_r.
  destruct (limited_loop timeout fetch pathnameOf load snapshot maxRetries
              H429 Ht Hu Qt Qu maxRetries 0 st Hmiss)
    as (e & more & E & _ & HS & R & W & T).
  exists e, more. split; [exact E|]. split; [exact HS|].
  change (2 ^ Z.of_nat 0)%Z with 1%Z in T. rewrite Z.mul_1_r in T.
  split; [exact R|]. split; [exact W|]. split; [exact T|].
  intros ->. change (2 ^ (3 + 2))%nat with 32%nat in R.
  change (2 ^ (3 + 1))%nat with 16%nat in W.
  change (4 ^ Z.of_nat 3)%Z with 64%Z in T. repeat apply conj; lia.
Qed.

Lemma getSnapshotHtml_persistent_rate_limit_witness :
  exists e more,
    getSnapshotHtml 120000
      (fun _ _ => Client.Return (mkResponse 429 (Client.Return EmptyString)))
      (fun _ => None) (fun _ => None)
      (Client.mkSnapshot "20200101000000" "http://example.com/" None) 0 3 fresh
    = (Client.Throw e, mkInstance (snapshotCache fresh) (events fresh ++ more))
    /\ startsWith (Client.message e) "Failed to fetch snapshot HTML: " = true
    /\ (requests more + 2 = 2 ^ (3 + 2))%nat
    /\ (List.length (waits more) + 2 = 2 ^ (3 + 1))%nat
    /\ (3 * fold_right Z.add 0 (waits more) = 4000 * (4 ^ Z.of_nat 3 - 1))%Z
    /\ (3%nat = 3%nat ->
        requests more = 30%nat /\ List.length (waits more) = 14%nat
        /\ fold_right Z.add 0%Z (waits more) = 84000%Z).
Proof.
  apply (getSnapshotHtml_persistent_rate_limit 120000
           (fun _ _ => Client.Return (mkResponse 429 (Client.Return EmptyString)))
           (fun _ => None) (fun _ => None)
           (Client.mkSnapshot "20200101000000" "http://example.com/" None) 3 fresh).
  - intros h u. eexists. split; reflexivity.
  - reflexivity.
  - reflexivity.
  - reflexivity.
  - reflexivity.
  - reflexivity.
Defined.

End PersistentRateLimit.
